(** * The declaration visitor of the static compiler

    A shallow embedding of
    [cinderx/compiler/static/declaration_visitor.py]: the pass that walks
    the syntax tree of one module, keeps a stack of scopes and records
    the classes, functions, variables and imports it meets in the
    module's symbol table. *)

From Stdlib Require Import ZArith Lia Ascii String.
From stdpp Require Import base option list strings gmap.

Open Scope string_scope.
Open Scope list_scope.

#[local] Set Warnings "-register-all".

(** ** Syntax trees (the part of Python's [ast] the pass looks at) *)

Inductive expr : Type :=
| Name (id : string)
| Attribute (value : expr) (attr : string)
| Subscript (value slice : expr)
| Constant (value : Z).

(** [ast.alias]: one name of an import statement. *)
Record alias : Type := mk_alias {
  alias_name : string;
  alias_asname : option string
}.

(** Statements, and [ExceptHandler], which Python's [ast] also makes a
    node with a statement list of its own.  Statements that no method
    of the visitor handles and that hold no statements ([pass],
    expression statements) are leaves. *)
Inductive AST : Type :=
| AnnAssign (target annotation : expr)
| Assign (targets : list expr)
| ClassDef (name : string) (bases decorator_list : list expr)
           (body : list AST)
| FunctionDef (name : string) (returns : option expr)
              (decorator_list : list expr) (body : list AST)
| AsyncFunctionDef (name : string) (returns : option expr)
                   (decorator_list : list expr) (body : list AST)
| Import (names : list alias)
| ImportFrom (module : option string) (names : list alias) (level : nat)
| For (target iter : expr) (body orelse : list AST)
| AsyncFor (target iter : expr) (body orelse : list AST)
| While (test : expr) (body orelse : list AST)
| If (test : expr) (body orelse : list AST)
| With (items : list expr) (body : list AST)
| AsyncWith (items : list expr) (body : list AST)
| Try (body handlers orelse finalbody : list AST)
| ExceptHandler (type : option expr) (body : list AST)
| Pass
| Expr (value : expr).

(** The induction principle Rocq derives for [AST] says nothing about
    the statement lists; this one gives the hypothesis for every
    statement of every list. *)
Section AST_induction.
Variable P : AST -> Prop.
Hypothesis HAnnAssign : forall t a, P (AnnAssign t a).
Hypothesis HAssign : forall ts, P (Assign ts).
Hypothesis HClassDef : forall n bs ds body,
  Forall P body -> P (ClassDef n bs ds body).
Hypothesis HFunctionDef : forall n r ds body,
  Forall P body -> P (FunctionDef n r ds body).
Hypothesis HAsyncFunctionDef : forall n r ds body,
  Forall P body -> P (AsyncFunctionDef n r ds body).
Hypothesis HImport : forall ns, P (Import ns).
Hypothesis HImportFrom : forall m ns l, P (ImportFrom m ns l).
Hypothesis HFor : forall t i body orelse,
  Forall P body -> Forall P orelse -> P (For t i body orelse).
Hypothesis HAsyncFor : forall t i body orelse,
  Forall P body -> Forall P orelse -> P (AsyncFor t i body orelse).
Hypothesis HWhile : forall t body orelse,
  Forall P body -> Forall P orelse -> P (While t body orelse).
Hypothesis HIf : forall t body orelse,
  Forall P body -> Forall P orelse -> P (If t body orelse).
Hypothesis HWith : forall i body, Forall P body -> P (With i body).
Hypothesis HAsyncWith : forall i body,
  Forall P body -> P (AsyncWith i body).
Hypothesis HTry : forall body handlers orelse finalbody,
  Forall P body -> Forall P handlers -> Forall P orelse ->
  Forall P finalbody -> P (Try body handlers orelse finalbody).
Hypothesis HExceptHandler : forall t body,
  Forall P body -> P (ExceptHandler t body).
Hypothesis HPass : P Pass.
Hypothesis HExpr : forall e, P (Expr e).

Fixpoint AST_nested_ind (node : AST) : P node :=
  let all := fix all (l : list AST) : Forall P l :=
    match l with
    | [] => @List.Forall_nil _ P
    | x :: l' => @List.Forall_cons _ P x l' (AST_nested_ind x) (all l')
    end in
  match node with
  | AnnAssign t a => HAnnAssign t a
  | Assign ts => HAssign ts
  | ClassDef n bs ds body => HClassDef n bs ds body (all body)
  | FunctionDef n r ds body => HFunctionDef n r ds body (all body)
  | AsyncFunctionDef n r ds body =>
      HAsyncFunctionDef n r ds body (all body)
  | Import ns => HImport ns
  | ImportFrom m ns l => HImportFrom m ns l
  | For t i body orelse => HFor t i body orelse (all body) (all orelse)
  | AsyncFor t i body orelse =>
      HAsyncFor t i body orelse (all body) (all orelse)
  | While t body orelse => HWhile t body orelse (all body) (all orelse)
  | If t body orelse => HIf t body orelse (all body) (all orelse)
  | With i body => HWith i body (all body)
  | AsyncWith i body => HAsyncWith i body (all body)
  | Try body handlers orelse finalbody =>
      HTry body handlers orelse finalbody
           (all body) (all handlers) (all orelse) (all finalbody)
  | ExceptHandler t body => HExceptHandler t body (all body)
  | Pass => HPass
  | Expr e => HExpr e
  end.
End AST_induction.

(** ** Strings: [str.split] *)

(** [s.split(sep)] for a one-character separator: never empty, and a
    string without the separator is returned whole. *)
Fixpoint split (sep : ascii) (s : string) : list string :=
  match s with
  | EmptyString => [EmptyString]
  | String c rest =>
      if Ascii.eqb c sep then EmptyString :: split sep rest
      else match split sep rest with
           | [] => [String c EmptyString]
           | w :: ws => String c w :: ws
           end
  end.

Definition dot : ascii := "."%char.

(** [name.split(".")[0]] *)
Definition top_level_module (name : string) : string :=
  match split dot name with
  | [] => EmptyString
  | w :: _ => w
  end.

(** [c in s] for a character. *)
Fixpoint occurs (c : ascii) (s : string) : bool :=
  match s with
  | EmptyString => false
  | String c' rest => Ascii.eqb c' c || occurs c rest
  end.

(** ** The interface of [types.py]

    The classes of [types.py] ([Class], its subclasses, the type
    environment) are used by the pass and defined elsewhere; the pass
    only calls the methods below, so they are an interface here. *)

Record TypeName : Type := mk_TypeName {
  tn_module : string;
  tn_name : string
}.

Class TypesInterface : Type := {
  (** the values of [types.py]; [is] on them is equality *)
  Value : Type;
  Value_eq_dec :: EqDecision Value;
  (** [type(v)], the Python class a value is an instance of *)
  Kind : Type;
  Kind_eq_dec :: EqDecision Kind;
  type_of : Value -> Kind;
  (** [type_env.dynamic], [.object], [.named_tuple], [.protocol],
      [.typed_dict] *)
  dynamic : Value;
  object : Value;
  named_tuple : Value;
  protocol : Value;
  typed_dict : Value;
  (** [base.make_subclass(name, bases)] *)
  make_subclass : Value -> TypeName -> list Value -> Value;
  (** [base.is_final] *)
  is_final : Value -> bool;
  (** [klass.instance.name] *)
  instance_name : Value -> string;
  (** [klass.exact_type()] *)
  exact_type : Value -> Value;
  (** [decorator.resolve_decorate_class(klass, d, visitor)]: the spec
      makes it a pure transformation of the current type. *)
  resolve_decorate_class : Value -> Value -> expr -> Value
}.

(** ** Data of the pass *)

(** [DeferredImport(mod_to_import, optimize, compiler, name,
    mod_to_return)]: the arguments a call site leaves out are [None].
    The compiler handle is the same for all of them and is left out. *)
Record DeferredImport : Type := mk_DeferredImport {
  mod_to_import : string;
  di_optimize : Z;
  di_name : option string;
  mod_to_return : option string
}.

Section DataModel.
Context `{TI : TypesInterface}.

(** [ResolvedTypeRef], [TypeRef] and [AwaitableTypeRef] *)
Inductive TypeRef : Type :=
| ResolvedTypeRef (t : Value)
| TypeRef_ann (ann : expr)
| AwaitableTypeRef (inner : TypeRef).

(** [Function(node, module, ret)] and
    [InitSubclassFunction(node, module, ret)] *)
Record Function : Type := mk_Function {
  func_node : AST;
  func_name : string;
  func_return : TypeRef;
  func_is_init_subclass : bool
}.

(** [TScopeTypes = Union[ModuleTable, Class, Function, NestedScope]] *)
Inductive Scope : Type :=
| ScModuleTable
| ScClass (klass : Value)
| ScFunction (func : Function)
| NestedScope.

(** What a name is declared as. *)
Inductive decl : Type :=
| DClass (klass : Value)
| DFunction (func : Function)
| DVariable (annotation : option expr)
| DImport (source : option (string * string)) (d : DeferredImport).

(** What [module.types] holds for a node. *)
Inductive NodeType : Type :=
| TClass (klass : Value)
| TFunction (func : Function)
| UnknownDecoratedMethod (func : Function).

(** Modelled from the spec: the module symbol table of
    [module_table.py], which is not among the sources.  It owns a map
    from declared name to its record, where declaring a name again
    overwrites it, the types attached to nodes (newest first), and the
    tests marked as statically known. *)
Record ModuleTable : Type := mk_ModuleTable {
  children : gmap string decl;
  types : list (AST * NodeType);
  known_boolean_tests : list (expr * bool)
}.

(** The visitor object [self] with the objects it mutates.
    [error_sink] is [compiler.error_sink].  [members] and
    [has_init_subclass] are the state of the [Class] objects that are
    used as scopes (newest first). *)
Record DeclarationVisitor : Type := mk_DeclarationVisitor {
  module_name : string;
  filename : string;
  optimize : Z;
  module_ : ModuleTable;
  scopes : list Scope;
  error_sink : list (string * AST * string);
  members : list (Value * string * decl);
  has_init_subclass : list Value
}.

Definition set_module (m : ModuleTable) (self : DeclarationVisitor) :=
  mk_DeclarationVisitor (module_name self) (filename self) (optimize self)
    m (scopes self) (error_sink self) (members self)
    (has_init_subclass self).

Definition set_scopes (s : list Scope) (self : DeclarationVisitor) :=
  mk_DeclarationVisitor (module_name self) (filename self) (optimize self)
    (module_ self) s (error_sink self) (members self)
    (has_init_subclass self).

Definition set_error_sink (e : list (string * AST * string))
    (self : DeclarationVisitor) :=
  mk_DeclarationVisitor (module_name self) (filename self) (optimize self)
    (module_ self) (scopes self) e (members self)
    (has_init_subclass self).

Definition set_members (ms : list (Value * string * decl))
    (self : DeclarationVisitor) :=
  mk_DeclarationVisitor (module_name self) (filename self) (optimize self)
    (module_ self) (scopes self) (error_sink self) ms
    (has_init_subclass self).

Definition set_has_init_subclass (l : list Value)
    (self : DeclarationVisitor) :=
  mk_DeclarationVisitor (module_name self) (filename self) (optimize self)
    (module_ self) (scopes self) (error_sink self) (members self) l.

(** [module._children[name] = d] *)
Definition set_child (name : string) (d : decl) (m : ModuleTable) :=
  mk_ModuleTable (<[name := d]> (children m)) (types m)
    (known_boolean_tests m).

(** [module.types[node] = t] *)
Definition set_type (node : AST) (t : NodeType) (m : ModuleTable) :=
  mk_ModuleTable (children m) ((node, t) :: types m)
    (known_boolean_tests m).

(** Modelled from the spec: [module.mark_known_boolean_test(test,
    value)] annotates the test with its statically known outcome. *)
Definition mark_known_boolean_test (test : expr) (value : bool)
    (m : ModuleTable) :=
  mk_ModuleTable (children m) (types m)
    ((test, value) :: known_boolean_tests m).

(** Modelled from the spec: [module.declare_import(name, source,
    val)] binds the local name, overwriting an earlier declaration. *)
Definition declare_import (name : string)
    (source : option (string * string)) (val : DeferredImport)
    (m : ModuleTable) :=
  set_child name (DImport source val) m.

(** ** Exceptions and the error sink *)

Inductive exn : Type :=
| NotImplementedError (msg : string)
| IndexError (msg : string).

(** A method of the visitor returns [None] or raises; either way the
    objects keep what was done to them. *)
Inductive outcome : Type :=
| Ok (self : DeclarationVisitor)
| Raise (e : exn) (self : DeclarationVisitor).

Definition action : Type := DeclarationVisitor -> outcome.

Definition bind (o : outcome) (k : action) : outcome :=
  match o with
  | Ok self => k self
  | Raise e self => Raise e self
  end.

Definition and_then (a b : action) : action :=
  fun self => bind (a self) b.

(** The objects as they are when the method is left. *)
Definition final (o : outcome) : DeclarationVisitor :=
  match o with
  | Ok self => self
  | Raise _ self => self
  end.

(** Modelled from the spec: the error sink is a collaborator that is
    not among the sources; it accumulates the reports
    [report(file, node, message)] and the pass goes on.
    [self.syntax_error(msg, node)] reports under the visitor's file
    name. *)
Definition syntax_error (msg : string) (node : AST)
    (self : DeclarationVisitor) : DeclarationVisitor :=
  set_error_sink (error_sink self ++ [(filename self, node, msg)]) self.

(** Modelled from the spec: [with error_sink.error_context(filename,
    node): ...], a scoped acquisition that attributes a
    [TypedSyntaxError] raised inside to the node.  The sink above
    collects instead of raising, so none is in flight, and any other
    exception passes through. *)
Definition error_context (_ : string) (_ : AST) (a : action) : action :=
  a.
End DataModel.

Notation "a >> b" := (and_then a b) (at level 62, right associativity).

(** ** The interface of [module_table.py] and [util.py]

    [module.resolve_type] and [module.resolve_decorator] look a name up
    in what the module has declared so far; [sys_hexversion_check]
    decides a test on the interpreter version, when the test is one. *)
Class ModuleInterface `{TI : TypesInterface} : Type := {
  resolve_type : ModuleTable -> expr -> option Value;
  resolve_decorator : ModuleTable -> expr -> option Value;
  sys_hexversion_check : AST -> option bool
}.

(** ** The visitor *)

Section Visitor.
Context `{TI : TypesInterface} `{MI : !ModuleInterface}.

(** [DeclarationVisitor.__init__]: a fresh module table, with the
    module as the only scope. *)
Definition DeclarationVisitor_init (mod_name file : string) (opt : Z)
    (sink : list (string * AST * string)) : DeclarationVisitor :=
  mk_DeclarationVisitor mod_name file opt (mk_ModuleTable ∅ [] [])
    [ScModuleTable] sink [] [].

(** [self.scopes[-1]] *)
Definition parent_scope (k : Scope -> action) : action :=
  fun self =>
    match last (scopes self) with
    | Some scope => k scope self
    | None => Raise (IndexError "list index out of range") self
    end.

(** [self.scopes.append(scope)] *)
Definition enter_scope (scope : Scope) : action :=
  fun self => Ok (set_scopes (scopes self ++ [scope]) self).

(** [self.scopes.pop()] *)
Definition exit_scope : action :=
  fun self =>
    match scopes self with
    | [] => Raise (IndexError "pop from empty list") self
    | _ :: _ => Ok (set_scopes (removelast (scopes self)) self)
    end.

(** *** The four declaration methods of a scope *)

(** Modelled from the spec: the declaration methods of [ModuleTable],
    [Class] and [Function], which are in [module_table.py] and
    [types.py] and not among the sources.  A declaration in the module
    scope overwrites the name in the module's table, one in a class
    scope attaches to that class, one in a function scope is local to
    the function and changes neither.  [NestedScope] is in the source:
    its four methods are [pass]. *)
Definition declare (scope : Scope) (name : string) (d : decl)
    (self : DeclarationVisitor) : DeclarationVisitor :=
  match scope with
  | ScModuleTable => set_module (set_child name d (module_ self)) self
  | ScClass klass => set_members ((klass, name, d) :: members self) self
  | ScFunction _ => self
  | NestedScope => self
  end.

Definition declare_class (scope : Scope) (name : string) (klass : Value)
    (self : DeclarationVisitor) : DeclarationVisitor :=
  match scope with
  | NestedScope => self
  | _ => declare scope name (DClass klass) self
  end.

Definition declare_function (scope : Scope) (func : Function)
    (self : DeclarationVisitor) : DeclarationVisitor :=
  match scope with
  | NestedScope => self
  | _ => declare scope (func_name func) (DFunction func) self
  end.

Definition declare_variable (scope : Scope) (target annotation : expr)
    (self : DeclarationVisitor) : DeclarationVisitor :=
  match scope with
  | NestedScope => self
  | _ =>
      match target with
      | Name id => declare scope id (DVariable (Some annotation)) self
      | _ => self
      end
  end.

Definition declare_variables (scope : Scope) (targets : list expr)
    (self : DeclarationVisitor) : DeclarationVisitor :=
  match scope with
  | NestedScope => self
  | _ =>
      fold_left
        (fun s target =>
           match target with
           | Name id => declare scope id (DVariable None) s
           | _ => s
           end)
        targets self
  end.

Definition visitAnnAssign (target annotation : expr) : action :=
  parent_scope (fun scope self =>
    Ok (declare_variable scope target annotation self)).

Definition visitAssign (targets : list expr) : action :=
  parent_scope (fun scope self =>
    Ok (declare_variables scope targets self)).

(** *** [visitClassDef] *)

(** [[module.resolve_type(base) or dynamic for base in node.bases]],
    with [object] appended when the list is empty. *)
Definition resolve_bases (self : DeclarationVisitor)
    (bases : list expr) : list Value :=
  match map (fun base => default dynamic
                           (resolve_type (module_ self) base)) bases with
  | [] => [object]
  | resolved => resolved
  end.

(** [[base.make_subclass(TypeName(module_name, name), bases) for base
    in bases]] *)
Definition make_subclasses (self : DeclarationVisitor) (name : string)
    (bases : list Value) : list Value :=
  map (fun base =>
         make_subclass base (mk_TypeName (module_name self) name) bases)
      bases.

(** [for cur_type in klasses: if type(cur_type) != type(klasses[0]):
    self.syntax_error("Incompatible subtypes", node)] *)
Fixpoint check_subtypes (node : AST) (first : Value)
    (klasses : list Value) (self : DeclarationVisitor)
    : DeclarationVisitor :=
  match klasses with
  | [] => self
  | cur_type :: rest =>
      check_subtypes node first rest
        (if decide (type_of cur_type = type_of first) then self
         else syntax_error "Incompatible subtypes" node self)
  end.

Definition final_class_message (klass base : Value) : string :=
  "Class `" +:+ instance_name klass +:+
  "` cannot subclass a Final class: `" +:+ instance_name base +:+ "`".

(** The second loop over the bases: the three marker bases make the
    class dynamic and leave the loop, a final base is reported. *)
Fixpoint check_bases (node : AST) (bases : list Value) (klass : Value)
    (self : DeclarationVisitor) : Value * DeclarationVisitor :=
  match bases with
  | [] => (klass, self)
  | base :: rest =>
      if decide (base = named_tuple) then (dynamic, self)
      else if decide (base = protocol) then (dynamic, self)
      else if decide (base = typed_dict) then (dynamic, self)
      else if is_final base then
        check_bases node rest klass
          (syntax_error (final_class_message klass base) node self)
      else check_bases node rest klass self
  end.

(** [isinstance(scope, ModuleTable)] *)
Definition is_ModuleTable (scope : Scope) : bool :=
  match scope with
  | ScModuleTable => true
  | _ => false
  end.

(** [for d in reversed(node.decorator_list)], given the reversed
    list. *)
Fixpoint apply_decorators (m : ModuleTable) (ds : list expr)
    (klass : Value) : Value :=
  match ds with
  | [] => klass
  | d :: rest =>
      if decide (klass = dynamic) then klass
      else
        let decorator := default dynamic (resolve_decorator m d) in
        apply_decorators m rest (resolve_decorate_class decorator klass d)
  end.

Definition visitClassDef (node : AST) (name : string)
    (bases decorator_list : list expr) (visit_body : action) : action :=
  fun self =>
    let bases := resolve_bases self bases in
    match make_subclasses self name bases with
    | [] => Raise (IndexError "list index out of range") self
    | first :: rest =>
        let self := check_subtypes node first (first :: rest) self in
        let '(klass, self) := check_bases node bases first self in
        parent_scope (fun scope =>
          let klass := if is_ModuleTable scope then klass else dynamic in
          enter_scope (if decide (klass = dynamic) then NestedScope
                       else ScClass klass) >>
          visit_body >>
          exit_scope >>
          (fun self =>
             let klass :=
               apply_decorators (module_ self) (rev decorator_list)
                                klass in
             let self := declare_class scope name (exact_type klass)
                                       self in
             Ok (set_module
                   (set_type node (TClass (exact_type klass))
                             (module_ self)) self))) self
    end.

(** *** Functions *)

Definition type_ref (is_async : bool) (returns : option expr)
    : TypeRef :=
  let res := match returns with
             | None => ResolvedTypeRef dynamic
             | Some ann => TypeRef_ann ann
             end in
  if is_async then AwaitableTypeRef res else res.

Definition make_function (node : AST) (is_async : bool) (name : string)
    (returns : option expr) (decorator_list : list expr)
    (visit_body : action) (k : Function -> action) : action :=
  let init_subclass := bool_decide (name = "__init_subclass__") in
  let func :=
    mk_Function node name (type_ref is_async returns) init_subclass in
  (if init_subclass then
     parent_scope (fun scope self =>
       Ok match scope with
          | ScClass klass =>
              set_has_init_subclass (klass :: has_init_subclass self) self
          | _ => self
          end)
   else Ok) >>
  enter_scope (ScFunction func) >>
  visit_body >>
  exit_scope >>
  (fun self =>
     let func_type := match decorator_list with
                      | [] => TFunction func
                      | _ :: _ => UnknownDecoratedMethod func
                      end in
     k func (set_module (set_type node func_type (module_ self)) self)).

Definition visitFunc (node : AST) (is_async : bool) (name : string)
    (returns : option expr) (decorator_list : list expr)
    (visit_body : action) : action :=
  make_function node is_async name returns decorator_list visit_body
    (fun function =>
       parent_scope (fun scope self =>
         Ok (declare_function scope function self))).

(** *** Imports *)

(** One turn of the loop of [visitImport]. *)
Definition import_name (name : alias) (self : DeclarationVisitor)
    : DeclarationVisitor :=
  match alias_asname name with
  | None =>
      let top := top_level_module (alias_name name) in
      set_module
        (declare_import top None
           (mk_DeferredImport (alias_name name) (optimize self) None
                              (Some top))
           (module_ self)) self
  | Some asname =>
      set_module
        (declare_import asname None
           (mk_DeferredImport (alias_name name) (optimize self) None None)
           (module_ self)) self
  end.

Definition visitImport (names : list alias) : action :=
  fun self => Ok (fold_left (fun s name => import_name name s) names self).

(** [name.asname or name.name]: the empty string is false too. *)
Definition asname_or_name (name : alias) : string :=
  match alias_asname name with
  | Some (String c s) => String c s
  | _ => alias_name name
  end.

(** One turn of the loop of [visitImportFrom]. *)
Definition import_from_name (mod_name : string) (name : alias)
    (self : DeclarationVisitor) : DeclarationVisitor :=
  set_module
    (declare_import (asname_or_name name)
       (Some (mod_name, alias_name name))
       (mk_DeferredImport mod_name (optimize self)
                          (Some (alias_name name)) None)
       (module_ self)) self.

Definition visitImportFrom (mod_name : option string)
    (names : list alias) (level : nat) : action :=
  fun self =>
    match mod_name, level with
    | Some (String c s), O =>
        Ok (fold_left (fun s' name => import_from_name (String c s) name s')
                      names self)
    | _, _ =>
        Raise (NotImplementedError "relative imports aren't supported")
              self
    end.

(** *** Nested statements *)

Definition visitFor (generic_visit : action) : action :=
  enter_scope NestedScope >> generic_visit >> exit_scope.

Definition visitAsyncFor (generic_visit : action) : action :=
  enter_scope NestedScope >> generic_visit >> exit_scope.

Definition visitWhile (generic_visit : action) : action :=
  enter_scope NestedScope >> generic_visit >> exit_scope.

Definition visitWith (generic_visit : action) : action :=
  enter_scope NestedScope >> generic_visit >> exit_scope.

Definition visitAsyncWith (generic_visit : action) : action :=
  enter_scope NestedScope >> generic_visit >> exit_scope.

Definition visitTry (generic_visit : action) : action :=
  enter_scope NestedScope >> generic_visit >> exit_scope.

(** [isinstance(test, Name) and test.id == "TYPE_CHECKING"] *)
Definition is_TYPE_CHECKING (test : expr) : bool :=
  match test with
  | Name id => bool_decide (id = "TYPE_CHECKING")
  | _ => false
  end.

(** The last statement of [visitIf]: [if node.orelse: ...]. *)
Definition visit_orelse_nested (orelse : list AST)
    (visit_orelse : action) : action :=
  match orelse with
  | [] => Ok
  | _ :: _ => enter_scope NestedScope >> visit_orelse >> exit_scope
  end.

Definition visitIf (node : AST) (test : expr) (orelse : list AST)
    (visit_body visit_orelse : action) : action :=
  if is_TYPE_CHECKING test then
    visit_body >> visit_orelse_nested orelse visit_orelse
  else
    match sys_hexversion_check node with
    | Some result =>
        fun self =>
          let self :=
            set_module
              (mark_known_boolean_test test result (module_ self)) self in
          if result then visit_body self else visit_orelse self
    | None =>
        (enter_scope NestedScope >> visit_body >> exit_scope) >>
        visit_orelse_nested orelse visit_orelse
    end.

(** *** The dispatch *)

(** Modelled from the spec: [visit] and [generic_visit] of
    [visitor.py], which is not among the sources.  [visit] on a list
    visits its nodes in order; [generic_visit] visits the fields of a
    node in the order [ast] declares them, and expressions hold no
    statement. *)
Definition visit_list (visit : AST -> action) : list AST -> action :=
  fix walk (nodes : list AST) : action :=
    match nodes with
    | [] => Ok
    | node :: rest => visit node >> walk rest
    end.

Fixpoint visit (node : AST) : action :=
  match node with
  | AnnAssign target annotation => visitAnnAssign target annotation
  | Assign targets => visitAssign targets
  | ClassDef name bases decorator_list body =>
      visitClassDef node name bases decorator_list
        (fun self =>
           visit_list
             (fun item => error_context (filename self) item (visit item))
             body self)
  | FunctionDef name returns decorator_list body =>
      visitFunc node false name returns decorator_list
        (visit_list visit body)
  | AsyncFunctionDef name returns decorator_list body =>
      visitFunc node true name returns decorator_list
        (visit_list visit body)
  | Import names => visitImport names
  | ImportFrom mod_name names level => visitImportFrom mod_name names level
  | For _ _ body orelse =>
      visitFor (visit_list visit body >> visit_list visit orelse)
  | AsyncFor _ _ body orelse =>
      visitAsyncFor (visit_list visit body >> visit_list visit orelse)
  | While _ body orelse =>
      visitWhile (visit_list visit body >> visit_list visit orelse)
  | If test body orelse =>
      visitIf node test orelse
        (visit_list visit body) (visit_list visit orelse)
  | With _ body => visitWith (visit_list visit body)
  | AsyncWith _ body => visitAsyncWith (visit_list visit body)
  | Try body handlers orelse finalbody =>
      visitTry (visit_list visit body >> visit_list visit handlers >>
                visit_list visit orelse >> visit_list visit finalbody)
  | ExceptHandler _ body => visit_list visit body
  | Pass => Ok
  | Expr _ => Ok
  end.
End Visitor.

Arguments visit : simpl never.

(** ** Unfolding [visit] and what the helpers leave alone *)

Section Basics.
Context `{TI : TypesInterface} `{MI : !ModuleInterface}.

Lemma visit_ClassDef name bases decorator_list body :
  visit (ClassDef name bases decorator_list body) =
  visitClassDef (ClassDef name bases decorator_list body) name bases
    decorator_list (visit_list visit body).
Proof. reflexivity. Qed.

Lemma visit_FunctionDef name returns decorator_list body :
  visit (FunctionDef name returns decorator_list body) =
  visitFunc (FunctionDef name returns decorator_list body) false name
    returns decorator_list (visit_list visit body).
Proof. reflexivity. Qed.

Lemma visit_AsyncFunctionDef name returns decorator_list body :
  visit (AsyncFunctionDef name returns decorator_list body) =
  visitFunc (AsyncFunctionDef name returns decorator_list body) true name
    returns decorator_list (visit_list visit body).
Proof. reflexivity. Qed.

Lemma visit_If test body orelse :
  visit (If test body orelse) =
  visitIf (If test body orelse) test orelse
    (visit_list visit body) (visit_list visit orelse).
Proof. reflexivity. Qed.

Lemma visit_list_cons node rest :
  visit_list visit (node :: rest) = (visit node >> visit_list visit rest).
Proof. reflexivity. Qed.

Lemma visit_list_app pre post self :
  visit_list visit (pre ++ post) self =
  bind (visit_list visit pre self) (visit_list visit post).
Proof.
  revert self. induction pre as [|node pre IH]; intros self; [reflexivity|].
  cbn [app]. rewrite !visit_list_cons. unfold and_then.
  destruct (visit node self) as [self1|e self1]; cbn [bind]; [apply IH|].
  reflexivity.
Qed.

Lemma scopes_declare scope name d self :
  scopes (declare scope name d self) = scopes self.
Proof. destruct scope; reflexivity. Qed.

Lemma scopes_declare_class scope name klass self :
  scopes (declare_class scope name klass self) = scopes self.
Proof. destruct scope; reflexivity. Qed.

Lemma scopes_declare_function scope func self :
  scopes (declare_function scope func self) = scopes self.
Proof. destruct scope; reflexivity. Qed.

Lemma scopes_declare_variable scope target annotation self :
  scopes (declare_variable scope target annotation self) = scopes self.
Proof.
  destruct scope, target; try reflexivity; apply scopes_declare.
Qed.

Lemma scopes_declare_names scope targets self :
  scopes
    (fold_left
       (fun s target =>
          match target with
          | Name id => declare scope id (DVariable None) s
          | _ => s
          end) targets self) = scopes self.
Proof.
  revert self. induction targets as [|t ts IH]; intros self; [reflexivity|].
  cbn [fold_left]. rewrite IH. destruct t; try reflexivity.
  apply scopes_declare.
Qed.

Lemma scopes_declare_variables scope targets self :
  scopes (declare_variables scope targets self) = scopes self.
Proof.
  destruct scope; try reflexivity; apply scopes_declare_names.
Qed.

Lemma scopes_check_subtypes node first klasses self :
  scopes (check_subtypes node first klasses self) = scopes self.
Proof.
  revert self. induction klasses as [|k ks IH]; intros self; [reflexivity|].
  cbn [check_subtypes]. rewrite IH. by case_decide.
Qed.

Lemma scopes_check_bases node bases klass self :
  scopes (check_bases node bases klass self).2 = scopes self.
Proof.
  revert self. induction bases as [|b bs IH]; intros self; [reflexivity|].
  cbn [check_bases]. repeat case_decide; try reflexivity.
  destruct (is_final b); rewrite IH; reflexivity.
Qed.

Lemma scopes_imports names self :
  scopes (fold_left (fun s name => import_name name s) names self) =
  scopes self.
Proof.
  revert self. induction names as [|n ns IH]; intros self; [reflexivity|].
  cbn [fold_left]. rewrite IH. unfold import_name.
  by destruct (alias_asname n).
Qed.

Lemma scopes_imports_from mod_name names self :
  scopes (fold_left (fun s name => import_from_name mod_name name s)
                    names self) = scopes self.
Proof.
  revert self. induction names as [|n ns IH]; intros self; [reflexivity|].
  cbn [fold_left]. by rewrite IH.
Qed.

(** The class the second loop leaves does not depend on the reports:
    it is dynamic exactly when a marker base is met. *)
Definition is_marker (base : Value) : bool :=
  bool_decide (base = named_tuple) || bool_decide (base = protocol) ||
  bool_decide (base = typed_dict).

Lemma check_bases_class node bases klass self :
  (check_bases node bases klass self).1 =
  if existsb is_marker bases then dynamic else klass.
Proof.
  revert self. induction bases as [|b bs IH]; intros self; [reflexivity|].
  cbn [check_bases existsb]. unfold is_marker at 1.
  destruct (decide (b = named_tuple)) as [->|Hn].
  { by rewrite bool_decide_eq_true_2. }
  rewrite (bool_decide_eq_false_2 _ Hn).
  destruct (decide (b = protocol)) as [->|Hp].
  { by rewrite bool_decide_eq_true_2. }
  rewrite (bool_decide_eq_false_2 _ Hp).
  destruct (decide (b = typed_dict)) as [->|Ht].
  { by rewrite bool_decide_eq_true_2. }
  rewrite (bool_decide_eq_false_2 _ Ht). cbn [orb].
  destruct (is_final b); apply IH.
Qed.

Lemma apply_decorators_dynamic m ds :
  apply_decorators m ds dynamic = dynamic.
Proof. destruct ds; cbn; [done|]. by rewrite decide_True. Qed.
End Basics.

(** ** The scope stack is balanced

    A method that returns leaves the stack as it found it. *)

Section Balance.
Context `{TI : TypesInterface} `{MI : !ModuleInterface}.

Definition balanced (a : action) : Prop :=
  forall self self', a self = Ok self' -> scopes self' = scopes self.

Lemma balanced_Ok : balanced Ok.
Proof. intros self self' [= <-]. reflexivity. Qed.

Lemma balanced_pure (f : DeclarationVisitor -> DeclarationVisitor) :
  (forall self, scopes (f self) = scopes self) ->
  balanced (fun self => Ok (f self)).
Proof. intros Hf self self' [= <-]. apply Hf. Qed.

Lemma balanced_seq a b : balanced a -> balanced b -> balanced (a >> b).
Proof.
  intros Ha Hb self self'. unfold and_then.
  destruct (a self) as [self1|e self1] eqn:E; cbn [bind]; [|done].
  intros Hb'. rewrite (Hb _ _ Hb'). eauto.
Qed.

Lemma balanced_after (f : DeclarationVisitor -> DeclarationVisitor) a :
  (forall self, scopes (f self) = scopes self) ->
  balanced a -> balanced (fun self => a (f self)).
Proof. intros Hf Ha self self' E. rewrite (Ha _ _ E). apply Hf. Qed.

Lemma balanced_parent_scope k :
  (forall scope, balanced (k scope)) -> balanced (parent_scope k).
Proof.
  intros Hk self self'. unfold parent_scope.
  destruct (last (scopes self)); [apply Hk|done].
Qed.

Lemma exit_scope_snoc s scope self :
  scopes self = s ++ [scope] -> exit_scope self = Ok (set_scopes s self).
Proof.
  intros E. unfold exit_scope. rewrite E.
  destruct (s ++ [scope]) eqn:E'; [by destruct s|].
  rewrite <- E', removelast_last. reflexivity.
Qed.

Lemma balanced_nested scope a k :
  balanced a -> balanced k ->
  balanced (enter_scope scope >> a >> exit_scope >> k).
Proof.
  intros Ha Hk self self'. unfold and_then, enter_scope. cbn [bind].
  destruct (a _) as [self1|e self1] eqn:E; cbn [bind]; [|done].
  apply Ha in E. cbn in E. rewrite (exit_scope_snoc _ _ _ E). cbn [bind].
  intros E'. apply Hk in E'. by rewrite E'.
Qed.

Lemma balanced_nested_only scope a :
  balanced a -> balanced (enter_scope scope >> a >> exit_scope).
Proof.
  intros Ha self self'. unfold and_then, enter_scope. cbn [bind].
  destruct (a _) as [self1|e self1] eqn:E; cbn [bind]; [|done].
  apply Ha in E. cbn in E. rewrite (exit_scope_snoc _ _ _ E).
  by intros [= <-].
Qed.

Lemma balanced_visit_list nodes :
  Forall (fun node => balanced (visit node)) nodes ->
  balanced (visit_list visit nodes).
Proof.
  induction 1 as [|node rest Hnode _ IH]; [apply balanced_Ok|].
  rewrite visit_list_cons. by apply balanced_seq.
Qed.

Lemma balanced_visitClassDef node name bases decorator_list a :
  balanced a -> balanced (visitClassDef node name bases decorator_list a).
Proof.
  intros Ha self self'. unfold visitClassDef.
  destruct (make_subclasses _ _ _) as [|first rest]; [done|].
  destruct (check_bases _ _ _ _) as [klass self2] eqn:E2.
  intros E.
  assert (scopes self2 = scopes self) as <-.
  { change self2 with (klass, self2).2. rewrite <- E2.
    rewrite scopes_check_bases. apply scopes_check_subtypes. }
  revert E. apply balanced_parent_scope. intros scope.
  apply balanced_nested; [done|]. apply balanced_pure. intros s.
  cbn. apply scopes_declare_class.
Qed.

Lemma balanced_visitFunc node is_async name returns decorator_list a :
  balanced a ->
  balanced (visitFunc node is_async name returns decorator_list a).
Proof.
  intros Ha. unfold visitFunc, make_function. apply balanced_seq.
  - case_bool_decide; [|apply balanced_Ok].
    apply balanced_parent_scope. intros scope. apply balanced_pure.
    intros self. by destruct scope.
  - apply balanced_nested; [done|].
    apply (balanced_after
             (fun self => set_module (set_type node _ (module_ self)) self));
      [done|].
    apply balanced_parent_scope. intros scope. apply balanced_pure.
    intros self. apply scopes_declare_function.
Qed.

Lemma balanced_visit_orelse_nested orelse a :
  balanced a -> balanced (visit_orelse_nested orelse a).
Proof.
  intros Ha. destruct orelse; [apply balanced_Ok|].
  by apply balanced_nested_only.
Qed.

Lemma balanced_visitIf node test orelse a b :
  balanced a -> balanced b -> balanced (visitIf node test orelse a b).
Proof.
  intros Ha Hb. unfold visitIf. destruct (is_TYPE_CHECKING test).
  { apply balanced_seq; [done|]. by apply balanced_visit_orelse_nested. }
  destruct (sys_hexversion_check node) as [[]|].
  - apply (balanced_after
             (fun self => set_module
                (mark_known_boolean_test test true (module_ self)) self));
      done.
  - apply (balanced_after
             (fun self => set_module
                (mark_known_boolean_test test false (module_ self)) self));
      done.
  - apply balanced_seq; [by apply balanced_nested_only|].
    by apply balanced_visit_orelse_nested.
Qed.

Lemma visit_balanced node : balanced (visit node).
Proof.
  induction node using AST_nested_ind.
  - apply balanced_parent_scope. intros scope. apply balanced_pure.
    intros self. apply scopes_declare_variable.
  - apply balanced_parent_scope. intros scope. apply balanced_pure.
    intros self. apply scopes_declare_variables.
  - rewrite visit_ClassDef. apply balanced_visitClassDef.
    by apply balanced_visit_list.
  - rewrite visit_FunctionDef. apply balanced_visitFunc.
    by apply balanced_visit_list.
  - rewrite visit_AsyncFunctionDef. apply balanced_visitFunc.
    by apply balanced_visit_list.
  - apply balanced_pure. apply scopes_imports.
  - intros self self'. cbn. unfold visitImportFrom.
    destruct m as [[|c s]|]; try done. destruct l; [|done].
    intros [= <-]. apply scopes_imports_from.
  - apply balanced_nested_only, balanced_seq; by apply balanced_visit_list.
  - apply balanced_nested_only, balanced_seq; by apply balanced_visit_list.
  - apply balanced_nested_only, balanced_seq; by apply balanced_visit_list.
  - rewrite visit_If. apply balanced_visitIf; by apply balanced_visit_list.
  - apply balanced_nested_only. by apply balanced_visit_list.
  - apply balanced_nested_only. by apply balanced_visit_list.
  - apply balanced_nested_only.
    repeat apply balanced_seq; by apply balanced_visit_list.
  - by apply (balanced_visit_list body).
  - apply balanced_Ok.
  - apply balanced_Ok.
Qed.

Lemma visit_list_balanced nodes : balanced (visit_list visit nodes).
Proof.
  apply balanced_visit_list, Forall_forall. intros node _.
  apply visit_balanced.
Qed.
End Balance.

(** ** A frame rule for the visitor

    [R] relates the objects before a method to the objects when it is
    left, by return or by exception; [P] is what is known of the scope
    stack.  When the elementary steps of the pass respect [R] under
    [P], so does visiting any node. *)

Definition is_ClassDef (node : AST) : bool :=
  match node with
  | ClassDef _ _ _ _ => true
  | _ => false
  end.

Section Frame.
Context `{TI : TypesInterface} `{MI : !ModuleInterface}.

Variable P : list Scope -> Prop.
Variable R : DeclarationVisitor -> DeclarationVisitor -> Prop.

Hypothesis R_refl : forall self, R self self.
Hypothesis R_trans :
  forall s1 s2 s3, R s1 s2 -> R s2 s3 -> R s1 s3.
Hypothesis R_set_scopes : forall self s, R self (set_scopes s self).
Hypothesis P_NestedScope : forall s, P s -> P (s ++ [NestedScope]).
Hypothesis P_Function : forall s func, P s -> P (s ++ [ScFunction func]).
Hypothesis P_Class : forall s top klass,
  P s -> last s = Some top -> is_ModuleTable top = true ->
  klass <> dynamic -> P (s ++ [ScClass klass]).
Hypothesis R_declare : forall self top name d,
  P (scopes self) -> last (scopes self) = Some top ->
  R self (declare top name d self).
Hypothesis R_syntax_error : forall self msg node,
  R self (syntax_error msg node self).
Hypothesis R_class_type : forall self top node klass,
  P (scopes self) -> last (scopes self) = Some top ->
  is_ClassDef node = true ->
  R self
    (set_module
       (set_type node
          (TClass (exact_type
                     (if is_ModuleTable top then klass else dynamic)))
          (module_ self)) self).
Hypothesis R_function_type : forall self node t,
  is_ClassDef node = false ->
  R self (set_module (set_type node t (module_ self)) self).
Hypothesis R_has_init_subclass : forall self klass,
  P (scopes self) -> last (scopes self) = Some (ScClass klass) ->
  R self (set_has_init_subclass (klass :: has_init_subclass self) self).
Hypothesis R_declare_import : forall self name source d,
  R self (set_module (declare_import name source d (module_ self)) self).
Hypothesis R_mark : forall self test value,
  R self
    (set_module (mark_known_boolean_test test value (module_ self)) self).

(** [S] is [P], possibly with the top of the stack known. *)
Definition respects (S : list Scope -> Prop) (a : action) : Prop :=
  forall self, S (scopes self) -> R self (final (a self)).

Lemma respects_Ok S : respects S Ok.
Proof. intros self _. apply R_refl. Qed.

Lemma respects_pure S (f : DeclarationVisitor -> DeclarationVisitor) :
  (forall self, S (scopes self) -> R self (f self)) ->
  respects S (fun self => Ok (f self)).
Proof. intros Hf self HS. by apply Hf. Qed.

Lemma respects_seq S a b :
  balanced a -> respects S a -> respects S b -> respects S (a >> b).
Proof.
  intros Hbal Ha Hb self HS. unfold and_then.
  specialize (Ha self HS).
  destruct (a self) as [self1|e self1] eqn:E; cbn [bind final] in *; [|done].
  apply R_trans with self1; [done|]. apply Hb.
  by rewrite (Hbal _ _ E).
Qed.

Lemma respects_after S (f : DeclarationVisitor -> DeclarationVisitor) a :
  (forall self, S (scopes self) -> R self (f self)) ->
  (forall self, scopes (f self) = scopes self) ->
  respects S a -> respects S (fun self => a (f self)).
Proof.
  intros Hf Hsc Ha self HS. apply R_trans with (f self); [by apply Hf|].
  apply Ha. by rewrite Hsc.
Qed.

Lemma respects_parent_scope S k :
  (forall top, respects (fun s => S s /\ last s = Some top) (k top)) ->
  respects S (parent_scope k).
Proof.
  intros Hk self HS. unfold parent_scope.
  destruct (last (scopes self)) as [top|] eqn:E; [by apply Hk|].
  apply R_refl.
Qed.

Lemma respects_nested S S' scope a k :
  (forall s, S s -> S' (s ++ [scope])) ->
  balanced a -> respects S' a -> respects S k ->
  respects S (enter_scope scope >> a >> exit_scope >> k).
Proof.
  intros Hpush Hbal Ha Hk self HS. unfold and_then, enter_scope.
  cbn [bind].
  set (self0 := set_scopes (scopes self ++ [scope]) self).
  assert (R self self0) as H0 by apply R_set_scopes.
  assert (R self0 (final (a self0))) as H1.
  { apply Ha. cbn. by apply Hpush. }
  destruct (a self0) as [self1|e self1] eqn:E; cbn [bind final] in *;
    [|by eapply R_trans].
  apply Hbal in E. cbn in E. rewrite (exit_scope_snoc _ _ _ E).
  cbn [bind].
  apply R_trans with self0; [done|]. apply R_trans with self1; [done|].
  apply R_trans with (set_scopes (scopes self) self1);
    [apply R_set_scopes|].
  by apply Hk.
Qed.

Lemma respects_nested_only S S' scope a :
  (forall s, S s -> S' (s ++ [scope])) ->
  balanced a -> respects S' a ->
  respects S (enter_scope scope >> a >> exit_scope).
Proof.
  intros Hpush Hbal Ha self HS.
  pose proof (respects_nested S S' scope a Ok Hpush Hbal Ha
                (respects_Ok S) self HS) as H.
  unfold and_then, enter_scope in *. cbn [bind] in *.
  destruct (a _) as [self1|e self1]; cbn [bind] in *; [|done].
  by destruct (exit_scope self1).
Qed.

Lemma respects_visit_list nodes :
  Forall (fun node => respects P (visit node)) nodes ->
  respects P (visit_list visit nodes).
Proof.
  induction 1 as [|node rest Hnode _ IH]; [apply respects_Ok|].
  rewrite visit_list_cons. apply respects_seq; [|done..].
  apply visit_balanced.
Qed.

Lemma R_check_subtypes node first klasses self :
  R self (check_subtypes node first klasses self).
Proof.
  revert self. induction klasses as [|k ks IH]; intros self; [done|].
  cbn [check_subtypes]. case_decide; [apply IH|].
  eapply R_trans; [apply R_syntax_error|apply IH].
Qed.

Lemma R_check_bases node bases klass self :
  R self (check_bases node bases klass self).2.
Proof.
  revert self. induction bases as [|b bs IH]; intros self; [done|].
  cbn [check_bases]. repeat case_decide; try done.
  destruct (is_final b); [|apply IH].
  eapply R_trans; [apply R_syntax_error|apply IH].
Qed.

Lemma R_declare_class self top name klass :
  P (scopes self) -> last (scopes self) = Some top ->
  R self (declare_class top name klass self).
Proof. intros HP Htop. destruct top; try done; by apply R_declare. Qed.

Lemma R_declare_function self top func :
  P (scopes self) -> last (scopes self) = Some top ->
  R self (declare_function top func self).
Proof. intros HP Htop. destruct top; try done; by apply R_declare. Qed.

Lemma R_declare_variable self top target annotation :
  P (scopes self) -> last (scopes self) = Some top ->
  R self (declare_variable top target annotation self).
Proof.
  intros HP Htop. destruct top, target; try done; by apply R_declare.
Qed.

Lemma R_declare_names self top targets :
  P (scopes self) -> last (scopes self) = Some top ->
  R self
    (fold_left
       (fun s target =>
          match target with
          | Name id => declare top id (DVariable None) s
          | _ => s
          end) targets self).
Proof.
  revert self. induction targets as [|t ts IH]; intros self HP Htop;
    [done|].
  cbn [fold_left]. destruct t; try by apply IH.
  eapply R_trans; [by apply R_declare|].
  apply IH; by rewrite scopes_declare.
Qed.

Lemma R_declare_variables self top targets :
  P (scopes self) -> last (scopes self) = Some top ->
  R self (declare_variables top targets self).
Proof.
  intros HP Htop. destruct top; try done; by apply R_declare_names.
Qed.

Lemma R_imports names self :
  R self (fold_left (fun s name => import_name name s) names self).
Proof.
  revert self. induction names as [|n ns IH]; intros self; [done|].
  cbn [fold_left]. eapply R_trans; [|apply IH].
  unfold import_name. destruct (alias_asname n); apply R_declare_import.
Qed.

Lemma R_imports_from mod_name names self :
  R self (fold_left (fun s name => import_from_name mod_name name s)
                    names self).
Proof.
  revert self. induction names as [|n ns IH]; intros self; [done|].
  cbn [fold_left]. eapply R_trans; [|apply IH]. apply R_declare_import.
Qed.

Lemma visitClassDef_steps node name bases decorator_list a self first rest :
  is_ClassDef node = true -> balanced a -> respects P a ->
  P (scopes self) ->
  make_subclasses self name (resolve_bases self bases) = first :: rest ->
  let self1 := check_subtypes node first (first :: rest) self in
  let self2 :=
    (check_bases node (resolve_bases self bases) first self1).2 in
  R self self1 /\ R self1 self2 /\
  R self2 (final (visitClassDef node name bases decorator_list a self)).
Proof.
  intros Hnode Hbal Ha HP Hsub self1 self2.
  split; [apply R_check_subtypes|]. split; [apply R_check_bases|].
  unfold visitClassDef. rewrite Hsub. fold self1.
  assert (scopes self2 = scopes self) as Hsc.
  { unfold self2. rewrite scopes_check_bases. apply scopes_check_subtypes. }
  unfold self2 in *.
  destruct (check_bases _ _ _ self1) as [klass self2'] eqn:E2.
  cbn [snd] in *. clear self2.
  rewrite <- Hsc in HP. revert HP. generalize self2'.
  apply respects_parent_scope. intros top.
  set (K := if is_ModuleTable top then klass else dynamic).
  apply respects_nested with (S' := P); [|done..|].
  - intros s [HPs Htop]. case_decide; [by apply P_NestedScope|].
    apply P_Class with top; try done.
    subst K. by destruct (is_ModuleTable top).
  - apply respects_pure. intros s [HPs Htop].
    eapply R_trans; [by apply R_declare_class|].
    assert (apply_decorators (module_ s) (rev decorator_list) K =
            if is_ModuleTable top
            then apply_decorators (module_ s) (rev decorator_list) klass
            else dynamic) as ->.
    { subst K. destruct (is_ModuleTable top); [done|].
      apply apply_decorators_dynamic. }
    apply R_class_type; [|by rewrite scopes_declare_class|done].
    by rewrite scopes_declare_class.
Qed.

Lemma respects_visitClassDef node name bases decorator_list a :
  is_ClassDef node = true -> balanced a -> respects P a ->
  respects P (visitClassDef node name bases decorator_list a).
Proof.
  intros Hnode Hbal Ha self HP.
  destruct (make_subclasses self name (resolve_bases self bases))
    as [|first rest] eqn:Hsub.
  { unfold visitClassDef. rewrite Hsub. apply R_refl. }
  destruct (visitClassDef_steps node name bases decorator_list a self
              first rest Hnode Hbal Ha HP Hsub) as (H1 & H2 & H3).
  eauto.
Qed.

Lemma respects_visitFunc_body S' node is_async name returns decorator_list
    a :
  is_ClassDef node = false ->
  (forall s func, P s -> S' (s ++ [ScFunction func])) ->
  balanced a -> respects S' a ->
  respects P (visitFunc node is_async name returns decorator_list a).
Proof.
  intros Hnode Hpush Hbal Ha. unfold visitFunc, make_function.
  apply respects_seq.
  - case_bool_decide; [|apply balanced_Ok].
    apply balanced_parent_scope. intros scope. apply balanced_pure.
    intros self. by destruct scope.
  - case_bool_decide; [|apply respects_Ok].
    apply respects_parent_scope. intros top. apply respects_pure.
    intros self [HP Htop]. destruct top; try done.
    by apply R_has_init_subclass.
  - apply respects_nested with (S' := S'); [|done..|].
    { intros s HP. by apply Hpush. }
    apply (respects_after P
             (fun self => set_module (set_type node _ (module_ self)) self)).
    + intros self _. by apply R_function_type.
    + done.
    + apply respects_parent_scope. intros top. apply respects_pure.
      intros self [HP Htop]. by apply R_declare_function.
Qed.

Lemma respects_visitFunc node is_async name returns decorator_list a :
  is_ClassDef node = false -> balanced a -> respects P a ->
  respects P (visitFunc node is_async name returns decorator_list a).
Proof.
  intros Hnode Hbal Ha.
  apply respects_visitFunc_body with (S' := P); try done.
Qed.

Lemma respects_visit_orelse_nested orelse a :
  balanced a -> respects P a ->
  respects P (visit_orelse_nested orelse a).
Proof.
  intros Hbal Ha. destruct orelse; [apply respects_Ok|].
  by apply respects_nested_only with (S' := P).
Qed.

Lemma respects_visitIf node test orelse a b :
  balanced a -> balanced b -> respects P a -> respects P b ->
  respects P (visitIf node test orelse a b).
Proof.
  intros Hbala Hbalb Ha Hb. unfold visitIf.
  destruct (is_TYPE_CHECKING test).
  { apply respects_seq; [done..|].
    by apply respects_visit_orelse_nested. }
  destruct (sys_hexversion_check node) as [[]|].
  - apply (respects_after P
             (fun self => set_module
                (mark_known_boolean_test test true (module_ self)) self));
      [|done..].
    intros self _. apply R_mark.
  - apply (respects_after P
             (fun self => set_module
                (mark_known_boolean_test test false (module_ self)) self));
      [|done..].
    intros self _. apply R_mark.
  - apply respects_seq.
    + by apply balanced_nested_only.
    + by apply respects_nested_only with (S' := P).
    + by apply respects_visit_orelse_nested.
Qed.

Lemma respects_loop a :
  balanced a -> respects P a ->
  respects P (enter_scope NestedScope >> a >> exit_scope).
Proof. intros. by apply respects_nested_only with (S' := P). Qed.

Theorem visit_respects node : respects P (visit node).
Proof.
  induction node using AST_nested_ind.
  - apply respects_parent_scope. intros top. apply respects_pure.
    intros self [HP Htop]. by apply R_declare_variable.
  - apply respects_parent_scope. intros top. apply respects_pure.
    intros self [HP Htop]. by apply R_declare_variables.
  - rewrite visit_ClassDef. apply respects_visitClassDef; [done|..].
    + apply visit_list_balanced.
    + by apply respects_visit_list.
  - rewrite visit_FunctionDef. apply respects_visitFunc; [done|..].
    + apply visit_list_balanced.
    + by apply respects_visit_list.
  - rewrite visit_AsyncFunctionDef. apply respects_visitFunc; [done|..].
    + apply visit_list_balanced.
    + by apply respects_visit_list.
  - apply respects_pure. intros self _. apply R_imports.
  - intros self _. cbn. unfold visitImportFrom.
    destruct m as [[|c s]|]; try apply R_refl.
    destruct l; [|apply R_refl]. apply R_imports_from.
  - apply respects_loop.
    + apply balanced_seq; apply visit_list_balanced.
    + apply respects_seq; [apply visit_list_balanced|..];
        by apply respects_visit_list.
  - apply respects_loop.
    + apply balanced_seq; apply visit_list_balanced.
    + apply respects_seq; [apply visit_list_balanced|..];
        by apply respects_visit_list.
  - apply respects_loop.
    + apply balanced_seq; apply visit_list_balanced.
    + apply respects_seq; [apply visit_list_balanced|..];
        by apply respects_visit_list.
  - rewrite visit_If.
    apply respects_visitIf;
      try apply visit_list_balanced; by apply respects_visit_list.
  - apply respects_loop; [apply visit_list_balanced|].
    by apply respects_visit_list.
  - apply respects_loop; [apply visit_list_balanced|].
    by apply respects_visit_list.
  - apply respects_loop.
    + repeat apply balanced_seq; apply visit_list_balanced.
    + repeat (apply respects_seq; [apply visit_list_balanced|..]);
        by apply respects_visit_list.
  - by apply (respects_visit_list body).
  - apply respects_Ok.
  - apply respects_Ok.
Qed.

Lemma visit_list_respects nodes : respects P (visit_list visit nodes).
Proof.
  apply respects_visit_list, Forall_forall. intros node _.
  apply visit_respects.
Qed.
End Frame.

(** ** Three instances of the frame rule *)

Section Invariants.
Context `{TI : TypesInterface} `{MI : !ModuleInterface}.

(** *** Reports are only added *)

Definition sink_grows (self self' : DeclarationVisitor) : Prop :=
  exists new, error_sink self' = error_sink self ++ new.

Lemma sink_grows_same self self' :
  error_sink self' = error_sink self -> sink_grows self self'.
Proof. intros E. exists []. by rewrite app_nil_r. Qed.

Lemma sink_grows_trans s1 s2 s3 :
  sink_grows s1 s2 -> sink_grows s2 s3 -> sink_grows s1 s3.
Proof.
  intros [n1 E1] [n2 E2]. exists (n1 ++ n2).
  by rewrite E2, E1, app_assoc.
Qed.

Lemma sink_grows_In self self' report :
  sink_grows self self' -> In report (error_sink self) ->
  In report (error_sink self').
Proof. intros [new ->] Hin. apply in_or_app. by left. Qed.

Lemma visit_sink_grows node self :
  sink_grows self (final (visit node self)).
Proof.
  apply (visit_respects (fun _ => True) sink_grows); try done.
  - intros s. by apply sink_grows_same.
  - apply sink_grows_trans.
  - intros s sc. by apply sink_grows_same.
  - intros s top name d _ _. apply sink_grows_same. by destruct top.
  - intros s msg n. by exists [(filename s, n, msg)].
  - intros s top n klass _ _ _. by apply sink_grows_same.
  - intros s n t _. by apply sink_grows_same.
  - intros s klass _ _. by apply sink_grows_same.
  - intros s name source d. by apply sink_grows_same.
  - intros s test value. by apply sink_grows_same.
Qed.

Lemma visit_list_sink_grows nodes self :
  sink_grows self (final (visit_list visit nodes self)).
Proof.
  apply (visit_list_respects (fun _ => True) sink_grows); try done.
  - intros s. by apply sink_grows_same.
  - apply sink_grows_trans.
  - intros s sc. by apply sink_grows_same.
  - intros s top name d _ _. apply sink_grows_same. by destruct top.
  - intros s msg n. by exists [(filename s, n, msg)].
  - intros s top n klass _ _ _. by apply sink_grows_same.
  - intros s n t _. by apply sink_grows_same.
  - intros s klass _ _. by apply sink_grows_same.
  - intros s name source d. by apply sink_grows_same.
  - intros s test value. by apply sink_grows_same.
Qed.

(** *** Below a scope that is not the module, classes are dynamic *)

Definition not_in_module (s : list Scope) : Prop :=
  last s <> Some ScModuleTable.

(** Every type attached to a class definition is the exact type of
    the dynamic class. *)
Definition classes_dynamic (entries : list (AST * NodeType)) : Prop :=
  forall node t, In (node, t) entries -> is_ClassDef node = true ->
                 t = TClass (exact_type dynamic).

Definition adds_dynamic_classes (self self' : DeclarationVisitor) : Prop :=
  exists new, types (module_ self') = new ++ types (module_ self) /\
              classes_dynamic new.

Lemma adds_dynamic_classes_same self self' :
  types (module_ self') = types (module_ self) ->
  adds_dynamic_classes self self'.
Proof. intros E. exists []. split; [done|]. by intros ?? []. Qed.

Lemma adds_dynamic_classes_trans s1 s2 s3 :
  adds_dynamic_classes s1 s2 -> adds_dynamic_classes s2 s3 ->
  adds_dynamic_classes s1 s3.
Proof.
  intros (n1 & E1 & H1) (n2 & E2 & H2). exists (n2 ++ n1). split.
  - by rewrite E2, E1, app_assoc.
  - intros node t [Hin|Hin]%in_app_or; eauto.
Qed.

Lemma not_in_module_push s scope :
  is_ModuleTable scope = false -> not_in_module (s ++ [scope]).
Proof.
  intros Hsc. unfold not_in_module. rewrite last_snoc.
  intros [= E]. by rewrite E in Hsc.
Qed.

Lemma not_in_module_top s top :
  not_in_module s -> last s = Some top -> is_ModuleTable top = false.
Proof. intros Hs Htop. by destruct top. Qed.

Lemma visit_list_adds_dynamic_classes nodes self :
  not_in_module (scopes self) ->
  adds_dynamic_classes self (final (visit_list visit nodes self)).
Proof.
  apply (visit_list_respects not_in_module adds_dynamic_classes).
  - intros s. by apply adds_dynamic_classes_same.
  - apply adds_dynamic_classes_trans.
  - intros s sc. by apply adds_dynamic_classes_same.
  - intros s _. by apply not_in_module_push.
  - intros s func _. by apply not_in_module_push.
  - intros s top klass _ _ _ _. by apply not_in_module_push.
  - intros s top name d HP Htop. apply adds_dynamic_classes_same.
    pose proof (not_in_module_top _ _ HP Htop). by destruct top.
  - intros s msg n. by apply adds_dynamic_classes_same.
  - intros s top n klass HP Htop Hn.
    rewrite (not_in_module_top _ _ HP Htop).
    exists [(n, TClass (exact_type dynamic))]. split; [done|].
    intros n' t [[= <- <-]|[]] _. done.
  - intros s n t Hn. exists [(n, t)]. split; [done|].
    intros n' t' [[= <- <-]|[]] Hn'. congruence.
  - intros s klass _ _. by apply adds_dynamic_classes_same.
  - intros s name source d. by apply adds_dynamic_classes_same.
  - intros s test value. by apply adds_dynamic_classes_same.
Qed.

(** *** Below a nested or function scope, nothing is declared *)

Definition is_opaque (scope : Scope) : bool :=
  match scope with
  | NestedScope | ScFunction _ => true
  | _ => false
  end.

Definition in_opaque (s : list Scope) : Prop :=
  exists top, last s = Some top /\ is_opaque top = true.

(** The only names whose declaration differs are bound to imports. *)
Definition only_imports_added (m m' : gmap string decl) : Prop :=
  forall name : string,
    m' !! name = m !! name \/
    exists source d, m' !! name = Some (DImport source d).

Definition declares_only_imports (self self' : DeclarationVisitor)
    : Prop :=
  members self' = members self /\
  has_init_subclass self' = has_init_subclass self /\
  only_imports_added (children (module_ self)) (children (module_ self')).

Lemma declares_only_imports_same self self' :
  members self' = members self ->
  has_init_subclass self' = has_init_subclass self ->
  children (module_ self') = children (module_ self) ->
  declares_only_imports self self'.
Proof. intros E1 E2 E3. repeat split; try done. intros n. left. by rewrite E3. Qed.

Lemma declares_only_imports_trans s1 s2 s3 :
  declares_only_imports s1 s2 -> declares_only_imports s2 s3 ->
  declares_only_imports s1 s3.
Proof.
  intros (M1 & I1 & C1) (M2 & I2 & C2). repeat split; try congruence.
  intros n. destruct (C2 n) as [E|?]; [|by right].
  rewrite E. apply C1.
Qed.

Lemma in_opaque_push s scope :
  is_opaque scope = true -> in_opaque (s ++ [scope]).
Proof. intros Hsc. exists scope. by rewrite last_snoc. Qed.

Lemma in_opaque_top s top :
  in_opaque s -> last s = Some top -> is_opaque top = true.
Proof. intros (top' & E & Hop) Htop. congruence. Qed.

Lemma visit_list_declares_only_imports nodes self :
  in_opaque (scopes self) ->
  declares_only_imports self (final (visit_list visit nodes self)).
Proof.
  apply (visit_list_respects in_opaque declares_only_imports).
  - intros s. by apply declares_only_imports_same.
  - apply declares_only_imports_trans.
  - intros s sc. by apply declares_only_imports_same.
  - intros s _. by apply in_opaque_push.
  - intros s func _. by apply in_opaque_push.
  - intros s top klass HP Htop Hmod _.
    pose proof (in_opaque_top _ _ HP Htop). by destruct top.
  - intros s top name d HP Htop.
    pose proof (in_opaque_top _ _ HP Htop).
    apply declares_only_imports_same; by destruct top.
  - intros s msg n. by apply declares_only_imports_same.
  - intros s top n klass _ _ _. by apply declares_only_imports_same.
  - intros s n t _. by apply declares_only_imports_same.
  - intros s klass HP Htop. by pose proof (in_opaque_top _ _ HP Htop).
  - intros s name source d. repeat split; try done. intros n.
    cbn. destruct (decide (name = n)) as [->|Hne].
    + right. rewrite lookup_insert_eq. eauto.
    + left. by rewrite lookup_insert_ne.
  - intros s test value. by apply declares_only_imports_same.
Qed.
End Invariants.

(** ** When the pass returns

    The only exception the pass raises on its own is the one for
    relative imports; the other, [IndexError], needs an empty scope
    stack. *)

Fixpoint no_relative_import (node : AST) : bool :=
  match node with
  | ImportFrom (Some (String _ _)) _ O => true
  | ImportFrom _ _ _ => false
  | ClassDef _ _ _ body
  | FunctionDef _ _ _ body
  | AsyncFunctionDef _ _ _ body
  | With _ body
  | AsyncWith _ body
  | ExceptHandler _ body => forallb no_relative_import body
  | For _ _ body orelse
  | AsyncFor _ _ body orelse
  | While _ body orelse
  | If _ body orelse =>
      forallb no_relative_import body && forallb no_relative_import orelse
  | Try body handlers orelse finalbody =>
      forallb no_relative_import body &&
      forallb no_relative_import handlers &&
      forallb no_relative_import orelse &&
      forallb no_relative_import finalbody
  | _ => true
  end.

Section Returns.
Context `{TI : TypesInterface} `{MI : !ModuleInterface}.

Definition returns (a : action) : Prop :=
  forall self, scopes self <> [] -> exists self', a self = Ok self'.

Lemma returns_Ok : returns Ok.
Proof. intros self _. by eexists. Qed.

Lemma returns_pure (f : DeclarationVisitor -> DeclarationVisitor) :
  returns (fun self => Ok (f self)).
Proof. intros self _. by eexists. Qed.

Lemma returns_seq a b :
  balanced a -> returns a -> returns b -> returns (a >> b).
Proof.
  intros Hbal Ha Hb self Hne. unfold and_then.
  destruct (Ha self Hne) as [self1 E]. rewrite E. cbn [bind].
  apply Hb. by rewrite (Hbal _ _ E).
Qed.

Lemma returns_after (f : DeclarationVisitor -> DeclarationVisitor) a :
  (forall self, scopes (f self) = scopes self) ->
  returns a -> returns (fun self => a (f self)).
Proof. intros Hf Ha self Hne. apply Ha. by rewrite Hf. Qed.

Lemma returns_parent_scope k :
  (forall scope, returns (k scope)) -> returns (parent_scope k).
Proof.
  intros Hk self Hne. unfold parent_scope.
  destruct (last (scopes self)) eqn:E; [by apply Hk|].
  by apply last_None in E.
Qed.

Lemma returns_nested scope a k :
  balanced a -> returns a -> returns k ->
  returns (enter_scope scope >> a >> exit_scope >> k).
Proof.
  intros Hbal Ha Hk self Hne. unfold and_then, enter_scope. cbn [bind].
  destruct (Ha (set_scopes (scopes self ++ [scope]) self)) as [self1 E].
  { cbn. by destruct (scopes self). }
  rewrite E. cbn [bind]. apply Hbal in E. cbn in E.
  rewrite (exit_scope_snoc _ _ _ E). cbn [bind]. by apply Hk.
Qed.

Lemma returns_nested_only scope a :
  balanced a -> returns a ->
  returns (enter_scope scope >> a >> exit_scope).
Proof.
  intros Hbal Ha self Hne. unfold and_then, enter_scope. cbn [bind].
  destruct (Ha (set_scopes (scopes self ++ [scope]) self)) as [self1 E].
  { cbn. by destruct (scopes self). }
  rewrite E. cbn [bind]. apply Hbal in E. cbn in E.
  rewrite (exit_scope_snoc _ _ _ E). by eexists.
Qed.

Lemma resolve_bases_nonempty self bases : resolve_bases self bases <> [].
Proof. unfold resolve_bases. by destruct (map _ bases). Qed.

Lemma returns_visitClassDef node name bases decorator_list a :
  balanced a -> returns a ->
  returns (visitClassDef node name bases decorator_list a).
Proof.
  intros Hbal Ha self Hne. unfold visitClassDef.
  pose proof (resolve_bases_nonempty self bases) as Hb.
  unfold make_subclasses at 1.
  destruct (resolve_bases self bases) as [|b0 bs] eqn:Eb; [done|].
  cbn [map].
  destruct (check_bases _ _ _ _) as [klass self2] eqn:E2.
  assert (scopes self2 = scopes self) as Hsc.
  { change self2 with (klass, self2).2. rewrite <- E2.
    rewrite scopes_check_bases. apply scopes_check_subtypes. }
  rewrite <- Hsc in Hne. revert Hne. generalize self2.
  apply returns_parent_scope. intros scope.
  apply returns_nested; [done..|].
  apply returns_pure.
Qed.

Lemma returns_visitFunc node is_async name returns_ decorator_list a :
  balanced a -> returns a ->
  returns (visitFunc node is_async name returns_ decorator_list a).
Proof.
  intros Hbal Ha. unfold visitFunc, make_function. apply returns_seq.
  - case_bool_decide; [|apply balanced_Ok].
    apply balanced_parent_scope. intros scope. apply balanced_pure.
    intros self. by destruct scope.
  - case_bool_decide; [|apply returns_Ok].
    apply returns_parent_scope. intros scope self _. by eexists.
  - apply returns_nested; [done..|].
    apply (returns_after
             (fun self => set_module (set_type node _ (module_ self)) self));
      [done|].
    apply returns_parent_scope. intros scope. apply returns_pure.
Qed.

Lemma returns_visitIf node test orelse a b :
  balanced a -> balanced b -> returns a -> returns b ->
  returns (visitIf node test orelse a b).
Proof.
  intros Hbala Hbalb Ha Hb. unfold visitIf, visit_orelse_nested.
  destruct (is_TYPE_CHECKING test).
  { apply returns_seq; [done..|].
    destruct orelse; [apply returns_Ok|by apply returns_nested_only]. }
  destruct (sys_hexversion_check node) as [[]|].
  - by apply (returns_after
                (fun self => set_module
                   (mark_known_boolean_test test true (module_ self))
                   self)).
  - by apply (returns_after
                (fun self => set_module
                   (mark_known_boolean_test test false (module_ self))
                   self)).
  - apply returns_seq.
    + by apply balanced_nested_only.
    + by apply returns_nested_only.
    + destruct orelse; [apply returns_Ok|by apply returns_nested_only].
Qed.

Lemma returns_visit_list nodes :
  Forall (fun node => no_relative_import node = true ->
                      returns (visit node)) nodes ->
  forallb no_relative_import nodes = true ->
  returns (visit_list visit nodes).
Proof.
  induction 1 as [|node rest Hnode _ IH]; [intros _; apply returns_Ok|].
  cbn [forallb]. intros [H1 H2]%andb_true_iff.
  rewrite visit_list_cons. apply returns_seq; auto using visit_balanced.
Qed.

Theorem visit_returns node :
  no_relative_import node = true -> returns (visit node).
Proof.
  induction node using AST_nested_ind; cbn [no_relative_import];
    intros Hok;
    repeat match type of Hok with
           | _ && _ = true =>
               let H := fresh "Hok" in
               apply andb_true_iff in Hok as [Hok H]
           end.
  - apply returns_parent_scope. intros scope. apply returns_pure.
  - apply returns_parent_scope. intros scope. apply returns_pure.
  - rewrite visit_ClassDef.
    apply returns_visitClassDef; [apply visit_list_balanced|].
    by apply returns_visit_list.
  - rewrite visit_FunctionDef.
    apply returns_visitFunc; [apply visit_list_balanced|].
    by apply returns_visit_list.
  - rewrite visit_AsyncFunctionDef.
    apply returns_visitFunc; [apply visit_list_balanced|].
    by apply returns_visit_list.
  - apply returns_pure.
  - intros self _. cbn. unfold visitImportFrom.
    destruct m as [[|c s]|]; try done. destruct l; [|done]. by eexists.
  - apply returns_nested_only.
    + apply balanced_seq; apply visit_list_balanced.
    + apply returns_seq; [apply visit_list_balanced|..];
        by apply returns_visit_list.
  - apply returns_nested_only.
    + apply balanced_seq; apply visit_list_balanced.
    + apply returns_seq; [apply visit_list_balanced|..];
        by apply returns_visit_list.
  - apply returns_nested_only.
    + apply balanced_seq; apply visit_list_balanced.
    + apply returns_seq; [apply visit_list_balanced|..];
        by apply returns_visit_list.
  - rewrite visit_If.
    apply returns_visitIf;
      try apply visit_list_balanced; by apply returns_visit_list.
  - apply returns_nested_only; [apply visit_list_balanced|].
    by apply returns_visit_list.
  - apply returns_nested_only; [apply visit_list_balanced|].
    by apply returns_visit_list.
  - apply returns_nested_only.
    + repeat apply balanced_seq; apply visit_list_balanced.
    + repeat (apply returns_seq; [apply visit_list_balanced|..]);
        by apply returns_visit_list.
  - by apply (returns_visit_list body).
  - apply returns_Ok.
  - apply returns_Ok.
Qed.

Lemma visit_list_returns nodes :
  forallb no_relative_import nodes = true ->
  returns (visit_list visit nodes).
Proof.
  apply returns_visit_list, Forall_forall. intros node _.
  apply visit_returns.
Qed.
End Returns.


(** ** What visiting a class definition leaves *)

Section ClassDefinitions.
Context `{TI : TypesInterface} `{MI : !ModuleInterface}.

(** The class as it is before the decorators: the subclass made by the
    first base, unless a marker base or a parent scope that is not the
    module makes it dynamic. *)
Definition class_of_bases (top : Scope) (bases : list Value)
    (first : Value) : Value :=
  if is_ModuleTable top then
    if existsb is_marker bases then dynamic else first
  else dynamic.

Lemma types_declare_class scope name klass self :
  types (module_ (declare_class scope name klass self)) =
  types (module_ self).
Proof. by destruct scope. Qed.

Lemma visit_ClassDef_Ok name bases decorator_list body self self' :
  visit (ClassDef name bases decorator_list body) self = Ok self' ->
  exists first rest top self_in self_body,
    make_subclasses self name (resolve_bases self bases) = first :: rest /\
    last (scopes self) = Some top /\
    not_in_module (scopes self_in) /\
    visit_list visit body self_in = Ok self_body /\
    let klass :=
      apply_decorators (module_ self_body) (rev decorator_list)
        (class_of_bases top (resolve_bases self bases) first) in
    types (module_ self') =
      (ClassDef name bases decorator_list body, TClass (exact_type klass))
      :: types (module_ self_body) /\
    (top = ScModuleTable ->
     children (module_ self') !! name = Some (DClass (exact_type klass))).
Proof.
  rewrite visit_ClassDef. unfold visitClassDef.
  destruct (make_subclasses _ _ _) as [|first rest]; [done|].
  set (self1 := check_subtypes _ _ _ _).
  pose proof (check_bases_class (ClassDef name bases decorator_list body)
                (resolve_bases self bases) first self1) as Hk.
  pose proof (scopes_check_bases (ClassDef name bases decorator_list body)
                (resolve_bases self bases) first self1) as Hsc.
  destruct (check_bases _ _ _ self1) as [klass self2]. cbn [fst snd] in *.
  unfold self1 in Hsc. rewrite scopes_check_subtypes in Hsc.
  unfold parent_scope. rewrite Hsc.
  destruct (last (scopes self)) as [top|]; [|done].
  unfold and_then, enter_scope. cbn [bind].
  match goal with
  | |- context [visit_list visit body ?s] => set (self_in := s)
  end.
  destruct (visit_list visit body self_in) as [self3|] eqn:Ebody; [|done].
  cbn [bind].
  pose proof (visit_list_balanced _ _ _ Ebody) as Hbal.
  rewrite (exit_scope_snoc _ _ _ Hbal). cbn [bind].
  intros [= <-]. exists first, rest, top, self_in, self3.
  split; [done|]. split; [done|]. split.
  { unfold self_in. cbn [scopes set_scopes]. apply not_in_module_push.
    by case_decide. }
  split; [done|]. subst klass.
  unfold class_of_bases. cbn. rewrite types_declare_class.
  split; [done|]. intros ->. cbn. apply lookup_insert_eq.
Qed.

Lemma visit_Func_Ok node is_async name returns decorator_list body self
    self' :
  visitFunc node is_async name returns decorator_list
            (visit_list visit body) self = Ok self' ->
  exists self_in self_body t,
    not_in_module (scopes self_in) /\
    visit_list visit body self_in = Ok self_body /\
    types (module_ self') = (node, t) :: types (module_ self_body).
Proof.
  unfold visitFunc, make_function, and_then.
  match goal with
  | |- bind ?pre _ = _ -> _ => destruct pre as [self0|]; [|done]
  end.
  cbn [bind]. unfold enter_scope at 1. cbn [bind].
  match goal with
  | |- context [visit_list visit body ?s] => set (self_in := s)
  end.
  destruct (visit_list visit body self_in) as [self3|] eqn:Ebody; [|done].
  cbn [bind].
  pose proof (visit_list_balanced _ _ _ Ebody) as Hbal.
  rewrite (exit_scope_snoc _ _ _ Hbal). cbn [bind].
  unfold parent_scope. cbn [scopes set_scopes set_module].
  destruct (last (scopes self0)) as [top|]; [|done].
  intros [= <-]. eexists self_in, self3, _.
  split; [by apply not_in_module_push|]. split; [done|].
  by destruct top.
Qed.

(** The reports made before the body is visited are in the sink when
    the method is left. *)
Lemma visit_ClassDef_sink name bases decorator_list body self first rest :
  make_subclasses self name (resolve_bases self bases) = first :: rest ->
  let node := ClassDef name bases decorator_list body in
  let self1 := check_subtypes node first (first :: rest) self in
  let self2 :=
    (check_bases node (resolve_bases self bases) first self1).2 in
  sink_grows self1 self2 /\
  sink_grows self2 (final (visit node self)).
Proof.
  intros Hsub node self1 self2.
  apply (visitClassDef_steps (fun _ => True) sink_grows) with
    (node := node) (decorator_list := decorator_list)
    (a := visit_list visit body) in Hsub; try done.
  - by destruct Hsub as (_ & ? & ?).
  - intros s. by apply sink_grows_same.
  - apply sink_grows_trans.
  - intros s sc. by apply sink_grows_same.
  - intros s top name' d _ _. apply sink_grows_same. by destruct top.
  - intros s msg n. by exists [(filename s, n, msg)].
  - intros s top n klass _ _ _. by apply sink_grows_same.
  - apply visit_list_balanced.
  - intros s _. apply visit_list_sink_grows.
Qed.

Lemma check_subtypes_sink_grows node first klasses self :
  sink_grows self (check_subtypes node first klasses self).
Proof.
  apply (R_check_subtypes sink_grows).
  - intros s. by apply sink_grows_same.
  - apply sink_grows_trans.
  - intros s msg n. by exists [(filename s, n, msg)].
Qed.

Lemma check_bases_sink_grows node bases klass self :
  sink_grows self (check_bases node bases klass self).2.
Proof.
  apply (R_check_bases sink_grows).
  - intros s. by apply sink_grows_same.
  - apply sink_grows_trans.
  - intros s msg n. by exists [(filename s, n, msg)].
Qed.

(** One base whose subclass is of another kind than the first one's is
    enough for the report. *)
Lemma check_subtypes_reports node first klasses self cur_type :
  In cur_type klasses -> type_of cur_type <> type_of first ->
  In (filename self, node, "Incompatible subtypes")
     (error_sink (check_subtypes node first klasses self)).
Proof.
  revert self. induction klasses as [|k ks IH]; intros self; [done|].
  cbn [check_subtypes]. intros [->|Hin] Hne.
  - rewrite decide_False by done.
    eapply sink_grows_In; [apply check_subtypes_sink_grows|]. cbn. apply in_or_app. right.
    by left.
  - case_decide.
    + by apply IH.
    + replace (filename self) with
        (filename (syntax_error "Incompatible subtypes" node self))
        by done.
      by apply IH.
Qed.
End ClassDefinitions.

(** ** Final bases, decorators and module paths *)

(** [sub in s] for strings. *)
Fixpoint starts_with (sub s : string) : bool :=
  match sub, s with
  | EmptyString, _ => true
  | String c sub', String c' s' => Ascii.eqb c c' && starts_with sub' s'
  | String _ _, EmptyString => false
  end.

Fixpoint substring_of (sub s : string) : bool :=
  starts_with sub s ||
  match s with
  | EmptyString => false
  | String _ s' => substring_of sub s'
  end.

Lemma starts_with_app sub post : starts_with sub (sub +:+ post) = true.
Proof.
  induction sub as [|c sub IH]; [done|].
  change (String c sub +:+ post) with (String c (sub +:+ post)).
  cbn -[Ascii.eqb]. by rewrite Ascii.eqb_refl, IH.
Qed.

Lemma substring_of_starts sub s :
  starts_with sub s = true -> substring_of sub s = true.
Proof. intros H. destruct s; cbn [substring_of]; by rewrite H. Qed.

Lemma substring_of_app_r sub pre s :
  substring_of sub s = true -> substring_of sub (pre +:+ s) = true.
Proof.
  intros Hs. induction pre as [|c pre IH]; [done|].
  change (String c pre +:+ s) with (String c (pre +:+ s)).
  cbn [substring_of]. rewrite IH. apply orb_true_r.
Qed.

Lemma split_top top rest :
  occurs dot top = false ->
  split dot (top +:+ String dot rest) = top :: split dot rest.
Proof.
  induction top as [|c top IH].
  - intros _. change ("" +:+ String dot rest) with (String dot rest).
    cbn [split]. by rewrite Ascii.eqb_refl.
  - cbn [occurs]. intros [Hc Htop]%orb_false_iff.
    change (String c top +:+ String dot rest)
      with (String c (top +:+ String dot rest)).
    cbn [split]. by rewrite Hc, (IH Htop).
Qed.

Lemma top_level_module_dotted top rest :
  occurs dot top = false ->
  top_level_module (top +:+ String dot rest) = top.
Proof. intros H. unfold top_level_module. by rewrite split_top. Qed.

Section BasesAndDecorators.
Context `{TI : TypesInterface} `{MI : !ModuleInterface}.

Lemma is_marker_false base :
  is_marker base = false ->
  base <> named_tuple /\ base <> protocol /\ base <> typed_dict.
Proof.
  unfold is_marker.
  intros [[H1 H2]%orb_false_iff H3]%orb_false_iff.
  by apply bool_decide_eq_false in H1, H2, H3.
Qed.

Lemma check_bases_unmarked node base rest klass self :
  is_marker base = false ->
  check_bases node (base :: rest) klass self =
  check_bases node rest klass
    (if is_final base
     then syntax_error (final_class_message klass base) node self
     else self).
Proof.
  intros (H1 & H2 & H3)%is_marker_false. cbn [check_bases].
  rewrite !decide_False by done. by destruct (is_final base).
Qed.

Lemma check_bases_reports node pre base post klass self :
  existsb is_marker pre = false -> is_marker base = false ->
  is_final base = true ->
  In (filename self, node, final_class_message klass base)
     (error_sink (check_bases node (pre ++ base :: post) klass self).2).
Proof.
  revert self. induction pre as [|b pre IH]; intros self Hpre Hb Hfinal.
  - cbn [app]. rewrite check_bases_unmarked, Hfinal by done.
    eapply sink_grows_In; [apply check_bases_sink_grows|].
    cbn. apply in_or_app. right. by left.
  - cbn [existsb] in Hpre. apply orb_false_iff in Hpre as [Hb' Hpre].
    cbn [app]. rewrite check_bases_unmarked by done.
    destruct (is_final b); [|by apply IH].
    replace (filename self) with
      (filename (syntax_error (final_class_message klass b) node self))
      by done.
    by apply IH.
Qed.

Lemma final_class_message_contains klass base :
  substring_of "cannot subclass a Final class"
               (final_class_message klass base) = true.
Proof.
  unfold final_class_message.
  do 2 apply substring_of_app_r.
  change ("` cannot subclass a Final class: `" +:+ instance_name base +:+
          "`")
    with (String "`" (String " "
            ("cannot subclass a Final class" +:+
             (": `" +:+ instance_name base +:+ "`")))).
  cbn [substring_of].
  rewrite (substring_of_starts _ _ (starts_with_app _ _)).
  by rewrite !orb_true_r.
Qed.

(** The decorators as the spec words them: in reverse syntactic order,
    each one rewriting the current type, with the dynamic class
    absorbing. *)
Definition decorate_step (m : ModuleTable) (d : expr) (current : Value)
    : Value :=
  if decide (current = dynamic) then dynamic
  else resolve_decorate_class (default dynamic (resolve_decorator m d))
                              current d.

Definition decorate_spec (m : ModuleTable) (decorator_list : list expr)
    (raw : Value) : Value :=
  fold_right (decorate_step m) raw decorator_list.

Lemma apply_decorators_app m ds1 ds2 klass :
  apply_decorators m (ds1 ++ ds2) klass =
  apply_decorators m ds2 (apply_decorators m ds1 klass).
Proof.
  revert klass. induction ds1 as [|d ds1 IH]; intros klass; [done|].
  cbn [app apply_decorators]. case_decide; [|apply IH].
  subst. by rewrite apply_decorators_dynamic.
Qed.

Lemma apply_decorators_refines m decorator_list raw :
  apply_decorators m (rev decorator_list) raw =
  decorate_spec m decorator_list raw.
Proof.
  unfold decorate_spec.
  induction decorator_list as [|d ds IH]; [done|].
  cbn [rev fold_right]. rewrite apply_decorators_app, IH.
  unfold decorate_step. cbn [apply_decorators].
  by case_decide.
Qed.
End BasesAndDecorators.

(** ** A small type environment

    An instance of the two interfaces, to run the pass on: plain classes
    that may be final, tuple-like classes, which make subclasses of a
    kind of their own, the three marker bases, and the [final]
    decorator. *)

Module Example.

Inductive value : Type :=
| Dynamic
| Object
| NamedTupleBase
| ProtocolBase
| TypedDictBase
| FinalDecorator
| Plain (name : string) (final : bool)
| TupleLike (name : string).

Inductive kind : Type := KClass | KDynamic | KTuple | KDecorator.

#[export] Instance value_eq_dec : EqDecision value.
Proof. solve_decision. Defined.

#[export] Instance kind_eq_dec : EqDecision kind.
Proof. solve_decision. Defined.

Definition value_kind (v : value) : kind :=
  match v with
  | Dynamic => KDynamic
  | TupleLike _ => KTuple
  | FinalDecorator => KDecorator
  | _ => KClass
  end.

Definition value_make_subclass (base : value) (name : TypeName)
    (_ : list value) : value :=
  match base with
  | Dynamic => Dynamic
  | TupleLike _ => TupleLike (tn_name name)
  | _ => Plain (tn_name name) false
  end.

Definition value_is_final (v : value) : bool :=
  match v with
  | Plain _ final => final
  | _ => false
  end.

Definition value_name (v : value) : string :=
  match v with
  | Plain name _ | TupleLike name => name
  | Dynamic => "dynamic"
  | Object => "object"
  | NamedTupleBase => "NamedTuple"
  | ProtocolBase => "Protocol"
  | TypedDictBase => "TypedDict"
  | FinalDecorator => "final"
  end.

Definition value_decorate (decorator klass : value) (_ : expr) : value :=
  match decorator with
  | FinalDecorator =>
      match klass with
      | Plain name _ => Plain name true
      | _ => klass
      end
  | _ => Dynamic
  end.

#[export] Instance example_types : TypesInterface := {
  Value := value;
  Kind := kind;
  type_of := value_kind;
  dynamic := Dynamic;
  object := Object;
  named_tuple := NamedTupleBase;
  protocol := ProtocolBase;
  typed_dict := TypedDictBase;
  make_subclass := value_make_subclass;
  is_final := value_is_final;
  instance_name := value_name;
  exact_type := fun v => v;
  resolve_decorate_class := value_decorate
}.

Definition builtin (id : string) : option value :=
  if decide (id = "object") then Some Object
  else if decide (id = "NamedTuple") then Some NamedTupleBase
  else if decide (id = "Protocol") then Some ProtocolBase
  else if decide (id = "TypedDict") then Some TypedDictBase
  else if decide (id = "tuple") then Some (TupleLike "tuple")
  else None.

Definition lookup_type (m : ModuleTable) (e : expr) : option value :=
  match e with
  | Name id =>
      match children m !! id with
      | Some (DClass klass) => Some klass
      | Some _ => None
      | None => builtin id
      end
  | _ => None
  end.

Definition lookup_decorator (_ : ModuleTable) (e : expr) : option value :=
  match e with
  | Name id => if decide (id = "final") then Some FinalDecorator else None
  | _ => None
  end.

#[export] Instance example_module : ModuleInterface := {
  resolve_type := lookup_type;
  resolve_decorator := lookup_decorator;
  sys_hexversion_check := fun _ => None
}.

(** A fresh visitor for the module [m] of the file [m.py]. *)
Definition fresh : DeclarationVisitor :=
  DeclarationVisitor_init "m" "m.py" 0 [].

(** [@final class Final1: pass] *)
Definition Final1 : AST := ClassDef "Final1" [] [Name "final"] [Pass].

(** [class A: pass] *)
Definition A : AST := ClassDef "A" [] [] [Pass].

(** The visitor after [Final1], and after [A]. *)
Definition with_Final1 : DeclarationVisitor := final (visit Final1 fresh).
Definition with_A : DeclarationVisitor := final (visit A fresh).

(** [class C(A, tuple): pass] *)
Definition C_A_tuple : AST := ClassDef "C" [Name "A"; Name "tuple"] [] [Pass].

(** [class Bad(Final1): pass] *)
Definition Bad : AST := ClassDef "Bad" [Name "Final1"] [] [Pass].

(** [class C(NamedTuple, Final1): pass] *)
Definition C_NamedTuple_Final1 : AST :=
  ClassDef "C" [Name "NamedTuple"; Name "Final1"] [] [Pass].

(** [import foo] *)
Definition import_foo : AST := Import [mk_alias "foo" None].

(** The binding [import foo] makes. *)
Definition foo_binding : decl :=
  DImport None (mk_DeferredImport "foo" 0 None (Some "foo")).

End Example.

(** ** Classes below a scope that is not the module *)

Section NestedClasses.
Context `{TI : TypesInterface} `{MI : !ModuleInterface}.

Lemma adds_dynamic_classes_In self self' entry :
  adds_dynamic_classes self self' ->
  In entry (types (module_ self)) -> In entry (types (module_ self')).
Proof. intros (new & -> & _) Hin. apply in_or_app. by right. Qed.

(** A class definition that is a statement of a list visited below a
    scope that is not the module has the dynamic class attached. *)
Lemma direct_classes_dynamic body self self' c :
  not_in_module (scopes self) ->
  visit_list visit body self = Ok self' ->
  In c body -> is_ClassDef c = true ->
  In (c, TClass (exact_type dynamic)) (types (module_ self')).
Proof.
  revert self. induction body as [|node rest IH]; intros self Hsc; [done|].
  rewrite visit_list_cons. unfold and_then.
  destruct (visit node self) as [self1|] eqn:E1; [|done]. cbn [bind].
  intros Erest Hin Hc.
  pose proof (visit_balanced _ _ _ E1) as Hbal.
  assert (not_in_module (scopes self1)) as Hsc1 by (by rewrite Hbal).
  destruct Hin as [->|Hin]; [|by eapply IH].
  pose proof (visit_list_adds_dynamic_classes rest self1 Hsc1) as Hrest.
  rewrite Erest in Hrest. cbn [final] in Hrest.
  eapply adds_dynamic_classes_In; [done|].
  destruct c; try done.
  apply visit_ClassDef_Ok in E1
    as (first & tl & top & s_in & s_body & _ & Htop & _ & _ & Hty & _).
  cbn zeta in Hty. rewrite Hty.
  unfold class_of_bases.
  rewrite (not_in_module_top _ _ Hsc Htop), apply_decorators_dynamic.
  by left.
Qed.
End NestedClasses.

(** ** The properties of the specification *)

Section SpecProperties.
Context `{TI : TypesInterface} `{MI : !ModuleInterface}.

Lemma filename_check_subtypes node first klasses self :
  filename (check_subtypes node first klasses self) = filename self.
Proof.
  revert self. induction klasses as [|k ks IH]; intros self; [done|].
  cbn [check_subtypes]. rewrite IH. by case_decide.
Qed.

(** C7, amended.  A final base that is met before any marker base
    (named tuple, protocol, typed dict) is reported at the class
    definition with a message that contains "cannot subclass a Final
    class".  The report does not make the class dynamic: the class the
    loop over the bases leaves is dynamic exactly when a marker base is
    met, and the type attached to the definition follows from it as for
    any other class. *)
Theorem C7_final_base_reported name bases decorator_list body self pre base
    post :
  let node := ClassDef name bases decorator_list body in
  resolve_bases self bases = pre ++ base :: post ->
  existsb is_marker pre = false -> is_marker base = false ->
  is_final base = true ->
  (exists first rest,
     make_subclasses self name (resolve_bases self bases) = first :: rest /\
     In (filename self, node, final_class_message first base)
        (error_sink (final (visit node self))) /\
     substring_of "cannot subclass a Final class"
                  (final_class_message first base) = true) /\
  (forall klass s,
     (check_bases node (resolve_bases self bases) klass s).1 =
     if existsb is_marker (resolve_bases self bases) then dynamic
     else klass) /\
  (forall self', visit node self = Ok self' ->
     exists first rest top self_body,
       make_subclasses self name (resolve_bases self bases) = first :: rest /\
       last (scopes self) = Some top /\
       types (module_ self') =
         (node,
          TClass (exact_type
                    (apply_decorators (module_ self_body)
                       (rev decorator_list)
                       (class_of_bases top (resolve_bases self bases)
                                       first))))
         :: types (module_ self_body)).
Proof.
  intros node Hbases Hpre Hbase Hfinal. split; [|split].
  - destruct (make_subclasses self name (resolve_bases self bases))
      as [|first rest] eqn:Hsub.
    { unfold make_subclasses in Hsub. rewrite Hbases in Hsub.
      by destruct pre. }
    exists first, rest. split; [done|].
    split; [|apply final_class_message_contains].
    destruct (visit_ClassDef_sink name bases decorator_list body self
                first rest Hsub) as [_ H2].
    eapply sink_grows_In; [exact H2|]. rewrite Hbases.
    rewrite <- (filename_check_subtypes node first (first :: rest) self).
    by apply check_bases_reports.
  - intros klass s. apply check_bases_class.
  - intros self' Hok.
    apply visit_ClassDef_Ok in Hok
      as (first & rest & top & s_in & s_body & Hsub & Htop & _ & _ & Hty & _).
    by exists first, rest, top, s_body.
Qed.

Lemma bind_Ok (o : outcome) : bind o Ok = o.
Proof. by destruct o. Qed.

Lemma final_nested_only (a : action) self :
  (forall s, in_opaque (scopes s) -> declares_only_imports s (final (a s))) ->
  declares_only_imports self
    (final ((enter_scope NestedScope >> a >> exit_scope) self)).
Proof.
  intros Ha. unfold and_then, enter_scope. cbn [bind].
  set (self0 := set_scopes (scopes self ++ [NestedScope]) self).
  assert (declares_only_imports self self0) as H0
    by (by apply declares_only_imports_same).
  assert (declares_only_imports self0 (final (a self0))) as H1.
  { apply Ha. by apply in_opaque_push. }
  destruct (a self0) as [self1|e self1]; cbn [bind final] in *;
    [|exact (declares_only_imports_trans _ _ _ H0 H1)].
  apply declares_only_imports_trans with self1;
    [exact (declares_only_imports_trans _ _ _ H0 H1)|].
  unfold exit_scope. destruct (scopes self1); cbn [final];
    by apply declares_only_imports_same.
Qed.

(** C2, amended.  For an [if] whose test is the name [TYPE_CHECKING],
    the body is visited in the enclosing scope, exactly as if its
    statements stood there unconditionally.  An [else] branch is not
    skipped: when present it is visited after the body inside a nested
    scope, where no class, function or variable is declared and only
    imports are bound. *)
Theorem C2_type_checking_guard body orelse self :
  let guard := Name "TYPE_CHECKING" in
  visit (If guard body []) self = visit_list visit body self /\
  visit (If guard body orelse) self =
    bind (visit_list visit body self)
         (match orelse with
          | [] => Ok
          | _ :: _ =>
              enter_scope NestedScope >> visit_list visit orelse >>
              exit_scope
          end) /\
  forall after_body,
    visit_list visit body self = Ok after_body ->
    declares_only_imports after_body
      (final (visit (If guard body orelse) self)).
Proof.
  intros guard. split; [|split].
  - rewrite visit_If. unfold visitIf, visit_orelse_nested, and_then.
    cbn. apply bind_Ok.
  - rewrite visit_If. unfold visitIf, visit_orelse_nested.
    cbn [guard is_TYPE_CHECKING]. rewrite bool_decide_eq_true_2 by done.
    unfold and_then at 1. by destruct orelse.
  - intros after_body Hbody. rewrite visit_If.
    unfold visitIf, visit_orelse_nested.
    cbn [guard is_TYPE_CHECKING]. rewrite bool_decide_eq_true_2 by done.
    unfold and_then at 1. rewrite Hbody. cbn [bind].
    destruct orelse as [|node rest];
      [by apply declares_only_imports_same|].
    apply final_nested_only. intros s Hs.
    by apply visit_list_declares_only_imports.
Qed.

(** C3, amended.  [import top.rest] without an alias binds the
    top-level segment [top] to a deferred import of the full path that
    returns the top-level module; [import top.rest as x] binds [x] to a
    deferred import of the same full path that returns the imported
    module itself, which is another deferred reference. *)
Theorem C3_plain_import top rest x self :
  occurs dot top = false ->
  let full := top +:+ String dot rest in
  let plain :=
    set_module
      (declare_import top None
         (mk_DeferredImport full (optimize self) None (Some top))
         (module_ self)) self in
  let aliased :=
    set_module
      (declare_import x None
         (mk_DeferredImport full (optimize self) None None)
         (module_ self)) self in
  visit (Import [mk_alias full None]) self = Ok plain /\
  children (module_ plain) !! top =
    Some (DImport None
            (mk_DeferredImport full (optimize self) None (Some top))) /\
  visit (Import [mk_alias full (Some x)]) self = Ok aliased /\
  children (module_ aliased) !! x =
    Some (DImport None (mk_DeferredImport full (optimize self) None None)).
Proof.
  intros Htop full plain aliased. repeat split.
  - change (visit (Import [mk_alias full None]) self)
      with (Ok (import_name (mk_alias full None) self)).
    unfold import_name. cbn [alias_asname alias_name]. unfold full.
    by rewrite (top_level_module_dotted top rest Htop).
  - cbn. apply lookup_insert_eq.
  - cbn. apply lookup_insert_eq.
Qed.

(** C4, amended.  [exit_scope] takes no expected scope and checks
    nothing: it pops whatever scope is on top.  On an empty stack it
    raises [IndexError]; in neither case is anything reported to the
    error sink. *)
Theorem C4_exit_scope_pops s top self :
  exit_scope (set_scopes (s ++ [top]) self) = Ok (set_scopes s self) /\
  exit_scope (set_scopes [] self) =
    Raise (IndexError "pop from empty list") (set_scopes [] self) /\
  error_sink (final (exit_scope self)) = error_sink self.
Proof.
  split; [|split].
  - by rewrite (exit_scope_snoc s top).
  - reflexivity.
  - unfold exit_scope. by destruct (scopes self).
Qed.

(** C5.  With the decorator list [[D1; D2]], [D2], the decorator next
    to the class, is applied first, to the class as the bases and the
    parent scope left it, and [D1] is applied to the result of [D2].
    A class that is dynamic, or that a decorator makes dynamic, is not
    decorated further; a decorator that cannot be resolved stands for
    the dynamic class, which makes the class dynamic.  [types.py] is
    not among the sources: that decorating with the dynamic class gives
    the dynamic class is the spec's, and a hypothesis here. *)
Theorem C5_decorators_closest_first name bases D1 D2 body self self' :
  (forall klass d, resolve_decorate_class dynamic klass d = dynamic) ->
  let node := ClassDef name bases [D1; D2] body in
  visit node self = Ok self' ->
  (exists first rest top self_body,
     make_subclasses self name (resolve_bases self bases) = first :: rest /\
     last (scopes self) = Some top /\
     let m := module_ self_body in
     let raw := class_of_bases top (resolve_bases self bases) first in
     let by_D2 :=
       resolve_decorate_class (default dynamic (resolve_decorator m D2))
                              raw D2 in
     let by_D1 :=
       resolve_decorate_class (default dynamic (resolve_decorator m D1))
                              by_D2 D1 in
     types (module_ self') =
       (node,
        TClass (exact_type
                  (if decide (raw = dynamic) then dynamic
                   else if decide (by_D2 = dynamic) then dynamic
                   else by_D1))) :: types m /\
     (resolve_decorator m D2 = None ->
      types (module_ self') =
        (node, TClass (exact_type dynamic)) :: types m)) /\
  (forall m decorator_list raw,
     apply_decorators m (rev decorator_list) raw =
     decorate_spec m decorator_list raw) /\
  (forall m above, apply_decorators m (rev above) dynamic = dynamic) /\
  (forall m above d raw,
     resolve_decorate_class (default dynamic (resolve_decorator m d)) raw d
       = dynamic ->
     apply_decorators m (rev (above ++ [d])) raw = dynamic) /\
  (forall m above d raw,
     resolve_decorator m d = None ->
     apply_decorators m (rev (above ++ [d])) raw = dynamic).
Proof.
  intros Hdyn node Hok.
  assert (forall m above d raw,
            resolve_decorate_class (default dynamic (resolve_decorator m d))
                                   raw d = dynamic ->
            apply_decorators m (rev (above ++ [d])) raw = dynamic) as Hbecomes.
  { intros m above d raw Hd. rewrite rev_app_distr. cbn [rev app].
    cbn [apply_decorators]. case_decide; [done|].
    rewrite Hd. apply apply_decorators_dynamic. }
  split; [|split; [|split; [|split]]].
  - apply visit_ClassDef_Ok in Hok
      as (first & rest & top & s_in & s_body & Hsub & Htop & _ & _ & Hty & _).
    exists first, rest, top, s_body. split; [done|]. split; [done|].
    cbn zeta in *. rewrite Hty. cbn [rev app apply_decorators].
    unfold node.
    assert (forall k : Value,
              (if decide (k = dynamic) then k else dynamic) = dynamic) as Hif
      by (intros k; by case_decide).
    split.
    + repeat case_decide; try done; congruence.
    + intros ->. cbn [default]. rewrite !Hdyn.
      repeat case_decide; try done; congruence.
  - apply apply_decorators_refines.
  - intros m above. apply apply_decorators_dynamic.
  - apply Hbecomes.
  - intros m above d raw Hnone. apply Hbecomes. by rewrite Hnone.
Qed.

(** C6.  Whatever the objects are when a function definition is met,
    every type the visit attaches to a class definition inside the
    function, at any depth, is the exact type of the dynamic class; and
    when the visit returns, every class definition that is a statement
    of the function's body has that type attached, whatever its
    bases. *)
Theorem C6_classes_in_functions_dynamic (is_async : bool) name returns_
    decorator_list body self :
  let node :=
    if is_async then AsyncFunctionDef name returns_ decorator_list body
    else FunctionDef name returns_ decorator_list body in
  (exists new,
     types (module_ (final (visit node self))) =
       new ++ types (module_ self) /\
     forall c t, In (c, t) new -> is_ClassDef c = true ->
                 t = TClass (exact_type dynamic)) /\
  forall self' c,
    visit node self = Ok self' -> In c body -> is_ClassDef c = true ->
    In (c, TClass (exact_type dynamic)) (types (module_ self')).
Proof.
  intros node.
  assert (visit node = visitFunc node is_async name returns_ decorator_list
                                 (visit_list visit body)) as ->
    by (unfold node; by destruct is_async).
  assert (is_ClassDef node = false) as Hnode
    by (unfold node; by destruct is_async).
  split.
  - apply (respects_visitFunc_body (fun _ => True) adds_dynamic_classes)
      with (S' := not_in_module); try done.
    + intros s. by apply adds_dynamic_classes_same.
    + apply adds_dynamic_classes_trans.
    + intros s sc. by apply adds_dynamic_classes_same.
    + intros s top n d _ _. apply adds_dynamic_classes_same.
      by destruct top.
    + intros s n t Hn. exists [(n, t)]. split; [done|].
      intros n' t' [[= <- <-]|[]] Hn'. congruence.
    + intros s klass _ _. by apply adds_dynamic_classes_same.
    + intros s func _. by apply not_in_module_push.
    + apply visit_list_balanced.
    + intros s Hs. by apply visit_list_adds_dynamic_classes.
  - intros self' c Hok Hin Hc.
    apply visit_Func_Ok in Hok as (s_in & s_body & t & Hsc & Hbody & Hty).
    rewrite Hty. right. by eapply direct_classes_dynamic.
Qed.

(** The statements of [visitFor] to [visitTry]. *)
Definition is_nested_statement (node : AST) : bool :=
  match node with
  | For _ _ _ _ | AsyncFor _ _ _ _ | While _ _ _
  | With _ _ | AsyncWith _ _ | Try _ _ _ _ => true
  | _ => false
  end.

(** C10.  A class definition whose parent scope is not the module, be
    it a class, a function or a nested scope, gets the exact type of
    the dynamic class attached when its visit returns, and the visit
    returns when the body has no relative import.  In particular a
    class definition that is a statement of the body of another class,
    wherever that one stands, has the dynamic class attached. *)
Theorem C10_classes_outside_module_dynamic name bases decorator_list body
    self top :
  let node := ClassDef name bases decorator_list body in
  last (scopes self) = Some top -> is_ModuleTable top = false ->
  (forall self', visit node self = Ok self' ->
     exists self_body,
       types (module_ self') =
         (node, TClass (exact_type dynamic)) :: types (module_ self_body)) /\
  (forallb no_relative_import body = true ->
   exists self', visit node self = Ok self') /\
  (forall outer_name outer_bases outer_decorators before after s s',
     visit (ClassDef outer_name outer_bases outer_decorators
                     (before ++ node :: after)) s = Ok s' ->
     In (node, TClass (exact_type dynamic)) (types (module_ s'))).
Proof.
  intros node Htop Hmod. split; [|split].
  - intros self' Hok.
    apply visit_ClassDef_Ok in Hok
      as (first & rest & top' & s_in & s_body & _ & Htop' & _ & _ & Hty & _).
    exists s_body. cbn zeta in Hty. rewrite Hty.
    assert (top' = top) as -> by congruence.
    unfold class_of_bases. by rewrite Hmod, apply_decorators_dynamic.
  - intros Hbody. apply (visit_returns node); [done|].
    intros E. by rewrite E in Htop.
  - intros outer_name outer_bases outer_decorators before after s s' Hok.
    apply visit_ClassDef_Ok in Hok
      as (first & rest & top' & s_in & s_body & _ & _ & Hsc & Hbody & Hty
          & _).
    cbn zeta in Hty. rewrite Hty. right.
    eapply direct_classes_dynamic; [exact Hsc|exact Hbody| |done].
    apply in_or_app. right. by left.
Qed.
End SpecProperties.

(** ** The properties on the small type environment *)

Import Example.

(** C1 as the spec has it fails: the bases [A] and [tuple] make
    subclasses of different kinds, and the class is the plain class the
    first base made, not the dynamic class. *)
Lemma C1_counterexample :
  make_subclasses with_A "C" (resolve_bases with_A [Name "A"; Name "tuple"])
    = [Plain "C" false; TupleLike "C"] /\
  type_of (Plain "C" false) <> type_of (TupleLike "C") /\
  exists self',
    visit C_A_tuple with_A = Ok self' /\
    hd_error (types (module_ self')) =
      Some (C_A_tuple, TClass (Plain "C" false)) /\
    children (module_ self') !! "C" = Some (DClass (Plain "C" false)) /\
    Plain "C" false <> exact_type dynamic.
Proof.
  split; [by vm_compute|]. split; [vm_compute; discriminate|].
  eexists. split; [vm_compute; reflexivity|].
  split; [by vm_compute|]. split; [by vm_compute|].
  vm_compute. discriminate.
Qed.

Lemma C2_type_checking_guard_witness :
  visit_list visit [A] fresh = Ok with_A /\
  declares_only_imports with_A
    (final (visit (If (Name "TYPE_CHECKING") [A] [import_foo]) fresh)).
Proof.
  assert (visit_list visit [A] fresh = Ok with_A) as H
    by (vm_compute; reflexivity).
  split; [exact H|].
  exact (proj2 (proj2 (C2_type_checking_guard [A] [import_foo] fresh))
               with_A H).
Defined.

(** C2 as the spec has it fails: the [else] branch of a
    [TYPE_CHECKING] guard is visited, and its import is bound in the
    module. *)
Lemma C2_counterexample :
  children (module_ fresh) !! "foo" = None /\
  children
    (module_ (final (visit (If (Name "TYPE_CHECKING") [] [import_foo])
                           fresh))) !! "foo" = Some foo_binding /\
  visit (If (Name "TYPE_CHECKING") [] [import_foo]) fresh <>
  visit (If (Name "TYPE_CHECKING") [] []) fresh.
Proof.
  split; [by vm_compute|]. split; [by vm_compute|].
  intros E.
  assert (children (module_ (final (visit (If (Name "TYPE_CHECKING") []
                                              [import_foo]) fresh)))
            !! "foo" = None) as H
    by (rewrite E; by vm_compute).
  vm_compute in H. discriminate.
Qed.

Lemma C3_plain_import_witness :
  occurs dot "a" = false /\
  visit (Import [mk_alias "a.b.c" None]) fresh =
    Ok (set_module
          (declare_import "a" None
             (mk_DeferredImport "a.b.c" 0 None (Some "a")) (module_ fresh))
          fresh) /\
  visit (Import [mk_alias "a.b.c" (Some "x")]) fresh =
    Ok (set_module
          (declare_import "x" None
             (mk_DeferredImport "a.b.c" 0 None None) (module_ fresh))
          fresh).
Proof.
  assert (occurs dot "a" = false) as H by reflexivity.
  split; [exact H|].
  destruct (C3_plain_import "a" "b.c" "x" fresh H) as (H1 & _ & H3 & _).
  split; [exact H1|exact H3].
Defined.

(** C3 as the spec has it fails: [import a.b.c] and [import a.b.c as
    x] do not bind the same deferred reference; the first returns the
    top-level module [a], the second the module [a.b.c]. *)
Lemma C3_counterexample :
  exists plain aliased,
    children
      (module_ (final (visit (Import [mk_alias "a.b.c" None]) fresh)))
      !! "a" = Some (DImport None plain) /\
    children
      (module_ (final (visit (Import [mk_alias "a.b.c" (Some "x")]) fresh)))
      !! "x" = Some (DImport None aliased) /\
    mod_to_import plain = "a.b.c" /\ mod_to_import aliased = "a.b.c" /\
    mod_to_return plain = Some "a" /\ mod_to_return aliased = None /\
    plain <> aliased.
Proof.
  exists (mk_DeferredImport "a.b.c" 0 None (Some "a")),
         (mk_DeferredImport "a.b.c" 0 None None).
  split; [by vm_compute|]. split; [by vm_compute|].
  repeat split; try reflexivity. discriminate.
Qed.

(** C4 as the spec has it fails: the caller that entered the class
    scope of [A] and finds a nested scope on top is not stopped; the
    nested scope is popped and nothing is raised. *)
Lemma C4_counterexample :
  let expected := ScClass (Plain "A" false) in
  let self := set_scopes [ScModuleTable; expected; NestedScope] fresh in
  last (scopes self) <> Some expected /\
  exit_scope self = Ok (set_scopes [ScModuleTable; expected] fresh).
Proof. split; [vm_compute; discriminate|reflexivity]. Qed.

(** [@final @unknown class C: pass]: [unknown] cannot be resolved and
    makes the class dynamic, so [final] is not applied. *)
Lemma C5_decorators_closest_first_witness :
  (forall klass d, resolve_decorate_class dynamic klass d = dynamic) /\
  (exists self',
     visit (ClassDef "C" [] [Name "final"; Name "unknown"] [Pass]) fresh =
       Ok self' /\
     exists self_body,
       types (module_ self') =
         (ClassDef "C" [] [Name "final"; Name "unknown"] [Pass],
          TClass (exact_type dynamic)) :: types (module_ self_body)).
Proof.
  assert (forall klass d,
            resolve_decorate_class dynamic klass d = dynamic) as Hdyn
    by reflexivity.
  split; [exact Hdyn|].
  exists (final (visit (ClassDef "C" [] [Name "final"; Name "unknown"]
                                 [Pass]) fresh)).
  assert (visit (ClassDef "C" [] [Name "final"; Name "unknown"] [Pass]) fresh
          = Ok (final (visit (ClassDef "C" [] [Name "final"; Name "unknown"]
                                       [Pass]) fresh))) as Hok
    by (vm_compute; reflexivity).
  split; [exact Hok|].
  destruct (proj1 (C5_decorators_closest_first "C" [] (Name "final")
                     (Name "unknown") [Pass] fresh _ Hdyn Hok))
    as (first & rest & top & self_body & _ & _ & _ & Hunresolved).
  exists self_body. apply Hunresolved. reflexivity.
Defined.

(** [def f(): class A: pass] *)
Lemma C6_classes_in_functions_dynamic_witness :
  exists self',
    visit (FunctionDef "f" None [] [A]) fresh = Ok self' /\
    In A [A] /\ is_ClassDef A = true /\
    In (A, TClass (exact_type dynamic)) (types (module_ self')).
Proof.
  exists (final (visit (FunctionDef "f" None [] [A]) fresh)).
  assert (visit (FunctionDef "f" None [] [A]) fresh =
          Ok (final (visit (FunctionDef "f" None [] [A]) fresh))) as Hok
    by (vm_compute; reflexivity).
  assert (In A [A]) as Hin by (by left).
  assert (is_ClassDef A = true) as Hc by reflexivity.
  repeat split; try assumption.
  exact (proj2 (C6_classes_in_functions_dynamic false "f" None [] [A] fresh)
               _ A Hok Hin Hc).
Defined.

Lemma C7_final_base_reported_witness :
  resolve_bases with_Final1 [Name "Final1"] = [] ++ Plain "Final1" true :: []
  /\ existsb is_marker [] = false
  /\ is_marker (Plain "Final1" true) = false
  /\ is_final (Plain "Final1" true) = true
  /\ exists first,
       In ("m.py", Bad, final_class_message first (Plain "Final1" true))
          (error_sink (final (visit Bad with_Final1))).
Proof.
  assert (resolve_bases with_Final1 [Name "Final1"] =
          [] ++ Plain "Final1" true :: []) as H1 by (by vm_compute).
  assert (existsb is_marker ([] : list Value) = false) as H2 by reflexivity.
  assert (is_marker (Plain "Final1" true) = false) as H3 by reflexivity.
  assert (is_final (Plain "Final1" true) = true) as H4 by reflexivity.
  repeat split; try assumption.
  destruct (proj1 (C7_final_base_reported "Bad" [Name "Final1"] [] [Pass]
                     with_Final1 [] (Plain "Final1" true) [] H1 H2 H3 H4))
    as (first & rest & _ & Hin & _).
  exists first. exact Hin.
Defined.

(** C7 as the spec has it fails: [Final1] is final and a base of the
    class, but the named tuple base before it ends the loop, and
    nothing is reported. *)
Lemma C7_counterexample :
  resolve_bases with_Final1 [Name "NamedTuple"; Name "Final1"] =
    [named_tuple; Plain "Final1" true] /\
  is_final (Plain "Final1" true) = true /\
  error_sink with_Final1 = [] /\
  exists self',
    visit C_NamedTuple_Final1 with_Final1 = Ok self' /\
    error_sink self' = [].
Proof.
  split; [by vm_compute|]. split; [reflexivity|]. split; [by vm_compute|].
  eexists. split; [vm_compute; reflexivity|]. by vm_compute.
Qed.

(** C9 as the spec has it fails: the import inside the loop body is
    bound in the module, the scope around the loop. *)
Lemma C9_counterexample :
  scopes fresh = [ScModuleTable] /\
  children (module_ fresh) !! "foo" = None /\
  children
    (module_ (final (visit (For (Name "i") (Name "xs") [import_foo] [])
                           fresh))) !! "foo" = Some foo_binding.
Proof. split; [reflexivity|]. split; by vm_compute. Qed.

(** [class Inner: pass] met in the body of the class [Outer]. *)
Lemma C10_classes_outside_module_dynamic_witness :
  let self :=
    set_scopes [ScModuleTable; ScClass (Plain "Outer" false)] fresh in
  last (scopes self) = Some (ScClass (Plain "Outer" false)) /\
  is_ModuleTable (ScClass (Plain "Outer" false)) = false /\
  forallb no_relative_import [Pass] = true /\
  exists self', visit (ClassDef "Inner" [] [] [Pass]) self = Ok self'.
Proof.
  intros self.
  assert (last (scopes self) = Some (ScClass (Plain "Outer" false))) as H1
    by reflexivity.
  assert (is_ModuleTable (ScClass (Plain "Outer" false)) = false) as H2
    by reflexivity.
  assert (forallb no_relative_import [Pass] = true) as H3 by reflexivity.
  repeat split; try assumption.
  exact (proj1 (proj2 (C10_classes_outside_module_dynamic "Inner" [] []
                         [Pass] self _ H1 H2)) H3).
Defined.

(** ** More of the visitor: the stack, the exceptions and the sink *)

Section StackAndExceptions.
Context `{TI : TypesInterface} `{MI : !ModuleInterface}.

(** The one exception the pass raises by itself. *)
Definition relative_import_error : exn :=
  NotImplementedError "relative imports aren't supported".

(** Started on a stack that is not empty, [a] raises nothing else. *)
Definition raises_only_unsupported (a : action) : Prop :=
  forall self e s,
    scopes self <> [] -> a self = Raise e s -> e = relative_import_error.

Lemma unsupported_Ok : raises_only_unsupported Ok.
Proof. by intros self e s _. Qed.

Lemma unsupported_pure (f : DeclarationVisitor -> DeclarationVisitor) :
  raises_only_unsupported (fun self => Ok (f self)).
Proof. by intros self e s _. Qed.

Lemma unsupported_seq a b :
  balanced a -> raises_only_unsupported a -> raises_only_unsupported b ->
  raises_only_unsupported (a >> b).
Proof.
  intros Hbal Ha Hb self e s Hne. unfold and_then.
  destruct (a self) as [self1|e1 self1] eqn:E; cbn [bind].
  - apply Hb. by rewrite (Hbal _ _ E).
  - intros [= <- <-]. by eapply Ha.
Qed.

Lemma unsupported_after (f : DeclarationVisitor -> DeclarationVisitor) a :
  (forall self, scopes (f self) = scopes self) ->
  raises_only_unsupported a ->
  raises_only_unsupported (fun self => a (f self)).
Proof. intros Hf Ha self e s Hne. apply Ha. by rewrite Hf. Qed.

Lemma unsupported_parent_scope k :
  (forall scope, raises_only_unsupported (k scope)) ->
  raises_only_unsupported (parent_scope k).
Proof.
  intros Hk self e s Hne. unfold parent_scope.
  destruct (last (scopes self)) eqn:E; [by apply Hk|].
  by apply last_None in E.
Qed.

Lemma unsupported_nested scope a k :
  balanced a -> raises_only_unsupported a -> raises_only_unsupported k ->
  raises_only_unsupported (enter_scope scope >> a >> exit_scope >> k).
Proof.
  intros Hbal Ha Hk self e s Hne. unfold and_then, enter_scope.
  cbn [bind].
  destruct (a _) as [self1|e1 self1] eqn:E; cbn [bind].
  - apply Hbal in E. cbn in E. rewrite (exit_scope_snoc _ _ _ E).
    cbn [bind]. by apply Hk.
  - intros [= <- <-]. eapply Ha; [|exact E]. cbn. by destruct (scopes self).
Qed.

Lemma unsupported_nested_only scope a :
  balanced a -> raises_only_unsupported a ->
  raises_only_unsupported (enter_scope scope >> a >> exit_scope).
Proof.
  intros Hbal Ha self e s Hne. unfold and_then, enter_scope. cbn [bind].
  destruct (a _) as [self1|e1 self1] eqn:E; cbn [bind].
  - apply Hbal in E. cbn in E. by rewrite (exit_scope_snoc _ _ _ E).
  - intros [= <- <-]. eapply Ha; [|exact E]. cbn. by destruct (scopes self).
Qed.

Lemma unsupported_visit_list nodes :
  Forall (fun node => raises_only_unsupported (visit node)) nodes ->
  raises_only_unsupported (visit_list visit nodes).
Proof.
  induction 1 as [|node rest Hnode _ IH]; [apply unsupported_Ok|].
  rewrite visit_list_cons. apply unsupported_seq; auto using visit_balanced.
Qed.

Lemma unsupported_visitClassDef node name bases decorator_list a :
  balanced a -> raises_only_unsupported a ->
  raises_only_unsupported (visitClassDef node name bases decorator_list a).
Proof.
  intros Hbal Ha self e s Hne. unfold visitClassDef.
  pose proof (resolve_bases_nonempty self bases) as Hb.
  unfold make_subclasses at 1.
  destruct (resolve_bases self bases) as [|b0 bs] eqn:Eb; [done|].
  cbn [map].
  destruct (check_bases _ _ _ _) as [klass self2] eqn:E2.
  assert (scopes self2 = scopes self) as Hsc.
  { change self2 with (klass, self2).2. rewrite <- E2.
    rewrite scopes_check_bases. apply scopes_check_subtypes. }
  rewrite <- Hsc in Hne. revert Hne. generalize self2. intros s2 Hne.
  revert s2 e s Hne.
  apply unsupported_parent_scope. intros scope.
  apply unsupported_nested; [done..|]. apply unsupported_pure.
Qed.

Lemma unsupported_visitFunc node is_async name returns_ decorator_list a :
  balanced a -> raises_only_unsupported a ->
  raises_only_unsupported
    (visitFunc node is_async name returns_ decorator_list a).
Proof.
  intros Hbal Ha. unfold visitFunc, make_function. apply unsupported_seq.
  - case_bool_decide; [|apply balanced_Ok].
    apply balanced_parent_scope. intros scope. apply balanced_pure.
    intros self. by destruct scope.
  - case_bool_decide; [|apply unsupported_Ok].
    apply unsupported_parent_scope. intros scope. apply unsupported_pure.
  - apply unsupported_nested; [done..|].
    apply (unsupported_after
             (fun self => set_module (set_type node _ (module_ self)) self));
      [done|].
    apply unsupported_parent_scope. intros scope. apply unsupported_pure.
Qed.

Lemma unsupported_visitIf node test orelse a b :
  balanced a -> balanced b ->
  raises_only_unsupported a -> raises_only_unsupported b ->
  raises_only_unsupported (visitIf node test orelse a b).
Proof.
  intros Hbala Hbalb Ha Hb. unfold visitIf, visit_orelse_nested.
  destruct (is_TYPE_CHECKING test).
  { apply unsupported_seq; [done..|].
    destruct orelse; [apply unsupported_Ok|].
    by apply unsupported_nested_only. }
  destruct (sys_hexversion_check node) as [[]|].
  - by apply (unsupported_after
                (fun self => set_module
                   (mark_known_boolean_test test true (module_ self)) self)).
  - by apply (unsupported_after
                (fun self => set_module
                   (mark_known_boolean_test test false (module_ self))
                   self)).
  - apply unsupported_seq.
    + by apply balanced_nested_only.
    + by apply unsupported_nested_only.
    + destruct orelse; [apply unsupported_Ok|].
      by apply unsupported_nested_only.
Qed.

Lemma visit_raises_only_unsupported node :
  raises_only_unsupported (visit node).
Proof.
  induction node using AST_nested_ind.
  - apply unsupported_parent_scope. intros scope. apply unsupported_pure.
  - apply unsupported_parent_scope. intros scope. apply unsupported_pure.
  - rewrite visit_ClassDef.
    apply unsupported_visitClassDef; [apply visit_list_balanced|].
    by apply unsupported_visit_list.
  - rewrite visit_FunctionDef.
    apply unsupported_visitFunc; [apply visit_list_balanced|].
    by apply unsupported_visit_list.
  - rewrite visit_AsyncFunctionDef.
    apply unsupported_visitFunc; [apply visit_list_balanced|].
    by apply unsupported_visit_list.
  - apply unsupported_pure.
  - intros self e s _. cbn. unfold visitImportFrom.
    destruct m as [[|c m]|]; try by intros [= <- <-].
    destruct l; [done|]. by intros [= <- <-].
  - apply unsupported_nested_only.
    + apply balanced_seq; apply visit_list_balanced.
    + apply unsupported_seq; [apply visit_list_balanced|..];
        by apply unsupported_visit_list.
  - apply unsupported_nested_only.
    + apply balanced_seq; apply visit_list_balanced.
    + apply unsupported_seq; [apply visit_list_balanced|..];
        by apply unsupported_visit_list.
  - apply unsupported_nested_only.
    + apply balanced_seq; apply visit_list_balanced.
    + apply unsupported_seq; [apply visit_list_balanced|..];
        by apply unsupported_visit_list.
  - rewrite visit_If.
    apply unsupported_visitIf;
      try apply visit_list_balanced; by apply unsupported_visit_list.
  - apply unsupported_nested_only; [apply visit_list_balanced|].
    by apply unsupported_visit_list.
  - apply unsupported_nested_only; [apply visit_list_balanced|].
    by apply unsupported_visit_list.
  - apply unsupported_nested_only.
    + repeat apply balanced_seq; apply visit_list_balanced.
    + repeat (apply unsupported_seq; [apply visit_list_balanced|..]);
        by apply unsupported_visit_list.
  - by apply (unsupported_visit_list body).
  - apply unsupported_Ok.
  - apply unsupported_Ok.
Qed.

Lemma visit_list_raises_only_unsupported nodes :
  raises_only_unsupported (visit_list visit nodes).
Proof.
  apply unsupported_visit_list, Forall_forall. intros node _.
  apply visit_raises_only_unsupported.
Qed.

(** X1.  A visit that returns leaves the scope stack as it found it:
    every [enter_scope] is matched by its [exit_scope].  So after the
    body of a module, visited from a fresh visitor, the module is again
    the only scope. *)
Theorem X1_scope_stack_balanced node body mod_name file opt sink self self' :
  (visit node self = Ok self' -> scopes self' = scopes self) /\
  (forall done,
     visit_list visit body (DeclarationVisitor_init mod_name file opt sink)
       = Ok done ->
     scopes done = [ScModuleTable]).
Proof.
  split; [apply visit_balanced|].
  intros done Hok. by rewrite (visit_list_balanced _ _ _ Hok).
Qed.

(** X2.  Started on a stack that is not empty, as it is after
    [__init__], a visit never fails on the stack: the only exception it
    raises is the one for relative imports, and it raises none when no
    [from]-import of the node is relative. *)
Theorem X2_only_relative_imports_raise node self e s :
  scopes self <> [] ->
  visit node self = Raise e s ->
  e = relative_import_error /\ no_relative_import node = false.
Proof.
  intros Hne Hraise. split.
  - by eapply visit_raises_only_unsupported.
  - destruct (no_relative_import node) eqn:E; [|done].
    destruct (visit_returns node E self Hne) as [self' Hok]. congruence.
Qed.
End StackAndExceptions.

(** ** More of the visitor: reports and imports *)

Section ReportsAndImports.
Context `{TI : TypesInterface} `{MI : !ModuleInterface}.

(** The visitor keeps its file name and optimization level, keeps the
    reports that were in the sink, and files every report it adds
    under its own file name. *)
Definition reports_own_file (self self' : DeclarationVisitor) : Prop :=
  filename self' = filename self /\
  optimize self' = optimize self /\
  module_name self' = module_name self /\
  exists new,
    error_sink self' = error_sink self ++ new /\
    Forall (fun report => report.1.1 = filename self) new.

Lemma reports_own_file_same self self' :
  filename self' = filename self -> optimize self' = optimize self ->
  module_name self' = module_name self ->
  error_sink self' = error_sink self -> reports_own_file self self'.
Proof.
  intros E1 E2 E3 E4. repeat split; try done.
  exists []. by rewrite app_nil_r.
Qed.

Lemma reports_own_file_trans s1 s2 s3 :
  reports_own_file s1 s2 -> reports_own_file s2 s3 ->
  reports_own_file s1 s3.
Proof.
  intros (F1 & O1 & M1 & n1 & E1 & H1) (F2 & O2 & M2 & n2 & E2 & H2).
  repeat split; try congruence.
  exists (n1 ++ n2). split; [by rewrite E2, E1, app_assoc|].
  apply Forall_app. split; [done|]. by rewrite <- F1.
Qed.

Lemma visit_reports_own_file node self :
  reports_own_file self (final (visit node self)).
Proof.
  apply (visit_respects (fun _ => True) reports_own_file); try done.
  - intros s. by apply reports_own_file_same.
  - apply reports_own_file_trans.
  - intros s sc. by apply reports_own_file_same.
  - intros s top name d _ _. apply reports_own_file_same; by destruct top.
  - intros s msg n. repeat split; try done.
    exists [(filename s, n, msg)]. split; [done|]. by constructor.
  - intros s top n klass _ _ _. by apply reports_own_file_same.
  - intros s n t _. by apply reports_own_file_same.
  - intros s klass _ _. by apply reports_own_file_same.
  - intros s name source d. by apply reports_own_file_same.
  - intros s test value. by apply reports_own_file_same.
Qed.

(** X3.  Whatever the node, and whether the visit returns or raises,
    the reports that were in the sink are still there, in order, and
    every report the visit added is filed under the visitor's file
    name; the file name, the module name and the optimization level of
    the visitor are not changed. *)
Theorem X3_reports_appended_under_own_file node self :
  let self' := final (visit node self) in
  filename self' = filename self /\
  optimize self' = optimize self /\
  module_name self' = module_name self /\
  exists new,
    error_sink self' = error_sink self ++ new /\
    forall file site msg, In (file, site, msg) new -> file = filename self.
Proof.
  destruct (visit_reports_own_file node self) as (F & O & M & new & E & H).
  repeat split; try done. exists new. split; [done|].
  intros file site msg Hin. rewrite Forall_forall in H.
  apply (H (file, site, msg)). by apply list_elem_of_In.
Qed.

(** *** The names an import statement binds *)

(** A loop that binds, for every alias, the name [key] to the
    declaration [val]: a name that is no key is left alone, and every
    key is bound to the declaration of the last alias with that key,
    the one that no alias with the same key follows. *)
Lemma fold_bindings (key : alias -> string) (val : Z -> alias -> decl)
    (names : list alias) (self : DeclarationVisitor) :
  let step s a :=
    set_module (set_child (key a) (val (optimize s) a) (module_ s)) s in
  let self' := fold_left step names self in
  optimize self' = optimize self /\
  (forall n, (forall a, In a names -> key a <> n) ->
             children (module_ self') !! n = children (module_ self) !! n) /\
  (forall a, In a names ->
     exists before last after,
       names = before ++ last :: after /\ key last = key a /\
       (forall b, In b after -> key b <> key a) /\
       children (module_ self') !! key a =
         Some (val (optimize self) last)).
Proof.
  intros step. induction names as [|x names IH] using rev_ind.
  { split; [done|]. split; [done|]. by intros a []. }
  cbn zeta in *. rewrite fold_left_app. cbn [fold_left].
  destruct IH as (Hopt & Hother & Hbound).
  set (before := fold_left step names self) in *.
  split; [exact Hopt|]. split.
  - intros n Hn. cbn. rewrite lookup_insert_ne.
    + apply Hother. intros a Ha. apply Hn, in_or_app. by left.
    + apply Hn, in_or_app. right. by left.
  - intros a Ha. destruct (decide (key x = key a)) as [E|E].
    + exists names, x, []. split; [done|]. split; [done|].
      split; [by intros b []|].
      cbn. by rewrite <- E, lookup_insert_eq, Hopt.
    + apply in_app_or in Ha as [Ha|[->|[]]]; [|done].
      destruct (Hbound a Ha) as (pre & last & post & Hnames & Hkey & Hpost
                                 & Hlook).
      exists pre, last, (post ++ [x]).
      split; [by rewrite Hnames, <- app_assoc|]. split; [done|]. split.
      * intros b [Hb|[<-|[]]]%in_app_or; [by apply Hpost|done].
      * cbn. by rewrite lookup_insert_ne.
Qed.

(** The name a plain import binds. *)
Definition import_key (name : alias) : string :=
  match alias_asname name with
  | None => top_level_module (alias_name name)
  | Some asname => asname
  end.

(** The deferred reference a plain import binds it to. *)
Definition import_val (opt : Z) (name : alias) : decl :=
  DImport None
    (mk_DeferredImport (alias_name name) opt None
       (match alias_asname name with
        | None => Some (top_level_module (alias_name name))
        | Some _ => None
        end)).

Lemma import_name_binding name self :
  import_name name self =
  set_module
    (set_child (import_key name) (import_val (optimize self) name)
               (module_ self)) self.
Proof.
  unfold import_name, import_key, import_val, declare_import.
  by destruct (alias_asname name).
Qed.

Lemma fold_left_ext {A B} (f g : A -> B -> A) (l : list B) (a : A) :
  (forall x y, f x y = g x y) -> fold_left f l a = fold_left g l a.
Proof.
  intros Hfg. revert a. induction l as [|b l IH]; intros a; [done|].
  cbn. by rewrite Hfg, IH.
Qed.

Lemma top_level_module_no_dot name :
  occurs dot (top_level_module name) = false.
Proof.
  unfold top_level_module.
  induction name as [|c name IH]; [done|]. cbn [split].
  destruct (Ascii.eqb c dot) eqn:E; [done|].
  destruct (split dot name) as [|w ws]; cbn [occurs].
  - by rewrite E.
  - by rewrite E, IH.
Qed.

Lemma top_level_module_prefix name :
  exists rest, name = top_level_module name +:+ rest /\
               (rest = "" \/ exists tail, rest = String dot tail).
Proof.
  unfold top_level_module.
  induction name as [|c name (rest & IH & Hrest)]; [by exists ""; auto|].
  cbn [split]. destruct (Ascii.eqb c dot) eqn:E.
  - apply Ascii.eqb_eq in E as ->. exists (String dot name).
    split; [done|]. right. by exists name.
  - destruct (split dot name) as [|w ws].
    + exists rest. split; [|done].
      change (String c "" +:+ rest) with (String c ("" +:+ rest)).
      f_equal. exact IH.
    + exists rest. split; [|done].
      change (String c w +:+ rest) with (String c (w +:+ rest)).
      f_equal. exact IH.
Qed.

Lemma top_level_module_undotted name :
  occurs dot name = false -> top_level_module name = name.
Proof.
  unfold top_level_module.
  induction name as [|c name IH]; [done|]. cbn [split occurs].
  intros [Hc Hname]%orb_false_iff. rewrite Hc. specialize (IH Hname).
  destruct (split dot name) as [|w ws]; by subst.
Qed.

(** X4.  [import n1, n2, ...] returns and changes the module table
    only at the names it binds: a name that is neither an alias nor the
    top-level segment of an imported path keeps its declaration, and
    each of those names is bound to the deferred import of the last
    alias of the statement that binds it, the one that no alias binding
    the same name follows.  The statement touches neither the stack nor
    the sink. *)
Theorem X4_import_binds_its_names names self :
  exists self',
    visit (Import names) self = Ok self' /\
    scopes self' = scopes self /\ error_sink self' = error_sink self /\
    (forall n, (forall a, In a names -> import_key a <> n) ->
               children (module_ self') !! n =
               children (module_ self) !! n) /\
    (forall a, In a names ->
       exists before last after,
         names = before ++ last :: after /\
         import_key last = import_key a /\
         (forall b, In b after -> import_key b <> import_key a) /\
         children (module_ self') !! import_key a =
           Some (import_val (optimize self) last)).
Proof.
  eexists. split; [reflexivity|].
  rewrite (fold_left_ext _
             (fun s a =>
                set_module
                  (set_child (import_key a) (import_val (optimize s) a)
                             (module_ s)) s))
    by (intros; apply import_name_binding).
  destruct (fold_bindings import_key import_val names self)
    as (_ & Hother & Hbound).
  split; [|split; [|split; [exact Hother|exact Hbound]]].
  - clear. revert self. induction names as [|a names IH]; intros self;
      [done|].
    cbn [fold_left]. by rewrite IH.
  - clear. revert self. induction names as [|a names IH]; intros self;
      [done|].
    cbn [fold_left]. by rewrite IH.
Qed.

(** X5.  The name a plain import binds without an alias, the part of
    the path before its first dot, holds no dot and starts the path:
    what follows it is empty or starts with a dot; it is the whole path
    when the path has no dot. *)
Theorem X5_top_level_module_is_first_segment name :
  occurs dot (top_level_module name) = false /\
  (exists rest, name = top_level_module name +:+ rest /\
                (rest = "" \/ exists tail, rest = String dot tail)) /\
  (occurs dot name = false -> top_level_module name = name).
Proof.
  split; [apply top_level_module_no_dot|].
  split; [apply top_level_module_prefix|apply top_level_module_undotted].
Qed.

(** X6.  [from mod import n1 as a1, ...] with a module name and level
    zero returns and changes the module table only at the names it
    binds, the alias when there is a non-empty one and the imported
    name otherwise; each is bound to a deferred import of [mod] that
    carries the imported name of the last alias that binds it, the one
    that no alias binding the same name follows, with [(mod, name)] as
    its source. *)
Theorem X6_from_import_binds_its_names c mod_tail names self :
  let mod_name := String c mod_tail in
  let bound a :=
    DImport (Some (mod_name, alias_name a))
      (mk_DeferredImport mod_name (optimize self) (Some (alias_name a))
                         None) in
  exists self',
    visit (ImportFrom (Some mod_name) names 0) self = Ok self' /\
    (forall n, (forall a, In a names -> asname_or_name a <> n) ->
               children (module_ self') !! n =
               children (module_ self) !! n) /\
    (forall a, In a names ->
       exists before last after,
         names = before ++ last :: after /\
         asname_or_name last = asname_or_name a /\
         (forall b, In b after -> asname_or_name b <> asname_or_name a) /\
         children (module_ self') !! asname_or_name a = Some (bound last)).
Proof.
  intros mod_name bound. eexists. split; [reflexivity|].
  destruct (fold_bindings asname_or_name
              (fun opt a =>
                 DImport (Some (mod_name, alias_name a))
                   (mk_DeferredImport mod_name opt (Some (alias_name a))
                                      None))
              names self) as (_ & Hother & Hbound).
  split; [exact Hother|exact Hbound].
Qed.
End ReportsAndImports.

(** ** More of the visitor: what a definition declares *)

Section Definitions.
Context `{TI : TypesInterface} `{MI : !ModuleInterface}.

(** The two loops over the bases only report. *)
Lemma check_subtypes_only_reports node first klasses self :
  check_subtypes node first klasses self =
  set_error_sink (error_sink (check_subtypes node first klasses self)) self.
Proof.
  revert self. induction klasses as [|k ks IH]; intros self;
    [by destruct self|].
  cbn [check_subtypes]. case_decide; [apply IH|].
  rewrite IH at 1. reflexivity.
Qed.

Lemma check_bases_only_reports node bases klass self :
  (check_bases node bases klass self).2 =
  set_error_sink (error_sink (check_bases node bases klass self).2) self.
Proof.
  revert self. induction bases as [|b bs IH]; intros self;
    [by destruct self|].
  cbn [check_bases]. repeat case_decide; try by destruct self.
  destruct (is_final b); [|apply IH]. rewrite IH at 1. reflexivity.
Qed.

Lemma check_subtypes_agree node first klasses self :
  (forall k, In k klasses -> type_of k = type_of first) ->
  check_subtypes node first klasses self = self.
Proof.
  revert self. induction klasses as [|k ks IH]; intros self Hall; [done|].
  cbn [check_subtypes]. rewrite decide_True by (apply Hall; by left).
  apply IH. intros k' Hk'. apply Hall. by right.
Qed.

Lemma check_bases_no_final node bases klass self :
  (forall b, In b bases -> is_final b = false) ->
  (check_bases node bases klass self).2 = self.
Proof.
  revert self. induction bases as [|b bs IH]; intros self Hall; [done|].
  cbn [check_bases]. repeat case_decide; try done.
  rewrite (Hall b) by (by left). apply IH. intros b' Hb'. apply Hall.
  by right.
Qed.

(** The objects after a class definition, step by step. *)
Lemma visit_ClassDef_effect name bases decorator_list body self self' :
  let node := ClassDef name bases decorator_list body in
  visit node self = Ok self' ->
  exists first rest top self_body,
    make_subclasses self name (resolve_bases self bases) = first :: rest /\
    last (scopes self) = Some top /\
    let raw := class_of_bases top (resolve_bases self bases) first in
    let checked :=
      (check_bases node (resolve_bases self bases) first
         (check_subtypes node first (first :: rest) self)).2 in
    let pushed := if decide (raw = dynamic) then NestedScope
                  else ScClass raw in
    visit_list visit body (set_scopes (scopes self ++ [pushed]) checked)
      = Ok self_body /\
    let klass :=
      apply_decorators (module_ self_body) (rev decorator_list) raw in
    let declared :=
      declare_class top name (exact_type klass)
                    (set_scopes (scopes self) self_body) in
    self' =
      set_module (set_type node (TClass (exact_type klass))
                           (module_ declared)) declared.
Proof.
  intros node. unfold node. rewrite visit_ClassDef. unfold visitClassDef.
  destruct (make_subclasses _ _ _) as [|first rest]; [done|].
  set (self1 := check_subtypes _ _ _ _).
  pose proof (check_bases_class (ClassDef name bases decorator_list body)
                (resolve_bases self bases) first self1) as Hk.
  pose proof (scopes_check_bases (ClassDef name bases decorator_list body)
                (resolve_bases self bases) first self1) as Hsc.
  destruct (check_bases _ _ _ self1) as [klass self2] eqn:E2.
  cbn [fst snd] in *.
  unfold self1 in Hsc. rewrite scopes_check_subtypes in Hsc.
  unfold parent_scope. rewrite Hsc.
  destruct (last (scopes self)) as [top|]; [|done].
  unfold and_then, enter_scope. cbn [bind]. rewrite Hsc.
  assert ((if is_ModuleTable top then klass else dynamic) =
          class_of_bases top (resolve_bases self bases) first) as ->.
  { unfold class_of_bases. by rewrite Hk. }
  match goal with
  | |- context [visit_list visit body ?s] => set (self_in := s)
  end.
  destruct (visit_list visit body self_in) as [self3|] eqn:Ebody; [|done].
  cbn [bind].
  pose proof (visit_list_balanced _ _ _ Ebody) as Hbal.
  unfold self_in in Hbal. cbn [scopes set_scopes] in Hbal.
  rewrite (exit_scope_snoc _ _ _ Hbal). cbn [bind].
  intros [= <-]. exists first, rest, top, self3.
  unfold self1 in E2. cbn zeta. rewrite E2. cbn [snd].
  split; [done|]. split; [done|]. split; [exact Ebody|reflexivity].
Qed.

(** The objects after a function definition, step by step. *)
Lemma visit_Func_effect node is_async name returns_ decorator_list body
    self self' :
  visitFunc node is_async name returns_ decorator_list
            (visit_list visit body) self = Ok self' ->
  exists top self_body,
    last (scopes self) = Some top /\
    let func :=
      mk_Function node name (type_ref is_async returns_)
                  (bool_decide (name = "__init_subclass__")) in
    let marked :=
      if bool_decide (name = "__init_subclass__") then
        match top with
        | ScClass klass =>
            set_has_init_subclass (klass :: has_init_subclass self) self
        | _ => self
        end
      else self in
    visit_list visit body
      (set_scopes (scopes self ++ [ScFunction func]) marked) = Ok self_body /\
    let func_type := match decorator_list with
                     | [] => TFunction func
                     | _ :: _ => UnknownDecoratedMethod func
                     end in
    self' =
      declare_function top func
        (set_module (set_type node func_type (module_ self_body))
                    (set_scopes (scopes self) self_body)).
Proof.
  unfold visitFunc, make_function, and_then, parent_scope.
  assert (forall func (marked self3 : DeclarationVisitor),
            scopes marked = scopes self ->
            visit_list visit body
              (set_scopes (scopes marked ++ [ScFunction func]) marked)
              = Ok self3 ->
            exit_scope self3 = Ok (set_scopes (scopes self) self3)) as Hexit.
  { intros func marked self3 Hsc Ebody.
    apply visit_list_balanced in Ebody. cbn [scopes set_scopes] in Ebody.
    rewrite Hsc in Ebody. by rewrite (exit_scope_snoc _ _ _ Ebody). }
  case_bool_decide as Hname.
  - destruct (last (scopes self)) as [top|] eqn:Etop; [|done].
    cbn [bind]. unfold enter_scope at 1. cbn [bind].
    match goal with
    | |- context [visit_list visit body (set_scopes _ ?m)] =>
        set (marked := m)
    end.
    assert (scopes marked = scopes self) as Hsc
      by (unfold marked; by destruct top).
    destruct (visit_list visit body _) as [self3|] eqn:Ebody; [|done].
    cbn [bind]. rewrite (Hexit _ marked self3 Hsc Ebody).
    cbn [bind scopes set_scopes set_module]. rewrite Etop.
    intros [= <-]. exists top, self3. split; [done|].
    rewrite Hsc in Ebody. by split.
  - cbn [bind]. unfold enter_scope at 1. cbn [bind].
    destruct (visit_list visit body _) as [self3|] eqn:Ebody; [|done].
    cbn [bind]. rewrite (Hexit _ self self3 eq_refl Ebody).
    cbn [bind scopes set_scopes set_module].
    destruct (last (scopes self)) as [top|] eqn:Etop; [|done].
    intros [= <-]. exists top, self3. by split.
Qed.

Lemma members_checked node bases first klasses self :
  let checked :=
    (check_bases node bases first
       (check_subtypes node first klasses self)).2 in
  members checked = members self /\
  has_init_subclass checked = has_init_subclass self /\
  module_ checked = module_ self /\
  scopes checked = scopes self.
Proof.
  cbn zeta. rewrite check_bases_only_reports. cbn.
  by rewrite check_subtypes_only_reports.
Qed.

Lemma only_imports_added_insert (m m' : gmap string decl) name d :
  only_imports_added m m' ->
  forall n : string,
    n <> name ->
    <[name := d]> m' !! n = m !! n \/
    exists source d', <[name := d]> m' !! n = Some (DImport source d').
Proof. intros H n Hn. rewrite lookup_insert_ne by done. apply H. Qed.

(** X7.  A function definition met in the module scope, when its visit
    returns, is declared in the module under its name, and the node
    gets the function as its type, wrapped as unknown when it has
    decorators.  Nothing else of the function shows in the module:
    every other name keeps its declaration or is bound to an import of
    the body, and no class gets a member or the [__init_subclass__]
    mark. *)
Theorem X7_function_declared_in_module (is_async : bool) name returns_
    decorator_list body self self' :
  let node :=
    if is_async then AsyncFunctionDef name returns_ decorator_list body
    else FunctionDef name returns_ decorator_list body in
  let func :=
    mk_Function node name (type_ref is_async returns_)
                (bool_decide (name = "__init_subclass__")) in
  last (scopes self) = Some ScModuleTable ->
  visit node self = Ok self' ->
  children (module_ self') !! name = Some (DFunction func) /\
  hd_error (types (module_ self')) =
    Some (node, match decorator_list with
                | [] => TFunction func
                | _ :: _ => UnknownDecoratedMethod func
                end) /\
  (forall n : string,
     n <> name ->
     children (module_ self') !! n = children (module_ self) !! n \/
     exists source d,
       children (module_ self') !! n = Some (DImport source d)) /\
  members self' = members self /\
  has_init_subclass self' = has_init_subclass self.
Proof.
  intros node func Htop.
  assert (visit node = visitFunc node is_async name returns_ decorator_list
                                 (visit_list visit body)) as ->
    by (unfold node; by destruct is_async).
  intros (top & self_body & Htop' & Hbody & ->)%visit_Func_effect.
  assert (top = ScModuleTable) as -> by congruence.
  assert ((if bool_decide (name = "__init_subclass__") then self else self)
          = self) as Hmarked by (by case_bool_decide).
  cbn zeta in Hbody. cbn match in Hbody. rewrite Hmarked in Hbody.
  match type of Hbody with
  | visit_list visit body ?s = _ =>
      pose proof (visit_list_declares_only_imports body s) as Hframe
  end.
  rewrite Hbody in Hframe. cbn [final] in Hframe.
  destruct Hframe as (Hm & Hi & Hc); [by apply in_opaque_push|].
  cbn in Hm, Hi, Hc. cbn.
  split; [apply lookup_insert_eq|]. split; [done|].
  split; [by apply only_imports_added_insert|]. done.
Qed.

(** X8.  A function definition met in the scope of a class, when its
    visit returns, becomes a member of that class under its name, and
    the class gets the [__init_subclass__] mark exactly when that is
    the function's name.  Nothing else is declared: the members are
    otherwise as before, and a name of the module keeps its
    declaration or is bound to an import of the body. *)
Theorem X8_method_declared_in_class (is_async : bool) name returns_
    decorator_list body klass self self' :
  let node :=
    if is_async then AsyncFunctionDef name returns_ decorator_list body
    else FunctionDef name returns_ decorator_list body in
  let func :=
    mk_Function node name (type_ref is_async returns_)
                (bool_decide (name = "__init_subclass__")) in
  last (scopes self) = Some (ScClass klass) ->
  visit node self = Ok self' ->
  members self' = (klass, name, DFunction func) :: members self /\
  has_init_subclass self' =
    (if bool_decide (name = "__init_subclass__")
     then klass :: has_init_subclass self
     else has_init_subclass self) /\
  (forall n : string,
     children (module_ self') !! n = children (module_ self) !! n \/
     exists source d,
       children (module_ self') !! n = Some (DImport source d)).
Proof.
  intros node func Htop.
  assert (visit node = visitFunc node is_async name returns_ decorator_list
                                 (visit_list visit body)) as ->
    by (unfold node; by destruct is_async).
  intros (top & self_body & Htop' & Hbody & ->)%visit_Func_effect.
  assert (top = ScClass klass) as -> by congruence.
  cbn zeta in Hbody. cbn match in Hbody.
  match type of Hbody with
  | visit_list visit body ?s = _ =>
      pose proof (visit_list_declares_only_imports body s) as Hframe
  end.
  rewrite Hbody in Hframe. cbn [final] in Hframe.
  destruct Hframe as (Hm & Hi & Hc); [by apply in_opaque_push|].
  cbn in Hm, Hi, Hc. cbn. rewrite Hm, Hi.
  split; [by case_bool_decide|]. split; [by case_bool_decide|].
  intros n. destruct (Hc n) as [E|E]; [left|by right].
  rewrite E. by case_bool_decide.
Qed.

Lemma final_seq_declares_only_imports (a b : action) self :
  declares_only_imports self (final (a self)) ->
  (forall s1, a self = Ok s1 -> declares_only_imports s1 (final (b s1))) ->
  declares_only_imports self (final ((a >> b) self)).
Proof.
  intros Ha Hb. unfold and_then.
  destruct (a self) as [s1|e s1]; cbn [bind final] in *; [|done].
  eapply declares_only_imports_trans; [exact Ha|]. by apply Hb.
Qed.

(** The names an import statement binds in the module. *)
Definition import_keys (node : AST) : list string :=
  match node with
  | Import names => map import_key names
  | ImportFrom (Some (String _ _)) names O => map asname_or_name names
  | _ => []
  end.

Definition bound_to_import (self : DeclarationVisitor) (n : string)
    : Prop :=
  exists source d, children (module_ self) !! n = Some (DImport source d).

Lemma declares_only_imports_keeps self self' n :
  declares_only_imports self self' ->
  bound_to_import self n -> bound_to_import self' n.
Proof.
  intros (_ & _ & Hc) (source & d & Hn).
  destruct (Hc n) as [E|E]; [|exact E]. exists source, d. by rewrite E.
Qed.

Lemma visit_binds_import_keys node self self' n :
  visit node self = Ok self' -> In n (import_keys node) ->
  bound_to_import self' n.
Proof.
  destruct node; try by intros _ [].
  - intros [= <-] (a & <- & Ha)%in_map_iff.
    rewrite (fold_left_ext _
               (fun s a =>
                  set_module
                    (set_child (import_key a) (import_val (optimize s) a)
                               (module_ s)) s))
      by (intros; apply import_name_binding).
    destruct (fold_bindings import_key import_val names self)
      as (_ & _ & Hbound).
    destruct (Hbound a Ha) as (pre & last & post & _ & _ & _ & Hlook).
    unfold import_val in Hlook. by eexists _, _.
  - destruct module as [[|c m]|]; try by intros _ [].
    destruct level; [|by intros _ []].
    intros [= <-] (a & <- & Ha)%in_map_iff.
    destruct (fold_bindings asname_or_name
                (fun opt a =>
                   DImport (Some (String c m, alias_name a))
                     (mk_DeferredImport (String c m) opt
                        (Some (alias_name a)) None))
                names self) as (_ & _ & Hbound).
    destruct (Hbound a Ha) as (pre & last & post & _ & _ & _ & Hlook).
    by eexists _, _.
Qed.

(** An import that is a statement of a list visited below a nested or
    function scope is bound when the visit of the list returns. *)
Lemma direct_imports_bound nodes self self' node n :
  in_opaque (scopes self) ->
  visit_list visit nodes self = Ok self' ->
  In node nodes -> In n (import_keys node) -> bound_to_import self' n.
Proof.
  revert self. induction nodes as [|x rest IH]; intros self Hsc; [done|].
  rewrite visit_list_cons. unfold and_then.
  destruct (visit x self) as [self1|] eqn:E1; [|done]. cbn [bind].
  intros Erest Hin Hn.
  pose proof (visit_balanced _ _ _ E1) as Hbal.
  assert (in_opaque (scopes self1)) as Hsc1 by (by rewrite Hbal).
  destruct Hin as [->|Hin]; [|by eapply IH].
  pose proof (visit_list_declares_only_imports rest self1 Hsc1) as Hrest.
  rewrite Erest in Hrest. cbn [final] in Hrest.
  eapply declares_only_imports_keeps; [exact Hrest|].
  by eapply visit_binds_import_keys.
Qed.

Lemma nested_returns nodes self self' :
  (enter_scope NestedScope >> visit_list visit nodes >> exit_scope) self
    = Ok self' ->
  exists inner,
    visit_list visit nodes
      (set_scopes (scopes self ++ [NestedScope]) self) = Ok inner /\
    self' = set_scopes (scopes self) inner.
Proof.
  unfold and_then, enter_scope. cbn [bind].
  destruct (visit_list visit nodes _) as [inner|] eqn:E; [|done].
  cbn [bind]. pose proof (visit_list_balanced _ _ _ E) as Hbal.
  cbn [scopes set_scopes] in Hbal. rewrite (exit_scope_snoc _ _ _ Hbal).
  intros [= <-]. by exists inner.
Qed.

Lemma nested_imports_bound nodes self self' node n :
  (enter_scope NestedScope >> visit_list visit nodes >> exit_scope) self
    = Ok self' ->
  In node nodes -> In n (import_keys node) -> bound_to_import self' n.
Proof.
  intros (inner & Hinner & ->)%nested_returns Hin Hn.
  assert (bound_to_import inner n) as (source & d & H).
  { eapply direct_imports_bound; [|exact Hinner|exact Hin|exact Hn].
    by apply in_opaque_push. }
  by exists source, d.
Qed.

Lemma nested_keeps_imports nodes self self' n :
  (enter_scope NestedScope >> visit_list visit nodes >> exit_scope) self
    = Ok self' ->
  bound_to_import self n -> bound_to_import self' n.
Proof.
  intros Hok. apply declares_only_imports_keeps.
  pose proof (final_nested_only (visit_list visit nodes) self) as H.
  rewrite Hok in H. apply H. intros s Hs.
  by apply visit_list_declares_only_imports.
Qed.

(** X9.  An [if] whose test is neither [TYPE_CHECKING] nor a check of
    the interpreter version has both branches visited in nested scopes:
    its visit is the visit of the body inside a nested scope followed,
    when there is an [else] branch, by the visit of that branch inside
    another.  So, whatever the objects are before, and whether the
    visit returns or raises, no class gets a member or the
    [__init_subclass__] mark, and a name of the module keeps its
    declaration or is bound to an import of a branch; and when the
    visit returns, every name that an import statement of either branch
    binds is bound to an import in the module. *)
Theorem X9_plain_if_declares_only_imports test body orelse self :
  is_TYPE_CHECKING test = false ->
  sys_hexversion_check (If test body orelse) = None ->
  let self' := final (visit (If test body orelse) self) in
  members self' = members self /\
  has_init_subclass self' = has_init_subclass self /\
  (forall n : string,
     children (module_ self') !! n = children (module_ self) !! n \/
     exists source d,
       children (module_ self') !! n = Some (DImport source d)) /\
  visit (If test body orelse) self =
    ((enter_scope NestedScope >> visit_list visit body >> exit_scope) >>
     match orelse with
     | [] => Ok
     | _ :: _ =>
         enter_scope NestedScope >> visit_list visit orelse >> exit_scope
     end) self /\
  (forall done node n,
     visit (If test body orelse) self = Ok done ->
     In node (body ++ orelse) -> In n (import_keys node) ->
     exists source d,
       children (module_ done) !! n = Some (DImport source d)).
Proof.
  intros Htest Hversion. cbn zeta.
  assert (visit (If test body orelse) self =
          ((enter_scope NestedScope >> visit_list visit body >>
            exit_scope) >>
           match orelse with
           | [] => Ok
           | _ :: _ =>
               enter_scope NestedScope >> visit_list visit orelse >>
               exit_scope
           end) self) as Heq.
  { rewrite visit_If. unfold visitIf, visit_orelse_nested.
    by rewrite Htest, Hversion. }
  assert (forall nodes s,
            declares_only_imports s
              (final ((enter_scope NestedScope >> visit_list visit nodes >>
                       exit_scope) s))) as Hnested.
  { intros nodes s. apply final_nested_only. intros s' Hs'.
    by apply visit_list_declares_only_imports. }
  assert (declares_only_imports self
            (final (visit (If test body orelse) self)))
    as (Hm & Hi & Hc).
  { rewrite Heq. apply final_seq_declares_only_imports; [apply Hnested|].
    intros s1 _.
    destruct orelse; [by apply declares_only_imports_same|apply Hnested]. }
  split; [exact Hm|]. split; [exact Hi|]. split; [exact Hc|].
  split; [exact Heq|].
  intros done node n. rewrite Heq. unfold and_then at 1.
  destruct ((enter_scope NestedScope >> visit_list visit body >>
             exit_scope) self) as [s1|] eqn:Ebody; [|done].
  cbn [bind]. intros Hdone [Hin|Hin]%in_app_or Hn.
  - assert (bound_to_import s1 n) as Hs1
      by (by eapply nested_imports_bound).
    destruct orelse; [by injection Hdone as <-|].
    by eapply nested_keeps_imports.
  - destruct orelse as [|x orelse]; [done|].
    by eapply nested_imports_bound.
Qed.

(** X10.  A class definition in the module scope with a named-tuple,
    protocol or typed-dict base among its resolved bases is dynamic
    whatever its other bases and its decorators are: when its visit
    returns, the module binds its name to the exact type of the dynamic
    class and the node has that type.  Its body was visited in a nested
    scope: no class gets a member or the [__init_subclass__] mark, and
    every other name of the module keeps its declaration or is bound to
    an import of the body. *)
Theorem X10_marker_base_makes_class_dynamic name bases decorator_list body
    self self' :
  let node := ClassDef name bases decorator_list body in
  last (scopes self) = Some ScModuleTable ->
  existsb is_marker (resolve_bases self bases) = true ->
  visit node self = Ok self' ->
  children (module_ self') !! name = Some (DClass (exact_type dynamic)) /\
  hd_error (types (module_ self')) =
    Some (node, TClass (exact_type dynamic)) /\
  members self' = members self /\
  has_init_subclass self' = has_init_subclass self /\
  (forall n : string,
     n <> name ->
     children (module_ self') !! n = children (module_ self) !! n \/
     exists source d,
       children (module_ self') !! n = Some (DImport source d)).
Proof.
  intros node Htop Hmarker Hok.
  apply visit_ClassDef_effect in Hok
    as (first & rest & top & self_body & Hsub & Htop' & Hbody & ->).
  assert (top = ScModuleTable) as -> by congruence.
  assert (class_of_bases ScModuleTable (resolve_bases self bases) first =
          dynamic) as Hraw
    by (unfold class_of_bases; cbn; by rewrite Hmarker).
  cbn zeta in *. rewrite Hraw in *. rewrite apply_decorators_dynamic.
  rewrite decide_True in Hbody by done.
  destruct (members_checked (ClassDef name bases decorator_list body)
              (resolve_bases self bases) first (first :: rest) self)
    as (Hm0 & Hi0 & Hmod0 & _).
  match type of Hbody with
  | visit_list visit body ?s = _ =>
      pose proof (visit_list_declares_only_imports body s) as Hframe
  end.
  rewrite Hbody in Hframe. cbn [final] in Hframe.
  destruct Hframe as (Hm & Hi & Hc); [by apply in_opaque_push|].
  cbn [members has_init_subclass module_ set_scopes] in Hm, Hi, Hc.
  rewrite Hm0 in Hm. rewrite Hi0 in Hi.
  rewrite Hmod0 in Hc. cbn.
  split; [apply lookup_insert_eq|]. split; [done|].
  split; [done|]. split; [done|]. by apply only_imports_added_insert.
Qed.

(** X11.  A class definition without bases has the one implicit base
    [object].  In the module scope, without decorators and with
    [object] no marker base, the module binds its name, when the visit
    returns, to the exact type of the subclass that [object] makes for
    the module and the name with [[object]] as the bases, and the node
    has that type. *)
Theorem X11_class_without_bases name body self self' :
  let node := ClassDef name [] [] body in
  let klass :=
    make_subclass object (mk_TypeName (module_name self) name) [object] in
  resolve_bases self [] = [object] /\
  (last (scopes self) = Some ScModuleTable -> is_marker object = false ->
   visit node self = Ok self' ->
   children (module_ self') !! name = Some (DClass (exact_type klass)) /\
   hd_error (types (module_ self')) = Some (node, TClass (exact_type klass))).
Proof.
  intros node klass. split; [reflexivity|].
  intros Htop Hobject Hok.
  apply visit_ClassDef_effect in Hok
    as (first & rest & top & self_body & Hsub & Htop' & _ & ->).
  assert (top = ScModuleTable) as -> by congruence.
  change ([klass] = first :: rest) in Hsub. injection Hsub as <- <-.
  assert (class_of_bases ScModuleTable (resolve_bases self []) klass = klass)
    as Hraw.
  { unfold class_of_bases. change (resolve_bases self []) with [object].
    cbn [is_ModuleTable existsb]. by rewrite Hobject. }
  cbn zeta. rewrite Hraw. cbn [rev apply_decorators].
  split; [apply lookup_insert_eq|done].
Qed.

(** X12.  A class definition whose bases make subclasses of one kind
    and none of whose bases is final reports nothing by itself: when
    its visit returns, its body was visited from the objects as they
    were before, with one scope pushed, and the sink holds what that
    visit of the body left. *)
Theorem X12_sound_class_reports_nothing name bases decorator_list body self
    self' :
  let node := ClassDef name bases decorator_list body in
  let klasses := make_subclasses self name (resolve_bases self bases) in
  (forall k1 k2, In k1 klasses -> In k2 klasses ->
                 type_of k1 = type_of k2) ->
  (forall base, In base (resolve_bases self bases) ->
                is_final base = false) ->
  visit node self = Ok self' ->
  exists pushed self_body,
    visit_list visit body (set_scopes (scopes self ++ [pushed]) self)
      = Ok self_body /\
    error_sink self' = error_sink self_body.
Proof.
  intros node klasses Hkinds Hfinal Hok.
  apply visit_ClassDef_effect in Hok
    as (first & rest & top & self_body & Hsub & Htop & Hbody & ->).
  cbn zeta in *. fold klasses in Hsub.
  rewrite check_subtypes_agree in Hbody.
  2:{ intros k Hk. apply Hkinds; rewrite Hsub; [done|by left]. }
  rewrite check_bases_no_final in Hbody by done.
  eexists _, self_body. split; [exact Hbody|]. cbn.
  by destruct top.
Qed.

(** Below a scope that is not the module, the module's table changes
    only by imports. *)
Definition module_gets_only_imports (self self' : DeclarationVisitor)
    : Prop :=
  only_imports_added (children (module_ self)) (children (module_ self')).

Lemma module_gets_only_imports_same self self' :
  children (module_ self') = children (module_ self) ->
  module_gets_only_imports self self'.
Proof. intros E n. left. by rewrite E. Qed.

Lemma module_gets_only_imports_trans s1 s2 s3 :
  module_gets_only_imports s1 s2 -> module_gets_only_imports s2 s3 ->
  module_gets_only_imports s1 s3.
Proof.
  intros C1 C2 n. destruct (C2 n) as [E|?]; [|by right].
  rewrite E. apply C1.
Qed.

(** X13.  While the top of the stack is not the module, be it a class,
    a function or a nested scope, no visit declares a class, a function
    or a variable in the module: whether it returns or raises, every
    name of the module keeps its declaration or is bound to an
    import. *)
Theorem X13_module_untouched_below_module_scope node self :
  last (scopes self) <> Some ScModuleTable ->
  forall n : string,
    children (module_ (final (visit node self))) !! n =
      children (module_ self) !! n \/
    exists source d,
      children (module_ (final (visit node self))) !! n =
        Some (DImport source d).
Proof.
  intros Hsc.
  apply (visit_respects not_in_module module_gets_only_imports);
    try done.
  - intros s. by apply module_gets_only_imports_same.
  - apply module_gets_only_imports_trans.
  - intros s sc. by apply module_gets_only_imports_same.
  - intros s _. by apply not_in_module_push.
  - intros s func _. by apply not_in_module_push.
  - intros s top klass _ _ _ _. by apply not_in_module_push.
  - intros s top name d HP Htop. apply module_gets_only_imports_same.
    pose proof (not_in_module_top _ _ HP Htop). by destruct top.
  - intros s msg n. by apply module_gets_only_imports_same.
  - intros s top n klass _ _ _. by apply module_gets_only_imports_same.
  - intros s n t _. by apply module_gets_only_imports_same.
  - intros s klass _ _. by apply module_gets_only_imports_same.
  - intros s name source d n. cbn.
    destruct (decide (name = n)) as [->|Hne].
    + right. rewrite lookup_insert_eq. eauto.
    + left. by rewrite lookup_insert_ne.
  - intros s test value. by apply module_gets_only_imports_same.
Qed.
End Definitions.

(** ** The further properties on the small type environment *)

Lemma X1_scope_stack_balanced_witness :
  visit A fresh = Ok with_A /\ scopes with_A = scopes fresh.
Proof.
  assert (visit A fresh = Ok with_A) as H by (vm_compute; reflexivity).
  split; [exact H|].
  exact (proj1 (X1_scope_stack_balanced A [] "m" "m.py" 0 [] fresh with_A)
               H).
Defined.

(** [for i in xs: from . import x] *)
Lemma X2_only_relative_imports_raise_witness :
  let node :=
    For (Name "i") (Name "xs") [ImportFrom None [mk_alias "x" None] 1] [] in
  let left := set_scopes [ScModuleTable; NestedScope] fresh in
  scopes fresh <> [] /\
  visit node fresh = Raise relative_import_error left /\
  relative_import_error = relative_import_error /\
  no_relative_import node = false.
Proof.
  intros node left.
  assert (scopes fresh <> []) as H1 by discriminate.
  assert (visit node fresh = Raise relative_import_error left) as H2
    by (vm_compute; reflexivity).
  split; [exact H1|]. split; [exact H2|].
  exact (X2_only_relative_imports_raise node fresh relative_import_error
           left H1 H2).
Defined.

(** [import x.y, a.b.c as x]: the second alias binds [x] too, and
    wins. *)
Lemma X4_import_binds_its_names_witness :
  exists self',
    visit (Import [mk_alias "x.y" None; mk_alias "a.b.c" (Some "x")]) fresh
      = Ok self' /\
    children (module_ self') !! "Final1" = children (module_ fresh) !! "Final1"
    /\
    exists before last after,
      [mk_alias "x.y" None; mk_alias "a.b.c" (Some "x")] =
        before ++ last :: after /\
      (forall b, In b after -> import_key b <> "x") /\
      children (module_ self') !! "x" = Some (import_val 0 last).
Proof.
  destruct (X4_import_binds_its_names
              [mk_alias "x.y" None; mk_alias "a.b.c" (Some "x")] fresh)
    as (self' & Hok & _ & _ & Hother & Hbound).
  exists self'. split; [exact Hok|]. split.
  - apply Hother. intros a [<-|[<-|[]]]; vm_compute; discriminate.
  - destruct (Hbound (mk_alias "x.y" None))
      as (before & last & after & Hnames & _ & Hafter & Hlook);
      [by left|].
    exists before, last, after. split; [exact Hnames|].
    split; [exact Hafter|exact Hlook].
Defined.

Lemma X5_top_level_module_is_first_segment_witness :
  occurs dot "foo" = false /\ top_level_module "foo" = "foo".
Proof.
  assert (occurs dot "foo" = false) as H by reflexivity.
  split; [exact H|].
  exact (proj2 (proj2 (X5_top_level_module_is_first_segment "foo")) H).
Defined.

(** [from pkg import z, w as z]: [z] is bound to [pkg.w]. *)
Lemma X6_from_import_binds_its_names_witness :
  exists self' before last after,
    visit (ImportFrom (Some "pkg")
             [mk_alias "z" None; mk_alias "w" (Some "z")] 0) fresh
      = Ok self' /\
    [mk_alias "z" None; mk_alias "w" (Some "z")] = before ++ last :: after /\
    (forall b, In b after -> asname_or_name b <> "z") /\
    children (module_ self') !! "z" =
      Some (DImport (Some ("pkg", alias_name last))
              (mk_DeferredImport "pkg" 0 (Some (alias_name last)) None)).
Proof.
  destruct (X6_from_import_binds_its_names "p" "kg"
              [mk_alias "z" None; mk_alias "w" (Some "z")] fresh)
    as (self' & Hok & _ & Hbound).
  destruct (Hbound (mk_alias "z" None))
    as (before & last & after & Hnames & _ & Hafter & Hlook); [by left|].
  exists self', before, last, after.
  split; [exact Hok|]. split; [exact Hnames|].
  split; [exact Hafter|exact Hlook].
Defined.

(** [def f(): pass] in the module *)
Lemma X7_function_declared_in_module_witness :
  let node := FunctionDef "f" None [] [Pass] in
  last (scopes fresh) = Some ScModuleTable /\
  visit node fresh = Ok (final (visit node fresh)) /\
  children (module_ (final (visit node fresh))) !! "f" =
    Some (DFunction
            (mk_Function node "f" (type_ref false None)
                         (bool_decide ("f" = "__init_subclass__")))).
Proof.
  intros node.
  assert (last (scopes fresh) = Some ScModuleTable) as H1 by reflexivity.
  assert (visit node fresh = Ok (final (visit node fresh))) as H2
    by (vm_compute; reflexivity).
  split; [exact H1|]. split; [exact H2|].
  exact (proj1 (X7_function_declared_in_module false "f" None [] [Pass]
                  fresh _ H1 H2)).
Defined.

(** [def __init_subclass__(cls): pass] in the body of the class [A] *)
Lemma X8_method_declared_in_class_witness :
  let node := FunctionDef "__init_subclass__" None [] [Pass] in
  let self :=
    set_scopes [ScModuleTable; ScClass (Plain "A" false)] fresh in
  last (scopes self) = Some (ScClass (Plain "A" false)) /\
  visit node self = Ok (final (visit node self)) /\
  has_init_subclass (final (visit node self)) =
    (if bool_decide ("__init_subclass__" = "__init_subclass__")
     then Plain "A" false :: has_init_subclass self
     else has_init_subclass self).
Proof.
  intros node self.
  assert (last (scopes self) = Some (ScClass (Plain "A" false))) as H1
    by reflexivity.
  assert (visit node self = Ok (final (visit node self))) as H2
    by (vm_compute; reflexivity).
  split; [exact H1|]. split; [exact H2|].
  exact (proj1 (proj2 (X8_method_declared_in_class false
                         "__init_subclass__" None [] [Pass]
                         (Plain "A" false) self _ H1 H2))).
Defined.

(** [if cond: class A: pass] *)
Lemma X9_plain_if_declares_only_imports_witness :
  is_TYPE_CHECKING (Name "cond") = false /\
  sys_hexversion_check (If (Name "cond") [A] []) = None /\
  members (final (visit (If (Name "cond") [A] []) fresh)) = members fresh.
Proof.
  assert (is_TYPE_CHECKING (Name "cond") = false) as H1 by reflexivity.
  assert (sys_hexversion_check (If (Name "cond") [A] []) = None) as H2
    by reflexivity.
  split; [exact H1|]. split; [exact H2|].
  exact (proj1 (X9_plain_if_declares_only_imports (Name "cond") [A] [] fresh
                  H1 H2)).
Defined.

(** [class P(NamedTuple): pass] *)
Lemma X10_marker_base_makes_class_dynamic_witness :
  let node := ClassDef "P" [Name "NamedTuple"] [] [Pass] in
  last (scopes fresh) = Some ScModuleTable /\
  existsb is_marker (resolve_bases fresh [Name "NamedTuple"]) = true /\
  visit node fresh = Ok (final (visit node fresh)) /\
  children (module_ (final (visit node fresh))) !! "P" =
    Some (DClass (exact_type dynamic)).
Proof.
  intros node.
  assert (last (scopes fresh) = Some ScModuleTable) as H1 by reflexivity.
  assert (existsb is_marker (resolve_bases fresh [Name "NamedTuple"]) = true)
    as H2 by (by vm_compute).
  assert (visit node fresh = Ok (final (visit node fresh))) as H3
    by (vm_compute; reflexivity).
  split; [exact H1|]. split; [exact H2|]. split; [exact H3|].
  exact (proj1 (X10_marker_base_makes_class_dynamic "P" [Name "NamedTuple"]
                  [] [Pass] fresh _ H1 H2 H3)).
Defined.

Lemma X11_class_without_bases_witness :
  last (scopes fresh) = Some ScModuleTable /\
  is_marker object = false /\
  visit A fresh = Ok with_A /\
  children (module_ with_A) !! "A" =
    Some (DClass (exact_type
                    (make_subclass object (mk_TypeName (module_name fresh) "A")
                                   [object]))).
Proof.
  assert (last (scopes fresh) = Some ScModuleTable) as H1 by reflexivity.
  assert (is_marker object = false) as H2 by reflexivity.
  assert (visit A fresh = Ok with_A) as H3 by (vm_compute; reflexivity).
  split; [exact H1|]. split; [exact H2|]. split; [exact H3|].
  exact (proj1 (proj2 (X11_class_without_bases "A" [Pass] fresh with_A)
                      H1 H2 H3)).
Defined.

Lemma X12_sound_class_reports_nothing_witness :
  (forall k1 k2,
     In k1 (make_subclasses fresh "A" (resolve_bases fresh [])) ->
     In k2 (make_subclasses fresh "A" (resolve_bases fresh [])) ->
     type_of k1 = type_of k2) /\
  (forall base, In base (resolve_bases fresh []) -> is_final base = false) /\
  visit A fresh = Ok with_A /\
  exists pushed self_body,
    visit_list visit [Pass] (set_scopes (scopes fresh ++ [pushed]) fresh)
      = Ok self_body /\
    error_sink with_A = error_sink self_body.
Proof.
  assert (forall k1 k2,
            In k1 (make_subclasses fresh "A" (resolve_bases fresh [])) ->
            In k2 (make_subclasses fresh "A" (resolve_bases fresh [])) ->
            type_of k1 = type_of k2) as H1
    by (by intros k1 k2 [<-|[]] [<-|[]]).
  assert (forall base, In base (resolve_bases fresh []) ->
                       is_final base = false) as H2
    by (by intros base [<-|[]]).
  assert (visit A fresh = Ok with_A) as H3 by (vm_compute; reflexivity).
  split; [exact H1|]. split; [exact H2|]. split; [exact H3|].
  exact (X12_sound_class_reports_nothing "A" [] [] [Pass] fresh with_A
           H1 H2 H3).
Defined.

(** [class A: pass] met inside a loop *)
Lemma X13_module_untouched_below_module_scope_witness :
  let self := set_scopes [ScModuleTable; NestedScope] fresh in
  last (scopes self) <> Some ScModuleTable /\
  (children (module_ (final (visit A self))) !! "A" =
     children (module_ self) !! "A" \/
   exists source d,
     children (module_ (final (visit A self))) !! "A" =
       Some (DImport source d)).
Proof.
  intros self.
  assert (last (scopes self) <> Some ScModuleTable) as H by discriminate.
  split; [exact H|].
  exact (X13_module_untouched_below_module_scope A self H "A").
Defined.

(** ** Assignments *)

Section Assignments.
Context `{TI : TypesInterface} `{MI : !ModuleInterface}.

(** X14.  An annotated or plain assignment met while a nested scope is
    on top of the stack changes nothing at all, whatever its targets;
    met on an empty stack it raises [IndexError], again with nothing
    changed. *)
Theorem X14_assignments_in_nested_scope target annotation targets self :
  (last (scopes self) = Some NestedScope ->
   visit (AnnAssign target annotation) self = Ok self /\
   visit (Assign targets) self = Ok self) /\
  (scopes self = [] ->
   visit (AnnAssign target annotation) self =
     Raise (IndexError "list index out of range") self /\
   visit (Assign targets) self =
     Raise (IndexError "list index out of range") self).
Proof.
  split.
  - intros Htop.
    change (visit (AnnAssign target annotation) self)
      with (visitAnnAssign target annotation self).
    change (visit (Assign targets) self) with (visitAssign targets self).
    unfold visitAnnAssign, visitAssign, parent_scope. by rewrite Htop.
  - intros Hempty.
    change (visit (AnnAssign target annotation) self)
      with (visitAnnAssign target annotation self).
    change (visit (Assign targets) self) with (visitAssign targets self).
    unfold visitAnnAssign, visitAssign, parent_scope. by rewrite Hempty.
Qed.
End Assignments.

(** [x: int = ...] and [x = y = ...] inside a loop *)
Lemma X14_assignments_in_nested_scope_witness :
  let self := set_scopes [ScModuleTable; NestedScope] fresh in
  last (scopes self) = Some NestedScope /\
  visit (AnnAssign (Name "x") (Name "int")) self = Ok self /\
  visit (Assign [Name "x"; Name "y"]) self = Ok self.
Proof.
  intros self.
  assert (last (scopes self) = Some NestedScope) as H by reflexivity.
  split; [exact H|].
  exact (proj1 (X14_assignments_in_nested_scope (Name "x") (Name "int")
                  [Name "x"; Name "y"] self) H).
Defined.

(** ** Where the reports of a visit are attributed *)

(** The number of nodes of a tree. *)
Fixpoint size (node : AST) : nat :=
  match node with
  | ClassDef _ _ _ body
  | FunctionDef _ _ _ body
  | AsyncFunctionDef _ _ _ body
  | With _ body
  | AsyncWith _ body
  | ExceptHandler _ body => S (list_sum (map size body))
  | For _ _ body orelse
  | AsyncFor _ _ body orelse
  | While _ body orelse
  | If _ body orelse =>
      S (list_sum (map size body) + list_sum (map size orelse))
  | Try body handlers orelse finalbody =>
      S (list_sum (map size body) + list_sum (map size handlers) +
         list_sum (map size orelse) + list_sum (map size finalbody))
  | _ => 1
  end.

Section ReportSites.
Context `{TI : TypesInterface} `{MI : !ModuleInterface}.

(** The reports that were in the sink are kept, and every report that
    was added is attributed to a node of at most [N] nodes. *)
Definition sites_within (N : nat) (self self' : DeclarationVisitor)
    : Prop :=
  exists new,
    error_sink self' = error_sink self ++ new /\
    Forall (fun report : string * AST * string => size report.1.2 <= N) new.

Lemma sites_within_same N self self' :
  error_sink self' = error_sink self -> sites_within N self self'.
Proof. intros E. exists []. by rewrite app_nil_r. Qed.

Lemma sites_within_refl N self : sites_within N self self.
Proof. by apply sites_within_same. Qed.

Lemma sites_within_trans N s1 s2 s3 :
  sites_within N s1 s2 -> sites_within N s2 s3 -> sites_within N s1 s3.
Proof.
  intros (n1 & E1 & H1) (n2 & E2 & H2). exists (n1 ++ n2).
  split; [by rewrite E2, E1, app_assoc|]. by apply Forall_app.
Qed.

Lemma sites_within_set_scopes N self s :
  sites_within N self (set_scopes s self).
Proof. by apply sites_within_same. Qed.

Lemma sites_within_syntax_error N msg node self :
  size node <= N -> sites_within N self (syntax_error msg node self).
Proof.
  intros Hn. exists [(filename self, node, msg)]. split; [done|].
  by constructor.
Qed.

Lemma sites_within_check_subtypes N node first klasses self :
  size node <= N ->
  sites_within N self (check_subtypes node first klasses self).
Proof.
  intros Hn. revert self.
  induction klasses as [|k ks IH]; intros self;
    [apply sites_within_refl|].
  cbn [check_subtypes]. case_decide; [apply IH|].
  eapply sites_within_trans; [by apply sites_within_syntax_error|apply IH].
Qed.

Lemma sites_within_check_bases N node bases klass self :
  size node <= N ->
  sites_within N self (check_bases node bases klass self).2.
Proof.
  intros Hn. revert self.
  induction bases as [|b bs IH]; intros self; [apply sites_within_refl|].
  cbn [check_bases]. repeat case_decide; try apply sites_within_refl.
  destruct (is_final b); [|apply IH].
  eapply sites_within_trans; [by apply sites_within_syntax_error|apply IH].
Qed.

(** Every report that [a] adds is attributed to a node of at most [N]
    nodes. *)
Definition inside (N : nat) (a : action) : Prop :=
  respects (sites_within N) (fun _ => True) a.

Lemma error_sink_declare scope name d self :
  error_sink (declare scope name d self) = error_sink self.
Proof. by destruct scope. Qed.

Lemma error_sink_declare_names scope targets self :
  error_sink
    (fold_left
       (fun s target =>
          match target with
          | Name id => declare scope id (DVariable None) s
          | _ => s
          end) targets self) = error_sink self.
Proof.
  revert self. induction targets as [|t ts IH]; intros self; [done|].
  cbn [fold_left]. rewrite IH. destruct t; try done.
  apply error_sink_declare.
Qed.

Lemma error_sink_imports names self :
  error_sink (fold_left (fun s name => import_name name s) names self) =
  error_sink self.
Proof.
  revert self. induction names as [|n ns IH]; intros self; [done|].
  cbn [fold_left]. rewrite IH. unfold import_name.
  by destruct (alias_asname n).
Qed.

Lemma error_sink_imports_from mod_name names self :
  error_sink (fold_left (fun s name => import_from_name mod_name name s)
                        names self) = error_sink self.
Proof.
  revert self. induction names as [|n ns IH]; intros self; [done|].
  cbn [fold_left]. by rewrite IH.
Qed.

Lemma inside_visit_list N nodes :
  Forall (fun node => forall M, size node <= M -> inside M (visit node))
         nodes ->
  list_sum (map size nodes) <= N -> inside N (visit_list visit nodes).
Proof.
  intros Hall Hsum.
  apply respects_visit_list;
    [apply sites_within_refl|apply sites_within_trans|].
  revert Hsum. induction Hall as [|x rest Hx _ IH]; [done|].
  cbn [map].
  change (list_sum (size x :: map size rest))
    with (size x + list_sum (map size rest)).
  intros Hsum. constructor.
  - apply Hx. lia.
  - apply IH. lia.
Qed.

(** What follows the two loops over the bases in [visitClassDef]: the
    reports it adds are those of the body. *)
Lemma visitClassDef_sites N node name bases decorator_list body self first
    rest :
  make_subclasses self name (resolve_bases self bases) = first :: rest ->
  inside N (visit_list visit body) ->
  let checked :=
    (check_bases node (resolve_bases self bases) first
       (check_subtypes node first (first :: rest) self)).2 in
  sites_within N checked
    (final (visitClassDef node name bases decorator_list
                          (visit_list visit body) self)).
Proof.
  intros Hsub Hbody. cbn zeta. unfold visitClassDef. rewrite Hsub.
  destruct (check_bases _ _ _ _) as [klass self2]. cbn [snd].
  apply (respects_parent_scope (sites_within N) (sites_within_refl N)
           (fun _ => True)); [|done].
  intros top.
  apply respects_nested with (S' := fun _ => True);
    [apply sites_within_trans|apply sites_within_set_scopes|done
    |apply visit_list_balanced|exact Hbody|].
  apply respects_pure. intros s _. apply sites_within_same. cbn.
  by destruct top.
Qed.

Lemma visit_inside node : forall N, size node <= N -> inside N (visit node).
Proof.
  induction node using AST_nested_ind; intros N HN; cbn [size] in HN.
  - apply respects_parent_scope; [apply sites_within_refl|].
    intros top. apply respects_pure. intros self _.
    apply sites_within_same. destruct top, t; try done;
      apply error_sink_declare.
  - apply respects_parent_scope; [apply sites_within_refl|].
    intros top. apply respects_pure. intros self _.
    apply sites_within_same. destruct top; try done;
      apply error_sink_declare_names.
  - rewrite visit_ClassDef. intros self _.
    assert (inside N (visit_list visit body)) as Hbody
      by (apply inside_visit_list; [done|lia]).
    destruct (make_subclasses self n (resolve_bases self bs))
      as [|first rest] eqn:Hsub.
    { unfold visitClassDef. rewrite Hsub. apply sites_within_refl. }
    eapply sites_within_trans;
      [apply (sites_within_check_subtypes N (ClassDef n bs ds body) first
                (first :: rest)); cbn [size]; lia|].
    eapply sites_within_trans;
      [apply (sites_within_check_bases N (ClassDef n bs ds body)
                (resolve_bases self bs) first); cbn [size]; lia|].
    by apply visitClassDef_sites.
  - rewrite visit_FunctionDef.
    apply respects_visitFunc_body with (S' := fun _ => True);
      try done; try apply visit_list_balanced.
    + apply sites_within_refl.
    + apply sites_within_trans.
    + apply sites_within_set_scopes.
    + intros s top name d _ _. apply sites_within_same.
      apply error_sink_declare.
    + intros s nd t _. by apply sites_within_same.
    + intros s klass _ _. by apply sites_within_same.
    + apply inside_visit_list; [done|lia].
  - rewrite visit_AsyncFunctionDef.
    apply respects_visitFunc_body with (S' := fun _ => True);
      try done; try apply visit_list_balanced.
    + apply sites_within_refl.
    + apply sites_within_trans.
    + apply sites_within_set_scopes.
    + intros s top name d _ _. apply sites_within_same.
      apply error_sink_declare.
    + intros s nd t _. by apply sites_within_same.
    + intros s klass _ _. by apply sites_within_same.
    + apply inside_visit_list; [done|lia].
  - apply respects_pure. intros self _. apply sites_within_same.
    apply error_sink_imports.
  - intros self _. cbn. unfold visitImportFrom.
    destruct m as [[|c s]|]; try apply sites_within_refl.
    destruct l; [|apply sites_within_refl]. apply sites_within_same.
    apply error_sink_imports_from.
  - apply respects_loop;
      [apply sites_within_refl|apply sites_within_trans
      |apply sites_within_set_scopes|done| |].
    + apply balanced_seq; apply visit_list_balanced.
    + apply respects_seq;
        [apply sites_within_trans|apply visit_list_balanced|..];
        (apply inside_visit_list; [done|lia]).
  - apply respects_loop;
      [apply sites_within_refl|apply sites_within_trans
      |apply sites_within_set_scopes|done| |].
    + apply balanced_seq; apply visit_list_balanced.
    + apply respects_seq;
        [apply sites_within_trans|apply visit_list_balanced|..];
        (apply inside_visit_list; [done|lia]).
  - apply respects_loop;
      [apply sites_within_refl|apply sites_within_trans
      |apply sites_within_set_scopes|done| |].
    + apply balanced_seq; apply visit_list_balanced.
    + apply respects_seq;
        [apply sites_within_trans|apply visit_list_balanced|..];
        (apply inside_visit_list; [done|lia]).
  - rewrite visit_If.
    apply respects_visitIf;
      [apply sites_within_refl|apply sites_within_trans
      |apply sites_within_set_scopes|done| | | | |];
      try apply visit_list_balanced.
    + intros s test value. by apply sites_within_same.
    + apply inside_visit_list; [done|lia].
    + apply inside_visit_list; [done|lia].
  - apply respects_loop;
      [apply sites_within_refl|apply sites_within_trans
      |apply sites_within_set_scopes|done|apply visit_list_balanced|].
    apply inside_visit_list; [done|lia].
  - apply respects_loop;
      [apply sites_within_refl|apply sites_within_trans
      |apply sites_within_set_scopes|done|apply visit_list_balanced|].
    apply inside_visit_list; [done|lia].
  - apply respects_loop;
      [apply sites_within_refl|apply sites_within_trans
      |apply sites_within_set_scopes|done| |].
    + repeat apply balanced_seq; apply visit_list_balanced.
    + repeat (apply respects_seq;
                [apply sites_within_trans|apply visit_list_balanced|..]);
        (apply inside_visit_list; [done|lia]).
  - apply (inside_visit_list N body); [done|lia].
  - apply respects_Ok. apply sites_within_refl.
  - apply respects_Ok. apply sites_within_refl.
Qed.

(** How many of the subclasses are of another kind than the first
    one. *)
Fixpoint differing (first : Value) (klasses : list Value) : nat :=
  match klasses with
  | [] => 0
  | cur_type :: rest =>
      (if decide (type_of cur_type = type_of first) then 0 else 1) +
      differing first rest
  end.

Lemma check_subtypes_sink_exact node first klasses self :
  error_sink (check_subtypes node first klasses self) =
  error_sink self ++
  replicate (differing first klasses)
            (filename self, node, "Incompatible subtypes").
Proof.
  revert self. induction klasses as [|k ks IH]; intros self.
  { cbn. by rewrite app_nil_r. }
  cbn [check_subtypes differing]. rewrite IH. case_decide; [done|].
  cbn. by rewrite <- app_assoc.
Qed.

Lemma check_bases_sink_finals node bases klass self :
  exists finals,
    error_sink (check_bases node bases klass self).2 =
      error_sink self ++ finals /\
    Forall (fun report =>
              exists base,
                report = (filename self, node,
                          final_class_message klass base)) finals.
Proof.
  revert self. induction bases as [|b bs IH]; intros self.
  { exists []. by rewrite app_nil_r. }
  cbn [check_bases].
  repeat case_decide; try (exists []; by rewrite app_nil_r).
  destruct (is_final b); [|apply IH].
  destruct (IH (syntax_error (final_class_message klass b) node self))
    as (finals & Esink & Hfinals).
  exists ((filename self, node, final_class_message klass b) :: finals).
  split; [by rewrite Esink; cbn; rewrite <- app_assoc|].
  constructor; [by exists b|exact Hfinals].
Qed.

Lemma final_class_message_other klass base :
  final_class_message klass base <> "Incompatible subtypes".
Proof.
  unfold final_class_message.
  change ("Class `" +:+ instance_name klass +:+
          "` cannot subclass a Final class: `" +:+ instance_name base +:+
          "`")
    with (String "C" ("lass `" +:+ instance_name klass +:+
                      "` cannot subclass a Final class: `" +:+
                      instance_name base +:+ "`")).
  discriminate.
Qed.

(** C1, amended.  When the subclasses that two bases of a class
    definition synthesize are of different kinds, "Incompatible
    subtypes" is reported at the class definition, once for every
    subclass whose kind differs from the first one's: these reports
    follow what was in the sink, and nothing that follows them, be it
    a report on a final base or a report of the body, is such a report
    at this definition.  The report does not make the class dynamic:
    when the pass returns, the type attached to the definition is the
    one the first base's subclass leads to under the marker bases, the
    parent scope and the decorators. *)
Theorem C1_incompatible_subtypes_reported name bases decorator_list body
    self k1 k2 :
  let node := ClassDef name bases decorator_list body in
  let klasses := make_subclasses self name (resolve_bases self bases) in
  let report := (filename self, node, "Incompatible subtypes") in
  In k1 klasses -> In k2 klasses -> type_of k1 <> type_of k2 ->
  In report (error_sink (final (visit node self))) /\
  (forall self', visit node self = Ok self' ->
     exists first rest top self_body,
       klasses = first :: rest /\ last (scopes self) = Some top /\
       types (module_ self') =
         (node,
          TClass (exact_type
                    (apply_decorators (module_ self_body)
                       (rev decorator_list)
                       (class_of_bases top (resolve_bases self bases)
                                       first))))
         :: types (module_ self_body)) /\
  (exists first rest later,
     klasses = first :: rest /\
     0 < differing first klasses /\
     error_sink (final (visit node self)) =
       error_sink self ++ replicate (differing first klasses) report ++
       later /\
     ~ In report later).
Proof.
  intros node klasses report Hk1 Hk2 Hne.
  assert (exists first rest later,
            klasses = first :: rest /\
            0 < differing first klasses /\
            error_sink (final (visit node self)) =
              error_sink self ++
              replicate (differing first klasses) report ++ later /\
            ~ In report later) as Hexact.
  { subst klasses.
    destruct (make_subclasses self name (resolve_bases self bases))
      as [|first rest] eqn:Hsub; [done|].
    set (N := list_sum (map size body)).
    assert (inside N (visit_list visit body)) as Hbody.
    { apply inside_visit_list; [|done]. apply Forall_forall.
      intros x _ M HM. by apply visit_inside. }
    pose proof (visitClassDef_sites N node name bases decorator_list body
                  self first rest Hsub Hbody) as (new & Enew & Hnew).
    destruct (check_bases_sink_finals node (resolve_bases self bases) first
                (check_subtypes node first (first :: rest) self))
      as (finals & Efinals & Hfinals).
    cbn zeta in Enew. rewrite Efinals, check_subtypes_sink_exact in Enew.
    exists first, rest, (finals ++ new). split; [done|]. split.
    - assert (forall k ks, In k ks -> type_of k <> type_of first ->
                           0 < differing first ks) as Hpos.
      { intros k ks. induction ks as [|x ks IH]; [done|].
        cbn [differing]. intros [->|Hin] Hk.
        - rewrite decide_False by done. lia.
        - specialize (IH Hin Hk). lia. }
      destruct (decide (type_of k1 = type_of first)) as [E|E].
      + apply (Hpos k2); [done|congruence].
      + by apply (Hpos k1).
    - split.
      + unfold node in Enew |- *. rewrite visit_ClassDef.
        unfold report, node. rewrite Enew. by rewrite <- !app_assoc.
      + intros [Hin|Hin]%in_app_or.
        * rewrite Forall_forall in Hfinals.
          destruct (Hfinals report) as (base & Hbase);
            [by apply list_elem_of_In|].
          injection Hbase as Hmsg.
          by apply (final_class_message_other first base).
        * rewrite Forall_forall in Hnew.
          specialize (Hnew report). cbn in Hnew.
          assert (S N <= N) as Habs
            by (apply Hnew; by apply list_elem_of_In).
          lia. }
  split; [|split; [|exact Hexact]].
  - destruct Hexact as (first & rest & later & _ & Hpos & -> & _).
    apply in_or_app. right. apply in_or_app. left.
    destruct (differing first klasses); [lia|]. by left.
  - intros self' Hok.
    apply visit_ClassDef_Ok in Hok
      as (first & rest & top & s_in & s_body & Hsub & Htop & _ & _ & Hty & _).
    by exists first, rest, top, s_body.
Qed.
End ReportSites.

(** ** Relative imports are not recovered from *)

Section RelativeImports.
Context `{TI : TypesInterface} `{MI : !ModuleInterface}.

(** A relative import stands where the visit comes by: in a statement
    list of the node, at any depth, that the visitor does not skip.
    The only lists it skips are the branch of an [if] on the
    interpreter version that the version rules out. *)
Fixpoint visits_relative_import (node : AST) : bool :=
  match node with
  | ImportFrom (Some (String _ _)) _ O => false
  | ImportFrom _ _ _ => true
  | ClassDef _ _ _ body
  | FunctionDef _ _ _ body
  | AsyncFunctionDef _ _ _ body
  | With _ body
  | AsyncWith _ body
  | ExceptHandler _ body => existsb visits_relative_import body
  | For _ _ body orelse
  | AsyncFor _ _ body orelse
  | While _ body orelse =>
      existsb visits_relative_import body ||
      existsb visits_relative_import orelse
  | If test body orelse =>
      if is_TYPE_CHECKING test then
        existsb visits_relative_import body ||
        existsb visits_relative_import orelse
      else
        match sys_hexversion_check node with
        | Some true => existsb visits_relative_import body
        | Some false => existsb visits_relative_import orelse
        | None =>
            existsb visits_relative_import body ||
            existsb visits_relative_import orelse
        end
  | Try body handlers orelse finalbody =>
      existsb visits_relative_import body ||
      existsb visits_relative_import handlers ||
      existsb visits_relative_import orelse ||
      existsb visits_relative_import finalbody
  | _ => false
  end.

(** Started on a stack that is not empty, [a] raises the exception for
    relative imports. *)
Definition raises_unsupported (a : action) : Prop :=
  forall self,
    scopes self <> [] -> exists s, a self = Raise relative_import_error s.

Lemma raises_seq_l a b :
  raises_unsupported a -> raises_unsupported (a >> b).
Proof.
  intros Ha self Hne. destruct (Ha self Hne) as [s E].
  exists s. unfold and_then. by rewrite E.
Qed.

Lemma raises_seq_r a b :
  balanced a -> raises_only_unsupported a -> raises_unsupported b ->
  raises_unsupported (a >> b).
Proof.
  intros Hbal Ha Hb self Hne. unfold and_then.
  destruct (a self) as [self1|e s] eqn:E; cbn [bind].
  - apply Hb. by rewrite (Hbal _ _ E).
  - exists s. by rewrite (Ha _ _ _ Hne E).
Qed.

Lemma raises_after (f : DeclarationVisitor -> DeclarationVisitor) a :
  (forall self, scopes (f self) = scopes self) ->
  raises_unsupported a -> raises_unsupported (fun self => a (f self)).
Proof. intros Hf Ha self Hne. apply Ha. by rewrite Hf. Qed.

Lemma raises_parent_scope k :
  (forall scope, raises_unsupported (k scope)) ->
  raises_unsupported (parent_scope k).
Proof.
  intros Hk self Hne. unfold parent_scope.
  destruct (last (scopes self)) eqn:E; [by apply Hk|].
  by apply last_None in E.
Qed.

Lemma raises_nested scope a k :
  raises_unsupported a ->
  raises_unsupported (enter_scope scope >> a >> exit_scope >> k).
Proof.
  intros Ha self Hne. unfold and_then, enter_scope. cbn [bind].
  destruct (Ha (set_scopes (scopes self ++ [scope]) self)) as [s E].
  { cbn. by destruct (scopes self). }
  exists s. by rewrite E.
Qed.

Lemma raises_nested_only scope a :
  raises_unsupported a ->
  raises_unsupported (enter_scope scope >> a >> exit_scope).
Proof.
  intros Ha self Hne. unfold and_then, enter_scope. cbn [bind].
  destruct (Ha (set_scopes (scopes self ++ [scope]) self)) as [s E].
  { cbn. by destruct (scopes self). }
  exists s. by rewrite E.
Qed.

Lemma raises_visit_list nodes :
  Forall (fun node => visits_relative_import node = true ->
                      raises_unsupported (visit node)) nodes ->
  existsb visits_relative_import nodes = true ->
  raises_unsupported (visit_list visit nodes).
Proof.
  induction 1 as [|node rest Hnode _ IH]; [done|].
  cbn [existsb]. rewrite visit_list_cons.
  destruct (visits_relative_import node).
  - intros _. by apply raises_seq_l, Hnode.
  - cbn [orb]. intros Hrest.
    apply raises_seq_r;
      [apply visit_balanced|apply visit_raises_only_unsupported|].
    by apply IH.
Qed.

Lemma raises_visitClassDef node name bases decorator_list a :
  raises_unsupported a ->
  raises_unsupported (visitClassDef node name bases decorator_list a).
Proof.
  intros Ha self Hne. unfold visitClassDef.
  pose proof (resolve_bases_nonempty self bases) as Hb.
  unfold make_subclasses at 1.
  destruct (resolve_bases self bases) as [|b0 bs] eqn:Eb; [done|].
  cbn [map].
  destruct (check_bases _ _ _ _) as [klass self2] eqn:E2.
  assert (scopes self2 = scopes self) as Hsc.
  { change self2 with (klass, self2).2. rewrite <- E2.
    rewrite scopes_check_bases. apply scopes_check_subtypes. }
  rewrite <- Hsc in Hne. revert Hne. generalize self2.
  apply raises_parent_scope. intros scope. by apply raises_nested.
Qed.

Lemma raises_visitFunc node is_async name returns_ decorator_list a :
  raises_unsupported a ->
  raises_unsupported
    (visitFunc node is_async name returns_ decorator_list a).
Proof.
  intros Ha. unfold visitFunc, make_function. apply raises_seq_r.
  - case_bool_decide; [|apply balanced_Ok].
    apply balanced_parent_scope. intros scope. apply balanced_pure.
    intros self. by destruct scope.
  - case_bool_decide; [|apply unsupported_Ok].
    apply unsupported_parent_scope. intros scope. apply unsupported_pure.
  - by apply raises_nested.
Qed.

Lemma raises_visit_orelse_nested orelse a :
  existsb visits_relative_import orelse = true ->
  raises_unsupported a ->
  raises_unsupported (visit_orelse_nested orelse a).
Proof.
  intros Horelse Ha. destruct orelse; [done|].
  by apply raises_nested_only.
Qed.

Lemma balanced_and_unsupported_visit_list nodes :
  balanced (visit_list visit nodes) /\
  raises_only_unsupported (visit_list visit nodes).
Proof.
  split; [apply visit_list_balanced|].
  apply visit_list_raises_only_unsupported.
Qed.

Lemma raises_two_lists (a b : list AST) :
  (existsb visits_relative_import a = true ->
   raises_unsupported (visit_list visit a)) ->
  (existsb visits_relative_import b = true ->
   raises_unsupported (visit_list visit b)) ->
  existsb visits_relative_import a || existsb visits_relative_import b
    = true ->
  raises_unsupported (visit_list visit a >> visit_list visit b).
Proof.
  intros Ha Hb Hab.
  destruct (existsb visits_relative_import a).
  - by apply raises_seq_l, Ha.
  - apply raises_seq_r;
      [apply visit_list_balanced
      |apply visit_list_raises_only_unsupported|by apply Hb].
Qed.

Lemma raises_visitIf node test body orelse :
  node = If test body orelse ->
  (existsb visits_relative_import body = true ->
   raises_unsupported (visit_list visit body)) ->
  (existsb visits_relative_import orelse = true ->
   raises_unsupported (visit_list visit orelse)) ->
  visits_relative_import node = true ->
  raises_unsupported
    (visitIf node test orelse (visit_list visit body)
             (visit_list visit orelse)).
Proof.
  intros -> Hbody Horelse. cbn [visits_relative_import]. unfold visitIf.
  destruct (is_TYPE_CHECKING test).
  { intros Hex. destruct (existsb visits_relative_import body).
    - by apply raises_seq_l, Hbody.
    - apply raises_seq_r;
        [apply visit_list_balanced
        |apply visit_list_raises_only_unsupported|].
      apply raises_visit_orelse_nested; [done|by apply Horelse]. }
  destruct (sys_hexversion_check (If test body orelse)) as [[]|].
  - intros Hex.
    by apply (raises_after
                (fun self => set_module
                   (mark_known_boolean_test test true (module_ self)) self)),
             Hbody.
  - intros Hex.
    by apply (raises_after
                (fun self => set_module
                   (mark_known_boolean_test test false (module_ self))
                   self)),
             Horelse.
  - intros Hex. destruct (existsb visits_relative_import body).
    + by apply raises_seq_l, raises_nested_only, Hbody.
    + apply raises_seq_r.
      * apply balanced_nested_only, visit_list_balanced.
      * apply unsupported_nested_only;
          [apply visit_list_balanced
          |apply visit_list_raises_only_unsupported].
      * apply raises_visit_orelse_nested; [done|by apply Horelse].
Qed.

Lemma visit_raises_unsupported node :
  visits_relative_import node = true -> raises_unsupported (visit node).
Proof.
  induction node using AST_nested_ind; try done.
  - cbn [visits_relative_import]. intros Hex. rewrite visit_ClassDef.
    by apply raises_visitClassDef, raises_visit_list.
  - cbn [visits_relative_import]. intros Hex. rewrite visit_FunctionDef.
    by apply raises_visitFunc, raises_visit_list.
  - cbn [visits_relative_import]. intros Hex.
    rewrite visit_AsyncFunctionDef.
    by apply raises_visitFunc, raises_visit_list.
  - intros Hex self _. exists self. cbn. unfold visitImportFrom.
    destruct m as [[|c m]|]; try done. by destruct l.
  - cbn [visits_relative_import]. intros Hex.
    apply raises_nested_only.
    apply raises_two_lists; try done; by apply raises_visit_list.
  - cbn [visits_relative_import]. intros Hex.
    apply raises_nested_only.
    apply raises_two_lists; try done; by apply raises_visit_list.
  - cbn [visits_relative_import]. intros Hex.
    apply raises_nested_only.
    apply raises_two_lists; try done; by apply raises_visit_list.
  - intros Hex. rewrite visit_If.
    apply raises_visitIf; try done; by apply raises_visit_list.
  - cbn [visits_relative_import]. intros Hex.
    by apply raises_nested_only, raises_visit_list.
  - cbn [visits_relative_import]. intros Hex.
    by apply raises_nested_only, raises_visit_list.
  - cbn [visits_relative_import]. intros Hex. apply raises_nested_only.
    destruct (existsb visits_relative_import body) eqn:E1.
    { by apply raises_seq_l, raises_visit_list. }
    apply raises_seq_r;
      [apply visit_list_balanced
      |apply visit_list_raises_only_unsupported|].
    destruct (existsb visits_relative_import handlers) eqn:E2.
    { by apply raises_seq_l, raises_visit_list. }
    apply raises_seq_r;
      [apply visit_list_balanced
      |apply visit_list_raises_only_unsupported|].
    apply raises_two_lists; try done; by apply raises_visit_list.
  - cbn [visits_relative_import]. intros Hex.
    by apply (raises_visit_list body).
Qed.

(** C8.  A [from]-import with a non-zero level raises
    [NotImplementedError] and binds nothing: the objects are as they
    were.  Nothing catches the exception.  The statements after it in a
    list are not visited, a loop, [with] or [try] statement whose body
    starts with it is left by the same exception, and so is, started
    on a stack that is not empty, the visit of every node that holds a
    relative import, at any depth, in a statement list the visitor
    does not skip: a class or function body, a loop, a [with], a [try]
    or a handler, and the branches of an [if] except the one that a
    check of the interpreter version rules out. *)
Theorem C8_relative_import_raises mod_name names level self :
  level <> 0 ->
  let node := ImportFrom mod_name names level in
  let err := NotImplementedError "relative imports aren't supported" in
  let nested := set_scopes (scopes self ++ [NestedScope]) self in
  visit node self = Raise err self /\
  (forall pre post before,
     visit_list visit pre before = Ok self ->
     visit_list visit (pre ++ node :: post) before = Raise err self) /\
  (forall target iter post orelse,
     visit (For target iter (node :: post) orelse) self =
     Raise err nested) /\
  (forall test post orelse,
     visit (While test (node :: post) orelse) self = Raise err nested) /\
  (forall items post,
     visit (With items (node :: post)) self = Raise err nested) /\
  (forall post handlers orelse finalbody,
     visit (Try (node :: post) handlers orelse finalbody) self =
     Raise err nested) /\
  visits_relative_import node = true /\
  (forall outer start,
     visits_relative_import outer = true -> scopes start <> [] ->
     exists left_, visit outer start = Raise err left_).
Proof.
  intros Hlevel node err nested.
  assert (forall s, visit node s = Raise err s) as Hraise.
  { intros s. cbn. unfold visitImportFrom.
    destruct mod_name as [[|c m]|]; try done. by destruct level. }
  assert (forall post (k : action),
            (enter_scope NestedScope >>
             (visit_list visit (node :: post) >> k) >> exit_scope) self =
            Raise err nested) as Hloop.
  { intros post k. unfold and_then, enter_scope. cbn [bind].
    rewrite visit_list_cons. unfold and_then. by rewrite Hraise. }
  split; [apply Hraise|]. split.
  { intros pre post before Hpre. rewrite visit_list_app, Hpre. cbn [bind].
    rewrite visit_list_cons. unfold and_then. by rewrite Hraise. }
  split; [intros; apply Hloop|]. split; [intros; apply Hloop|]. split.
  { intros items post.
    change (visit (With items (node :: post)) self)
      with ((enter_scope NestedScope >> visit_list visit (node :: post) >>
             exit_scope) self).
    unfold and_then, enter_scope. cbn [bind].
    rewrite visit_list_cons. unfold and_then. by rewrite Hraise. }
  split; [intros; apply Hloop|]. split.
  { unfold node. cbn. destruct mod_name as [[|c m]|]; try done.
    by destruct level. }
  intros outer start Houter Hstart.
  by apply (visit_raises_unsupported outer).
Qed.
End RelativeImports.

(** ** Bodies of loops, [with] and [try] statements *)

(** The statements that the generic visit of a loop, a [with] or a
    [try] statement visits, in order. *)
Definition nested_statements (node : AST) : list AST :=
  match node with
  | For _ _ body orelse
  | AsyncFor _ _ body orelse
  | While _ body orelse => body ++ orelse
  | With _ body | AsyncWith _ body => body
  | Try body handlers orelse finalbody =>
      body ++ handlers ++ orelse ++ finalbody
  | _ => []
  end.

Section NestedBodies.
Context `{TI : TypesInterface} `{MI : !ModuleInterface}.

Lemma visit_nested_statement node self :
  is_nested_statement node = true ->
  visit node self =
  (enter_scope NestedScope >> visit_list visit (nested_statements node) >>
   exit_scope) self.
Proof.
  assert (forall (a : action) nodes,
            (forall s, a s = visit_list visit nodes s) ->
            (enter_scope NestedScope >> a >> exit_scope) self =
            (enter_scope NestedScope >> visit_list visit nodes >>
             exit_scope) self) as Hext.
  { intros a nodes Ha. unfold and_then, enter_scope. cbn [bind].
    by rewrite Ha. }
  destruct node; try done; intros _; cbn [nested_statements].
  - apply (Hext (visit_list visit body >> visit_list visit orelse)).
    intros s. by rewrite visit_list_app.
  - apply (Hext (visit_list visit body >> visit_list visit orelse)).
    intros s. by rewrite visit_list_app.
  - apply (Hext (visit_list visit body >> visit_list visit orelse)).
    intros s. by rewrite visit_list_app.
  - change (visit (Try body handlers orelse finalbody) self)
      with ((enter_scope NestedScope >>
             (visit_list visit body >> visit_list visit handlers >>
              visit_list visit orelse >> visit_list visit finalbody) >>
             exit_scope) self).
    apply Hext. intros s. rewrite !visit_list_app.
    unfold and_then. destruct (visit_list visit body s); [|done].
    cbn [bind]. rewrite !visit_list_app.
    destruct (visit_list visit handlers _); [|done].
    cbn [bind]. by rewrite ?visit_list_app.
Qed.

(** C9, amended.  The four declaration methods of the nested scope do
    nothing, and a loop, a [with] and a [try] statement are visited by
    entering such a scope, visiting their statements in it and leaving
    it.  So, whatever the objects are before, no class, function or
    variable of the body is declared in the module or in a class.
    Imports are not declared through the scope: the only names of the
    module whose declaration changes are bound to deferred imports,
    and when the visit returns every name that an import statement of
    the body binds is bound to a deferred import in the module. *)
Theorem C9_nested_bodies_declare_only_imports node self :
  is_nested_statement node = true ->
  (forall name klass func target annotation targets,
     declare_class NestedScope name klass self = self /\
     declare_function NestedScope func self = self /\
     declare_variable NestedScope target annotation self = self /\
     declare_variables NestedScope targets self = self) /\
  members (final (visit node self)) = members self /\
  has_init_subclass (final (visit node self)) = has_init_subclass self /\
  (forall name : string,
     children (module_ (final (visit node self))) !! name =
       children (module_ self) !! name \/
     exists source d,
       children (module_ (final (visit node self))) !! name =
         Some (DImport source d)) /\
  visit node self =
    (enter_scope NestedScope >> visit_list visit (nested_statements node) >>
     exit_scope) self /\
  (forall done statement name,
     visit node self = Ok done ->
     In statement (nested_statements node) ->
     In name (import_keys statement) ->
     exists source d,
       children (module_ done) !! name = Some (DImport source d)).
Proof.
  intros Hnode. split; [done|].
  pose proof (visit_nested_statement node self Hnode) as Heq.
  assert (declares_only_imports self (final (visit node self)))
    as (Hm & Hi & Hc).
  { rewrite Heq. apply final_nested_only. intros s Hs.
    by apply visit_list_declares_only_imports. }
  split; [exact Hm|]. split; [exact Hi|]. split; [exact Hc|].
  split; [exact Heq|].
  intros done statement name. rewrite Heq. intros Hok Hin Hname.
  by apply (nested_imports_bound _ _ _ _ _ Hok Hin Hname).
Qed.
End NestedBodies.

(** ** The restated properties on the small type environment *)

(** [class C(A, tuple, tuple): pass]: two of the three subclasses are of
    another kind than the first, and two reports are made. *)
Lemma C1_incompatible_subtypes_reported_witness :
  let bases := [Name "A"; Name "tuple"; Name "tuple"] in
  let node := ClassDef "C" bases [] [Pass] in
  In (Plain "C" false)
     (make_subclasses with_A "C" (resolve_bases with_A bases)) /\
  In (TupleLike "C")
     (make_subclasses with_A "C" (resolve_bases with_A bases)) /\
  type_of (Plain "C" false) <> type_of (TupleLike "C") /\
  In ("m.py", node, "Incompatible subtypes")
     (error_sink (final (visit node with_A))) /\
  exists first rest later,
    make_subclasses with_A "C" (resolve_bases with_A bases) = first :: rest
    /\
    error_sink (final (visit node with_A)) =
      error_sink with_A ++
      replicate (differing first
                   (make_subclasses with_A "C" (resolve_bases with_A bases)))
                ("m.py", node, "Incompatible subtypes") ++ later /\
    ~ In ("m.py", node, "Incompatible subtypes") later.
Proof.
  intros bases node.
  assert (In (Plain "C" false)
            (make_subclasses with_A "C" (resolve_bases with_A bases))) as H1
    by (vm_compute; auto).
  assert (In (TupleLike "C")
            (make_subclasses with_A "C" (resolve_bases with_A bases))) as H2
    by (vm_compute; auto).
  assert (type_of (Plain "C" false) <> type_of (TupleLike "C")) as H3
    by (vm_compute; discriminate).
  destruct (C1_incompatible_subtypes_reported "C" bases [] [Pass] with_A
              (Plain "C" false) (TupleLike "C") H1 H2 H3)
    as (Hin & _ & first & rest & later & Hsub & _ & Hsink & Hlater).
  repeat split; try assumption.
  exists first, rest, later. split; [exact Hsub|].
  split; [exact Hsink|exact Hlater].
Defined.

(** [from . import x], alone and inside
    [class K: def f(): if c: async for i in xs: from . import x]. *)
Lemma C8_relative_import_raises_witness :
  let import_ := ImportFrom None [mk_alias "x" None] 1 in
  let outer :=
    ClassDef "K" [] []
      [FunctionDef "f" None []
         [If (Name "c") [AsyncFor (Name "i") (Name "xs") [import_] []] []]]
  in
  1 <> 0 /\
  visit import_ fresh =
    Raise (NotImplementedError "relative imports aren't supported") fresh /\
  visits_relative_import outer = true /\ scopes fresh <> [] /\
  exists left_,
    visit outer fresh =
    Raise (NotImplementedError "relative imports aren't supported") left_.
Proof.
  intros import_ outer.
  assert (1 <> 0) as H by lia.
  assert (visits_relative_import outer = true) as Houter by reflexivity.
  assert (scopes fresh <> []) as Hfresh by discriminate.
  destruct (C8_relative_import_raises None [mk_alias "x" None] 1 fresh H)
    as (Hraise & _ & _ & _ & _ & _ & _ & Hany).
  split; [exact H|]. split; [exact Hraise|]. split; [exact Houter|].
  split; [exact Hfresh|]. exact (Hany outer fresh Houter Hfresh).
Defined.

(** [for i in xs: class A: pass; import foo] *)
Lemma C9_nested_bodies_declare_only_imports_witness :
  let node := For (Name "i") (Name "xs") [A; import_foo] [] in
  is_nested_statement node = true /\
  members (final (visit node fresh)) = members fresh /\
  visit node fresh = Ok (final (visit node fresh)) /\
  In import_foo (nested_statements node) /\
  In "foo" (import_keys import_foo) /\
  exists source d,
    children (module_ (final (visit node fresh))) !! "foo" =
      Some (DImport source d).
Proof.
  intros node.
  assert (is_nested_statement node = true) as H by reflexivity.
  assert (visit node fresh = Ok (final (visit node fresh))) as Hok
    by (vm_compute; reflexivity).
  assert (In import_foo (nested_statements node)) as Hin
    by (right; by left).
  assert (In "foo" (import_keys import_foo)) as Hkey by (by left).
  destruct (C9_nested_bodies_declare_only_imports node fresh H)
    as (_ & Hm & _ & _ & _ & Hbound).
  split; [exact H|]. split; [exact Hm|]. split; [exact Hok|].
  split; [exact Hin|]. split; [exact Hkey|].
  exact (Hbound _ import_foo "foo" Hok Hin Hkey).
Defined.
